(** * webvideo-editor: the FFmpeg bridge (src/lib/ffmpegClient.ts) and the
    worker's command builders (src/workers/ffmpeg.worker.ts)

    The client is a class with six mutable fields that talks to a Web Worker
    through [postMessage] and event listeners.  It is embedded as a state
    monad over a [World]: the client's fields plus the parts of the browser
    the code touches (the live worker and its listeners, window timers, the
    object-URL registry) and four logs that make the effects observable
    (every [resolve]/[reject] invocation, every [postMessage], every call of
    a progress callback, and the calls suspended at an [await]).

    The worker's [executeConvert] and [executeMerge] are embedded in a state
    and exception monad over the history of engine operations.

    The rest of the worker (its message handler, [loadFFmpeg],
    [executeTrim] and [executeFrames]) is embedded in a monad of the worker
    thread over its two variables, the requests it makes to its
    environment and the messages it posts.  The page (src/pages/Index.tsx)
    and the panels are embedded through the pure updaters of their state. *)

From Stdlib Require Import List String Ascii ZArith QArith Qround Qabs Lia Bool Arith
  DecimalString PeanoNat.
From Stdlib Require Import Strings.Byte.
From Stdlib Require Import Permutation Qring DecimalNat FinFun.
Import ListNotations.
Local Close Scope Q_scope.
Local Open Scope string_scope.
Local Open Scope list_scope.

(** ** JavaScript helpers *)

Module Js.

(** [`${n}`] for a non-negative integer. *)
Definition of_nat (n : nat) : string := NilZero.string_of_uint (Nat.to_uint n).

Definition of_N (n : N) : string := NilZero.string_of_uint (N.to_uint n).

(** [`${z}`] for an integer. *)
Definition of_Z (z : Z) : string := NilZero.string_of_int (Z.to_int z).

(** Truthiness of an optional string: [undefined] and [''] are falsy. *)
Definition truthy (s : option string) : option string :=
  match s with
  | Some EmptyString => None
  | other => other
  end.

(** [a || b] on optional strings. *)
Definition or_else (a : option string) (b : string) : string :=
  match truthy a with
  | Some s => s
  | None => b
  end.

(** [String(n).padStart(width, '0')]. *)
Fixpoint zeros (k : nat) : string :=
  match k with
  | O => ""
  | S k' => String "0" (zeros k')
  end.

Definition padStart0 (width : nat) (s : string) : string :=
  zeros (width - String.length s) ++ s.

(** [x.toFixed(2)] on a finite number below 1e21, following
    Number.prototype.toFixed: the sign is split off, then the integer n
    with n / 100 closest to |x| is printed (the larger n on a tie). *)
Definition toFixed2 (x : Q) : string :=
  let neg := match Qcompare x 0%Q with Lt => true | _ => false end in
  let a := Qabs x in
  let n := Qfloor (a * 100 + (1 # 2))%Q in
  (if neg then "-" else "") ++
  of_Z (n / 100)%Z ++ "." ++ padStart0 2 (of_Z (n mod 100)%Z).

(** [arr.join(sep)]. *)
Fixpoint join (sep : string) (l : list string) : string :=
  match l with
  | [] => ""
  | [s] => s
  | s :: rest => s ++ sep ++ join sep rest
  end.

End Js.

(** ** src/types/index.ts *)

Definition bytes := list byte.

Inductive TrimMode := fast | accurate.

Record TrimSettings := { startTime : Q; endTime : Q; mode : TrimMode }.

Record FrameSettings := { fps : Q }.

Inductive Quality := low | medium | high.

(** [ConvertSettings.format] has the single value ['webm']. *)
Record ConvertSettings := { quality : Quality }.

Inductive MergeFormat := mp4 | webm.

Record MergeSettings := { format : MergeFormat }.

Record FrameData := { frame_name : string; frame_data : bytes; frame_objectUrl : string }.

Inductive CommandType := ctTrim | ctFrames | ctConvert | ctMerge.

Record ExportResult := {
  result_id : string;
  result_type : CommandType;
  filename : string;
  size : nat;
  createdAt : N;
  data : bytes;
  objectUrl : string;
  frames : option (list FrameData)
}.

Inductive ProcessingStatus := idle | loading | processing | complete | error.

Record ProcessingState := {
  status : ProcessingStatus;
  progress : Z;
  message : string;
  state_logs : list string
}.

(** A [File] is a handle; its bytes arrive when the FileReader is done. *)
Definition File := string.

Record Clip := {
  clip_id : string;
  clip_name : string;
  clip_file : File;
  clip_size : nat;
  clip_duration : Q;
  clip_objectUrl : string;
  clip_type : string;
  clip_start : Q;
  clip_end : Q
}.

Record ClipData := { cd_inputData : bytes; cd_start : Q; cd_end : Q }.

Inductive Settings :=
| OfTrim (s : TrimSettings)
| OfFrames (s : FrameSettings)
| OfConvert (s : ConvertSettings)
| OfMerge (s : MergeSettings).

Record FFmpegCommand := {
  cmd_type : CommandType;
  inputData : option bytes;
  clips : option (list ClipData);
  settings : Settings
}.

Inductive WorkerMessage :=
| MsgLoad
| MsgExecute (payload : FFmpegCommand)
| MsgCancel.

Inductive ResponseType := rLoaded | rProgress | rLog | rComplete | rError.

Record Payload := {
  p_progress : option Z;
  p_message : option string;
  p_data : option bytes;
  p_frames : option (list (string * bytes));
  p_error : option string;
  p_step : option string
}.

Definition noPayload : Payload :=
  {| p_progress := None; p_message := None; p_data := None;
     p_frames := None; p_error := None; p_step := None |}.

(** [payload] itself is optional; [payload?.x] reads through it. *)
Record WorkerResponse := { r_type : ResponseType; r_payload : option Payload }.

Definition payload_get {A} (f : Payload -> option A) (r : WorkerResponse) : option A :=
  match r_payload r with
  | Some p => f p
  | None => None
  end.

(** ** The world around the client *)

(** A progress callback is an opaque function of the caller; it is known by
    its identity and every invocation is logged.  The state handed to it
    holds the array [this.logs] itself; the log of invocations records what
    that array held at the call. *)
Definition Cb := nat.

Definition PromiseId := nat.

Inductive Value := VVoid | VResult (r : ExportResult).

Inductive Outcome := Resolved (v : Value) | Rejected (msg : string).

(** The four [handleResult] closures differ in how they materialize the
    output; merge's closes over its settings. *)
Inductive ResultHandler :=
| ForTrim
| ForFrames
| ForConvert
| ForMerge (s : MergeSettings).

(** A listener is a closure over the [resolve]/[reject] pair of one promise. *)
Inductive Listener :=
| handleLoad (p : PromiseId)
| handleResult (k : ResultHandler) (p : PromiseId).

Record Worker := { worker_id : nat; listeners : list Listener }.

Record Timer := { timer_id : nat; deadline : N; timer_callback : Cb }.

Inductive Request :=
| ReqTrim (file : File) (s : TrimSettings)
| ReqFrames (file : File) (s : FrameSettings)
| ReqConvert (file : File) (s : ConvertSettings)
| ReqMerge (cs : list Clip) (s : MergeSettings).

(** Where an [async] command body is suspended. *)
Inductive Stage :=
| AwaitLoad (lp : PromiseId)      (* await this.load(callback) *)
| AwaitRead.                       (* await readFileAsArrayBuffer(file) *)

Record Call := {
  call_promise : PromiseId;
  call_request : Request;
  call_callback : Cb;
  call_stage : Stage
}.

Record Blob := { blob_type : string; blob_bytes : bytes }.

Record FFmpegClient := {
  worker : option Worker;
  isLoaded : bool;
  loadPromise : option PromiseId;
  currentCallback : option Cb;
  logs : list string;
  timeoutId : option nat
}.

Definition TIMEOUT_MS : N := 300000.

Record World := {
  client : FFmpegClient;
  hasSharedArrayBuffer : bool;            (* typeof SharedArrayBuffer !== 'undefined' *)
  now : N;                                (* Date.now() *)
  fresh : nat;                            (* source of new identities *)
  timers : list Timer;                    (* armed window timers *)
  urls : list (string * Blob);            (* URL.createObjectURL registry *)
  settled : list (PromiseId * Outcome);   (* resolve/reject invocations, oldest first *)
  posted : list (nat * WorkerMessage);    (* postMessage calls, oldest first *)
  notified : list (Cb * ProcessingState); (* progress callback invocations *)
  suspended : list Call                   (* command bodies waiting at an await *)
}.

Definition set_client (c : FFmpegClient) (w : World) : World :=
  {| client := c; hasSharedArrayBuffer := hasSharedArrayBuffer w; now := now w;
     fresh := fresh w; timers := timers w; urls := urls w; settled := settled w;
     posted := posted w; notified := notified w; suspended := suspended w |}.

Definition set_now (n : N) (w : World) : World :=
  {| client := client w; hasSharedArrayBuffer := hasSharedArrayBuffer w; now := n;
     fresh := fresh w; timers := timers w; urls := urls w; settled := settled w;
     posted := posted w; notified := notified w; suspended := suspended w |}.

Definition set_fresh (n : nat) (w : World) : World :=
  {| client := client w; hasSharedArrayBuffer := hasSharedArrayBuffer w; now := now w;
     fresh := n; timers := timers w; urls := urls w; settled := settled w;
     posted := posted w; notified := notified w; suspended := suspended w |}.

Definition set_timers (t : list Timer) (w : World) : World :=
  {| client := client w; hasSharedArrayBuffer := hasSharedArrayBuffer w; now := now w;
     fresh := fresh w; timers := t; urls := urls w; settled := settled w;
     posted := posted w; notified := notified w; suspended := suspended w |}.

Definition set_urls (u : list (string * Blob)) (w : World) : World :=
  {| client := client w; hasSharedArrayBuffer := hasSharedArrayBuffer w; now := now w;
     fresh := fresh w; timers := timers w; urls := u; settled := settled w;
     posted := posted w; notified := notified w; suspended := suspended w |}.

Definition set_settled (s : list (PromiseId * Outcome)) (w : World) : World :=
  {| client := client w; hasSharedArrayBuffer := hasSharedArrayBuffer w; now := now w;
     fresh := fresh w; timers := timers w; urls := urls w; settled := s;
     posted := posted w; notified := notified w; suspended := suspended w |}.

Definition set_posted (p : list (nat * WorkerMessage)) (w : World) : World :=
  {| client := client w; hasSharedArrayBuffer := hasSharedArrayBuffer w; now := now w;
     fresh := fresh w; timers := timers w; urls := urls w; settled := settled w;
     posted := p; notified := notified w; suspended := suspended w |}.

Definition set_notified (n : list (Cb * ProcessingState)) (w : World) : World :=
  {| client := client w; hasSharedArrayBuffer := hasSharedArrayBuffer w; now := now w;
     fresh := fresh w; timers := timers w; urls := urls w; settled := settled w;
     posted := posted w; notified := n; suspended := suspended w |}.

Definition set_suspended (s : list Call) (w : World) : World :=
  {| client := client w; hasSharedArrayBuffer := hasSharedArrayBuffer w; now := now w;
     fresh := fresh w; timers := timers w; urls := urls w; settled := settled w;
     posted := posted w; notified := notified w; suspended := s |}.

Definition set_worker (x : option Worker) (c : FFmpegClient) : FFmpegClient :=
  {| worker := x; isLoaded := isLoaded c; loadPromise := loadPromise c;
     currentCallback := currentCallback c; logs := logs c; timeoutId := timeoutId c |}.

Definition set_isLoaded (x : bool) (c : FFmpegClient) : FFmpegClient :=
  {| worker := worker c; isLoaded := x; loadPromise := loadPromise c;
     currentCallback := currentCallback c; logs := logs c; timeoutId := timeoutId c |}.

Definition set_loadPromise (x : option PromiseId) (c : FFmpegClient) : FFmpegClient :=
  {| worker := worker c; isLoaded := isLoaded c; loadPromise := x;
     currentCallback := currentCallback c; logs := logs c; timeoutId := timeoutId c |}.

Definition set_currentCallback (x : option Cb) (c : FFmpegClient) : FFmpegClient :=
  {| worker := worker c; isLoaded := isLoaded c; loadPromise := loadPromise c;
     currentCallback := x; logs := logs c; timeoutId := timeoutId c |}.

Definition set_logs (x : list string) (c : FFmpegClient) : FFmpegClient :=
  {| worker := worker c; isLoaded := isLoaded c; loadPromise := loadPromise c;
     currentCallback := currentCallback c; logs := x; timeoutId := timeoutId c |}.

Definition set_timeoutId (x : option nat) (c : FFmpegClient) : FFmpegClient :=
  {| worker := worker c; isLoaded := isLoaded c; loadPromise := loadPromise c;
     currentCallback := currentCallback c; logs := logs c; timeoutId := x |}.

(** ** The state monad *)

Definition M (A : Type) : Type := World -> A * World.

Definition ret {A} (a : A) : M A := fun w => (a, w).

Definition bind {A B} (m : M A) (k : A -> M B) : M B :=
  fun w => let (a, w') := m w in k a w'.

Declare Scope js_scope.
Delimit Scope js_scope with js.
Notation "x <- m ;; k" := (bind m (fun x => k))
  (at level 61, m at next level, right associativity) : js_scope.
Notation "m ;; k" := (bind m (fun _ => k))
  (at level 61, right associativity) : js_scope.
Local Open Scope js_scope.

Definition skip : M unit := ret tt.

Fixpoint forEach {A} (l : list A) (f : A -> M unit) : M unit :=
  match l with
  | [] => skip
  | a :: rest => f a ;; forEach rest f
  end.

Fixpoint mapM {A B} (f : A -> M B) (l : list A) : M (list B) :=
  match l with
  | [] => ret []
  | a :: rest => b <- f a ;; bs <- mapM f rest ;; ret (b :: bs)
  end.

(** *** Primitive effects *)

Definition this : M FFmpegClient := fun w => (client w, w).

Definition assign (f : FFmpegClient -> FFmpegClient) : M unit :=
  fun w => (tt, set_client (f (client w)) w).

Definition newId : M nat := fun w => (fresh w, set_fresh (S (fresh w)) w).

Definition Date_now : M N := fun w => (now w, w).

Definition typeof_SharedArrayBuffer : M bool := fun w => (hasSharedArrayBuffer w, w).

Definition resolve (p : PromiseId) (v : Value) : M unit :=
  fun w => (tt, set_settled (settled w ++ [(p, Resolved v)]) w).

Definition reject (p : PromiseId) (msg : string) : M unit :=
  fun w => (tt, set_settled (settled w ++ [(p, Rejected msg)]) w).

(** Calling a progress callback. *)
Definition invoke (cb : Cb) (s : ProcessingState) : M unit :=
  fun w => (tt, set_notified (notified w ++ [(cb, s)]) w).

Definition invoke_opt (cb : option Cb) (s : ProcessingState) : M unit :=
  match cb with
  | Some f => invoke f s
  | None => skip
  end.

Definition window_setTimeout (cb : Cb) (ms : N) : M nat :=
  t <- newId ;;
  fun w => (t, set_timers (timers w ++ [{| timer_id := t; deadline := (now w + ms)%N;
                                           timer_callback := cb |}]) w).

Definition window_clearTimeout (t : nat) : M unit :=
  fun w => (tt, set_timers (filter (fun x => negb (Nat.eqb (timer_id x) t)) (timers w)) w).

Definition URL_createObjectURL (b : Blob) : M string :=
  n <- newId ;;
  let url := ("blob:" ++ Js.of_nat n)%string in
  fun w => (url, set_urls (urls w ++ [(url, b)]) w).

Definition crypto_randomUUID : M string :=
  n <- newId ;; ret ("uuid-" ++ Js.of_nat n)%string.

Definition suspend (c : Call) : M unit :=
  fun w => (tt, set_suspended (suspended w ++ [c]) w).

Definition takeSuspended : M (list Call) :=
  fun w => (suspended w, set_suspended [] w).

(** The state of a promise is fixed by the first [resolve]/[reject]. *)
Fixpoint first_outcome (p : PromiseId) (l : list (PromiseId * Outcome)) : option Outcome :=
  match l with
  | [] => None
  | (q, o) :: rest => if Nat.eqb q p then Some o else first_outcome p rest
  end.

Definition promiseState (p : PromiseId) (w : World) : option Outcome :=
  first_outcome p (settled w).

(** How often [resolve] or [reject] was invoked for a promise. *)
Definition fired (p : PromiseId) (w : World) : nat :=
  List.length (filter (fun x => Nat.eqb (fst x) p) (settled w)).

Definition MergeFormat_eqb (a b : MergeFormat) : bool :=
  match a, b with
  | mp4, mp4 | webm, webm => true
  | _, _ => false
  end.

Definition ResultHandler_eqb (a b : ResultHandler) : bool :=
  match a, b with
  | ForTrim, ForTrim | ForFrames, ForFrames | ForConvert, ForConvert => true
  | ForMerge s, ForMerge t => MergeFormat_eqb (format s) (format t)
  | _, _ => false
  end.

Definition Listener_eqb (a b : Listener) : bool :=
  match a, b with
  | handleLoad p, handleLoad q => Nat.eqb p q
  | handleResult k p, handleResult j q => ResultHandler_eqb k j && Nat.eqb p q
  | _, _ => false
  end.

(** [this.worker.addEventListener('message', l)] *)
Definition addEventListener (l : Listener) : M unit :=
  c <- this ;;
  match worker c with
  | Some wk => assign (set_worker (Some {| worker_id := worker_id wk;
                                           listeners := listeners wk ++ [l] |}))
  | None => skip
  end.

(** [this.worker?.removeEventListener('message', l)] *)
Definition removeEventListener (l : Listener) : M unit :=
  c <- this ;;
  match worker c with
  | Some wk => assign (set_worker (Some {| worker_id := worker_id wk;
                 listeners := filter (fun x => negb (Listener_eqb x l)) (listeners wk) |}))
  | None => skip
  end.

(** [this.worker.postMessage(m)] *)
Definition postMessage (m : WorkerMessage) : M unit :=
  c <- this ;;
  match worker c with
  | Some wk => fun w => (tt, set_posted (posted w ++ [(worker_id wk, m)]) w)
  | None => skip
  end.

(** ** class FFmpegClient *)

Module FFmpegClient.

Definition initWorker : M unit :=
  n <- newId ;;
  assign (set_worker (Some {| worker_id := n; listeners := [] |})).

Definition clearTimeout : M unit :=
  c <- this ;;
  match timeoutId c with
  | Some t => window_clearTimeout t ;; assign (set_timeoutId None)
  | None => skip
  end.

Definition handleMessage (event : WorkerResponse) : M unit :=
  match r_type event with
  | rLoaded => assign (set_isLoaded true)
  | rProgress =>
      c <- this ;;
      match currentCallback c, payload_get p_progress event with
      | Some cb, Some pr =>
          let stepMessage :=
            Js.or_else (payload_get p_step event)
                       (Js.or_else (payload_get p_message event) "") in
          invoke cb {| status := processing; progress := pr;
                       message := Js.or_else (Some stepMessage)
                                    ("Processing... " ++ Js.of_Z pr ++ "%")%string;
                       state_logs := logs c |}
      | _, _ => skip
      end
  | rLog =>
      match Js.truthy (payload_get p_message event) with
      | Some m =>
          assign (fun c => set_logs (logs c ++ [m]) c) ;;
          c <- this ;;
          invoke_opt (currentCallback c)
            {| status := processing; progress := 0; message := m;
               state_logs := logs c |}
      | None => skip
      end
  | rComplete =>
      clearTimeout ;;
      c <- this ;;
      invoke_opt (currentCallback c)
        {| status := complete; progress := 100; message := "Processing complete!";
           state_logs := logs c |}
  | rError =>
      clearTimeout ;;
      c <- this ;;
      invoke_opt (currentCallback c)
        {| status := error; progress := 0;
           message := Js.or_else (payload_get p_error event) "Unknown error";
           state_logs := logs c |}
  end.

Definition handleError (msg : string) : M unit :=
  clearTimeout ;;
  c <- this ;;
  invoke_opt (currentCallback c)
    {| status := error; progress := 0;
       message := ("Worker error: " ++ msg)%string; state_logs := logs c |}.

Definition terminate : M unit :=
  clearTimeout ;;
  (* this.worker?.terminate(): the worker and its listeners are gone *)
  assign (set_worker None) ;;
  assign (set_isLoaded false) ;;
  assign (set_loadPromise None).

Definition TIMEOUT_MESSAGE : string :=
  "Processing timed out. The operation took too long.".

(** The closure handed to [window.setTimeout] by [startTimeout]. *)
Definition onTimeout (callback : Cb) : M unit :=
  c <- this ;;
  invoke callback {| status := error; progress := 0; message := TIMEOUT_MESSAGE;
                     state_logs := logs c |} ;;
  terminate ;;
  initWorker.

Definition startTimeout (callback : Cb) : M unit :=
  clearTimeout ;;
  t <- window_setTimeout callback TIMEOUT_MS ;;
  assign (set_timeoutId (Some t)).

Definition SAB_MESSAGE : string :=
  "SharedArrayBuffer is not available. " ++
  "FFmpeg.wasm requires SharedArrayBuffer support. " ++
  "Please ensure the server sends Cross-Origin-Opener-Policy: same-origin and " ++
  "Cross-Origin-Embedder-Policy: require-corp headers.".

Definition NO_WORKER : string := "Worker not initialized".

(** How the body of [async load] ends.  An [async] function wraps what it
    returns in a promise of its own, which takes the state of the promise
    returned; the wrapper of [return this.loadPromise] is identified with
    [loadPromise]. *)
Inductive LoadReturn :=
| Returned                      (* return; *)
| Threw (msg : string)          (* throw error; *)
| Returns (p : PromiseId).      (* return this.loadPromise; *)

Definition load (callback : option Cb) : M LoadReturn :=
  c <- this ;;
  if isLoaded c then ret Returned else
  sab <- typeof_SharedArrayBuffer ;;
  if negb sab then
    invoke_opt callback {| status := error; progress := 0; message := SAB_MESSAGE;
                           state_logs := [] |} ;;
    ret (Threw SAB_MESSAGE)
  else
  match loadPromise c with
  | Some p => ret (Returns p)
  | None =>
      p <- newId ;;
      (* the executor of new Promise((resolve, reject) => ...) *)
      match worker c with
      | None => reject p NO_WORKER
      | Some _ =>
          addEventListener (handleLoad p) ;;
          postMessage MsgLoad ;;
          invoke_opt callback {| status := loading; progress := 0;
                                 message := "Loading FFmpeg..."; state_logs := [] |}
      end ;;
      assign (set_loadPromise (Some p)) ;;
      ret (Returns p)
  end.

(** [new Error(event.data.payload?.error)]: the message of
    [new Error(undefined)] is the empty string. *)
Definition errorMessage (event : WorkerResponse) : string :=
  match payload_get p_error event with
  | Some s => s
  | None => ""
  end.

(** The listener [handleLoad] registered by [load]. *)
Definition runHandleLoad (p : PromiseId) (event : WorkerResponse) : M unit :=
  match r_type event with
  | rLoaded => removeEventListener (handleLoad p) ;; resolve p VVoid
  | rError => removeEventListener (handleLoad p) ;; reject p (errorMessage event)
  | _ => skip
  end.

(** Result materialization inside the four [handleResult] closures;
    [dataArray] is a copy of the bytes received. *)
Definition fileResult (kind : CommandType) (mime prefix extension : string)
           (d : bytes) : M ExportResult :=
  let dataArray := d in
  let blob := {| blob_type := mime; blob_bytes := dataArray |} in
  uuid <- crypto_randomUUID ;;
  stamp <- Date_now ;;
  created <- Date_now ;;
  url <- URL_createObjectURL blob ;;
  ret {| result_id := uuid; result_type := kind;
         filename := (prefix ++ Js.of_N stamp ++ "." ++ extension)%string;
         size := List.length d; createdAt := created; data := dataArray;
         objectUrl := url; frames := None |}.

Definition frameOf (f : string * bytes) : M FrameData :=
  let frameArray := snd f in
  url <- URL_createObjectURL {| blob_type := "image/jpeg"; blob_bytes := frameArray |} ;;
  ret {| frame_name := fst f; frame_data := frameArray; frame_objectUrl := url |}.

Definition framesResult (fs : list (string * bytes)) : M ExportResult :=
  frameData <- mapM frameOf fs ;;
  let totalSize := fold_left (fun acc f => acc + List.length (snd f)) fs 0 in
  uuid <- crypto_randomUUID ;;
  stamp <- Date_now ;;
  created <- Date_now ;;
  ret {| result_id := uuid; result_type := ctFrames;
         filename := ("frames_" ++ Js.of_N stamp ++ ".zip")%string;
         size := totalSize; createdAt := created; data := [];
         objectUrl := ""; frames := Some frameData |}.

Definition materialize (k : ResultHandler) (event : WorkerResponse)
  : M (option ExportResult) :=
  match k with
  | ForTrim =>
      match payload_get p_data event with
      | Some d => r <- fileResult ctTrim "video/mp4" "trimmed_" "mp4" d ;; ret (Some r)
      | None => ret None
      end
  | ForFrames =>
      match payload_get p_frames event with
      | Some fs => r <- framesResult fs ;; ret (Some r)
      | None => ret None
      end
  | ForConvert =>
      match payload_get p_data event with
      | Some d => r <- fileResult ctConvert "video/webm" "converted_" "webm" d ;; ret (Some r)
      | None => ret None
      end
  | ForMerge s =>
      match payload_get p_data event with
      | Some d =>
          let mimeType := match format s with webm => "video/webm" | mp4 => "video/mp4" end in
          let extension := match format s with webm => "webm" | mp4 => "mp4" end in
          r <- fileResult ctMerge mimeType "merged_" extension d ;; ret (Some r)
      | None => ret None
      end
  end.

(** The listener [handleResult] registered by a command. *)
Definition runHandleResult (k : ResultHandler) (p : PromiseId)
           (event : WorkerResponse) : M unit :=
  match r_type event with
  | rComplete =>
      removeEventListener (handleResult k p) ;;
      r <- materialize k event ;;
      match r with
      | Some result => resolve p (VResult result)
      | None => skip
      end
  | rError =>
      removeEventListener (handleResult k p) ;;
      reject p (errorMessage event)
  | _ => skip
  end.

Definition runListener (l : Listener) (event : WorkerResponse) : M unit :=
  match l with
  | handleLoad p => runHandleLoad p event
  | handleResult k p => runHandleResult k p event
  end.

(** *** The four commands *)

Definition handlerOf (req : Request) : ResultHandler :=
  match req with
  | ReqTrim _ _ => ForTrim
  | ReqFrames _ _ => ForFrames
  | ReqConvert _ _ => ForConvert
  | ReqMerge _ s => ForMerge s
  end.

(** How many files the command reads before it posts. *)
Definition readsOf (req : Request) : nat :=
  match req with
  | ReqMerge cs _ => List.length cs
  | _ => 1
  end.

Definition clipData (x : Clip * bytes) : ClipData :=
  {| cd_inputData := snd x; cd_start := clip_start (fst x); cd_end := clip_end (fst x) |}.

Definition commandOf (req : Request) (buffers : list bytes) : FFmpegCommand :=
  match req with
  | ReqTrim _ s =>
      {| cmd_type := ctTrim; inputData := hd_error buffers; clips := None;
         settings := OfTrim s |}
  | ReqFrames _ s =>
      {| cmd_type := ctFrames; inputData := hd_error buffers; clips := None;
         settings := OfFrames s |}
  | ReqConvert _ s =>
      {| cmd_type := ctConvert; inputData := hd_error buffers; clips := None;
         settings := OfConvert s |}
  | ReqMerge cs s =>
      {| cmd_type := ctMerge; inputData := None;
         clips := Some (map clipData (combine cs buffers)); settings := OfMerge s |}
  end.

(** From [await this.load(callback)] to the read of the input (for merge,
    the reads of all clips). *)
Definition prepare (p : PromiseId) (req : Request) (callback : Cb) : M unit :=
  assign (set_logs []) ;;
  assign (set_currentCallback (Some callback)) ;;
  startTimeout callback ;;
  suspend {| call_promise := p; call_request := req; call_callback := callback;
             call_stage := AwaitRead |}.

(** The executor of the promise the command returns; that promise and the
    one of the [async] wrapper are identified, as for [load]. *)
Definition submit (p : PromiseId) (req : Request) (buffers : list bytes) : M unit :=
  c <- this ;;
  match worker c with
  | None => reject p NO_WORKER
  | Some _ =>
      addEventListener (handleResult (handlerOf req) p) ;;
      postMessage (MsgExecute (commandOf req buffers))
  end.

(** [await this.load(callback)]: an exception of [load] rejects the
    command's promise; a pending load suspends the body.  When [load]
    returns at once the body goes on in the same task: a call from the page
    is a task of its own, so nothing runs in between. *)
Definition start (p : PromiseId) (req : Request) (callback : Cb) : M unit :=
  r <- load (Some callback) ;;
  match r with
  | Returned => prepare p req callback
  | Threw msg => reject p msg
  | Returns lp =>
      suspend {| call_promise := p; call_request := req; call_callback := callback;
                 call_stage := AwaitLoad lp |}
  end.

Definition trim (file : File) (s : TrimSettings) (callback : Cb) : M PromiseId :=
  p <- newId ;;
  start p (ReqTrim file s) callback ;;
  ret p.

Definition extractFrames (file : File) (s : FrameSettings) (callback : Cb) : M PromiseId :=
  p <- newId ;;
  start p (ReqFrames file s) callback ;;
  ret p.

Definition convert (file : File) (s : ConvertSettings) (callback : Cb) : M PromiseId :=
  p <- newId ;;
  start p (ReqConvert file s) callback ;;
  ret p.

Definition TOO_FEW_CLIPS : string := "Need at least 2 clips to merge".

Definition merge (cs : list Clip) (s : MergeSettings) (callback : Cb) : M PromiseId :=
  p <- newId ;;
  (if Nat.ltb (List.length cs) 2
   then reject p TOO_FEW_CLIPS
   else start p (ReqMerge cs s) callback) ;;
  ret p.

End FFmpegClient.

(** ** The event loop

    One [Event] is one task of the browser's loop: a call from the page, a
    message or an error from the worker, a finished file read, or time
    passing.  After each task the suspended command bodies whose awaited
    promise has settled are resumed (the microtask checkpoint).  The
    continuations woken by a load outcome touch no state that a later
    listener of the same message reads, so they run once the dispatch of
    the message is over. *)

Import FFmpegClient.

Inductive Event :=
| Load (callback : option Cb)                                    (* ffmpegClient.load(cb) *)
| Trim (file : File) (s : TrimSettings) (callback : Cb)
| ExtractFrames (file : File) (s : FrameSettings) (callback : Cb)
| Convert (file : File) (s : ConvertSettings) (callback : Cb)
| Merge (cs : list Clip) (s : MergeSettings) (callback : Cb)
| Terminate                                                      (* ffmpegClient.terminate() *)
| Message (from : nat) (event : WorkerResponse)                  (* worker.onmessage *)
| Crash (from : nat) (msg : string)                              (* worker.onerror *)
| FileRead (p : PromiseId) (result : option (list bytes))        (* FileReader done *)
| Elapse (ms : N).                                               (* the clock advances *)

Definition registered (l : Listener) (c : FFmpegClient) : bool :=
  match worker c with
  | Some wk => existsb (Listener_eqb l) (listeners wk)
  | None => false
  end.

(** A message event of the live worker: [onmessage] first, then the
    listeners that were registered when the dispatch began and still are.
    A worker that has been terminated delivers nothing. *)
Definition dispatchMessage (from : nat) (event : WorkerResponse) : M unit :=
  c <- this ;;
  match worker c with
  | Some wk =>
      if Nat.eqb (worker_id wk) from then
        handleMessage event ;;
        forEach (listeners wk) (fun l =>
          c' <- this ;;
          if registered l c' then runListener l event else skip)
      else skip
  | None => skip
  end.

Definition dispatchError (from : nat) (msg : string) : M unit :=
  c <- this ;;
  match worker c with
  | Some wk => if Nat.eqb (worker_id wk) from then handleError msg else skip
  | None => skip
  end.

Definition awaitsRead (p : PromiseId) (c : Call) : bool :=
  Nat.eqb (call_promise c) p &&
  match call_stage c with AwaitRead => true | AwaitLoad _ => false end.

Definition unsuspend (p : PromiseId) : M unit :=
  fun w => (tt, set_suspended (filter (fun c => negb (awaitsRead p c)) (suspended w)) w).

(** [readFileAsArrayBuffer] (for merge, the [Promise.all] of the reads)
    settles: the body of the command goes on to the promise executor.  A
    result that does not fit a waiting command is no event of this client
    and is ignored. *)
Definition fileRead (p : PromiseId) (result : option (list bytes)) : M unit :=
  fun w =>
    match find (awaitsRead p) (suspended w) with
    | None => (tt, w)
    | Some c =>
        match result with
        | None => (unsuspend p ;; reject p "Failed to read file") w
        | Some buffers =>
            if Nat.eqb (List.length buffers) (readsOf (call_request c))
            then (unsuspend p ;; submit p (call_request c) buffers) w
            else (tt, w)
        end
    end.

(** Whether a timer has neither fired nor been cleared. *)
Definition armed (t : Timer) (w : World) : bool :=
  existsb (fun x => Nat.eqb (timer_id x) (timer_id t)) (timers w).

(** Time passes: the timers that are due fire, in the order they were
    armed; a timer that fires is no longer armed. *)
Definition elapse (ms : N) : M unit :=
  (fun w => (tt, set_now (now w + ms)%N w)) ;;
  (fun w =>
     forEach (timers w) (fun t w' =>
       if (deadline t <=? now w')%N && armed t w'
       then (window_clearTimeout (timer_id t) ;; onTimeout (timer_callback t)) w'
       else (tt, w')) w).

(** Resuming a suspended command body. *)
Definition wake (c : Call) : M unit :=
  match call_stage c with
  | AwaitRead => suspend c
  | AwaitLoad lp =>
      fun w =>
        match promiseState lp w with
        | None => suspend c w
        | Some (Resolved _) => prepare (call_promise c) (call_request c) (call_callback c) w
        | Some (Rejected msg) => reject (call_promise c) msg w
        end
  end.

Definition microtasks : M unit :=
  cs <- takeSuspended ;;
  forEach cs wake.

Definition task (ev : Event) : M unit :=
  match ev with
  | Load callback => _ <- load callback ;; skip
  | Trim file s callback => _ <- trim file s callback ;; skip
  | ExtractFrames file s callback => _ <- extractFrames file s callback ;; skip
  | Convert file s callback => _ <- convert file s callback ;; skip
  | Merge cs s callback => _ <- merge cs s callback ;; skip
  | Terminate => terminate
  | Message from event => dispatchMessage from event
  | Crash from msg => dispatchError from msg
  | FileRead p result => fileRead p result
  | Elapse ms => elapse ms
  end.

Definition step (ev : Event) (w : World) : World :=
  snd ((task ev ;; microtasks) w).

Definition run (evs : list Event) (w : World) : World :=
  fold_left (fun w ev => step ev w) evs w.

(** [export const ffmpegClient = new FFmpegClient()] in a browser that has
    [SharedArrayBuffer] or not. *)
Definition newWorld (sab : bool) : World :=
  snd (initWorker
    {| client := {| worker := None; isLoaded := false; loadPromise := None;
                    currentCallback := None; logs := []; timeoutId := None |};
       hasSharedArrayBuffer := sab; now := 0; fresh := 0; timers := [];
       urls := []; settled := []; posted := []; notified := []; suspended := [] |}).

(** ** src/workers/ffmpeg.worker.ts: the command builders

    The engine ([@ffmpeg/ffmpeg]) is opaque: each operation on it succeeds
    or throws, possibly depending on everything done to it before.  The
    worker is embedded in a state and exception monad whose state records
    the operations attempted on the engine and the messages sent to the
    page. *)

Module Worker.

Inductive EngineOp :=
| writeFile (name : string) (content : bytes)
| exec (args : list string)
| readFile (name : string)
| deleteFile (name : string).

Inductive Result (A : Type) :=
| Ok (a : A)
| Throw (msg : string).
Arguments Ok {A} a.
Arguments Throw {A} msg.

(** An engine answers an operation, given the operations before it. *)
Definition Engine := list EngineOp -> EngineOp -> Result bytes.

Record State := {
  history : list EngineOp;             (* operations attempted, oldest first *)
  sent : list WorkerResponse;          (* self.postMessage calls *)
  normalizedFiles : list string        (* the local array of executeMerge *)
}.

Definition start : State := {| history := []; sent := []; normalizedFiles := [] |}.

Definition W (A : Type) : Type := State -> Result A * State.

Definition pure {A} (a : A) : W A := fun st => (Ok a, st).

Definition throw {A} (msg : string) : W A := fun st => (Throw msg, st).

Definition andThen {A B} (m : W A) (k : A -> W B) : W B :=
  fun st =>
    match m st with
    | (Ok a, st') => k a st'
    | (Throw msg, st') => (Throw msg, st')
    end.

Definition tryCatch {A} (m : W A) (handler : string -> W A) : W A :=
  fun st =>
    match m st with
    | (Ok a, st') => (Ok a, st')
    | (Throw msg, st') => handler msg st'
    end.

Declare Scope worker_scope.
Delimit Scope worker_scope with worker.
Notation "x <- m ;; k" := (andThen m (fun x => k))
  (at level 61, m at next level, right associativity) : worker_scope.
Notation "m ;; k" := (andThen m (fun _ => k))
  (at level 61, right associativity) : worker_scope.
Local Open Scope worker_scope.

Definition call (ffmpeg : Engine) (op : EngineOp) : W bytes :=
  fun st =>
    (ffmpeg (history st) op,
     {| history := history st ++ [op]; sent := sent st;
        normalizedFiles := normalizedFiles st |}).

Definition sendMessage (r : WorkerResponse) : W unit :=
  fun st =>
    (Ok tt, {| history := history st; sent := sent st ++ [r];
               normalizedFiles := normalizedFiles st |}).

Definition pushNormalized (name : string) : W unit :=
  fun st =>
    (Ok tt, {| history := history st; sent := sent st;
               normalizedFiles := normalizedFiles st ++ [name] |}).

Definition getNormalized : W (list string) := fun st => (Ok (normalizedFiles st), st).

Fixpoint forEachW {A} (l : list A) (f : A -> W unit) : W unit :=
  match l with
  | [] => pure tt
  | a :: rest => f a ;; forEachW rest f
  end.

Definition logMessage (m : string) : WorkerResponse :=
  {| r_type := rLog;
     r_payload := Some {| p_progress := None; p_message := Some m; p_data := None;
                          p_frames := None; p_error := None; p_step := None |} |}.

Definition stepMessage (pr : Z) (label : string) : WorkerResponse :=
  {| r_type := rProgress;
     r_payload := Some {| p_progress := Some pr; p_message := Some label; p_data := None;
                          p_frames := None; p_error := None; p_step := Some label |} |}.

Definition NOT_LOADED : string := "FFmpeg not loaded".

(** A [File] in the worker: its bytes if the FileReader succeeds. *)
Definition writeInputFile (ffmpeg : option Engine) (inputData : option bytes)
           (inputFile : option (option bytes)) (inputName : string) : W unit :=
  match ffmpeg with
  | None => throw NOT_LOADED
  | Some engine =>
      content <- match inputData, inputFile with
                 | Some d, _ => pure d
                 | None, Some (Some d) => pure d
                 | None, Some None => throw "FileReader error"
                 | None, None => throw "No input data or file provided"
                 end ;;
      _ <- call engine (writeFile inputName content) ;;
      pure tt
  end.

(** *** executeConvert *)

Definition quality_key (q : Quality) : string :=
  match q with
  | low => "low"
  | medium => "medium"
  | high => "high"
  end.

Definition crfMap : list (string * nat) :=
  [("low", 40); ("medium", 32); ("high", 24)].

Fixpoint lookup (key : string) (table : list (string * nat)) : option nat :=
  match table with
  | [] => None
  | (k, v) :: rest => if String.eqb k key then Some v else lookup key rest
  end.

(** [crfMap[settings.quality] || 32]: a missing or zero entry gives 32. *)
Definition crfOf (s : ConvertSettings) : nat :=
  match lookup (quality_key (quality s)) crfMap with
  | Some 0 | None => 32
  | Some v => v
  end.

Definition convertArgs (s : ConvertSettings) (inputName outputName : string)
  : list string :=
  ["-i"; inputName;
   "-c:v"; "libvpx-vp9";
   "-b:v"; "0";
   "-crf"; Js.of_nat (crfOf s);
   "-c:a"; "libopus";
   "-deadline"; "realtime";
   "-cpu-used"; "4";
   outputName].

Definition executeConvert (ffmpeg : option Engine) (inputData : option bytes)
           (inputFile : option (option bytes)) (s : ConvertSettings) : W bytes :=
  match ffmpeg with
  | None => throw NOT_LOADED
  | Some engine =>
      let inputName := "input.mp4" in
      let outputName := "output.webm" in
      writeInputFile ffmpeg inputData inputFile inputName ;;
      _ <- call engine (exec (convertArgs s inputName outputName)) ;;
      d <- call engine (readFile outputName) ;;
      _ <- call engine (deleteFile inputName) ;;
      _ <- call engine (deleteFile outputName) ;;
      pure d
  end.

(** *** executeMerge *)

Definition normalizeArgs (startStr endStr inputName normalizedName : string)
  : list string :=
  ["-ss"; startStr;
   "-to"; endStr;
   "-i"; inputName;
   "-c:v"; "libx264";
   "-preset"; "veryfast";
   "-crf"; "23";
   "-c:a"; "aac";
   "-movflags"; "+faststart";
   normalizedName].

(** [Math.round((i / clips.length) * 50)], computed exactly. *)
Definition normalizeProgress (i total : nat) : Z :=
  Qfloor ((Z.of_nat i # Pos.of_nat total) * 50 + (1 # 2))%Q.

(** One turn of the loop [for (let i = 0; i < clips.length; i++)]. *)
Definition normalizeClip (engine : Engine) (total i : nat) (clip : ClipData) : W unit :=
  let inputName := ("input_" ++ Js.of_nat i ++ ".mp4")%string in
  let normalizedName :=
    ("clip_" ++ Js.padStart0 3 (Js.of_nat (i + 1)) ++ ".mp4")%string in
  let label :=
    ("Normalizing clip " ++ Js.of_nat (i + 1) ++ "/" ++ Js.of_nat total)%string in
  sendMessage (logMessage (label ++ "...")%string) ;;
  sendMessage (stepMessage (normalizeProgress i total) label) ;;
  _ <- call engine (writeFile inputName (cd_inputData clip)) ;;
  let startStr := Js.toFixed2 (cd_start clip) in
  let endStr := Js.toFixed2 (cd_end clip) in
  _ <- call engine (exec (normalizeArgs startStr endStr inputName normalizedName)) ;;
  pushNormalized normalizedName ;;
  _ <- call engine (deleteFile inputName) ;;
  pure tt.

Fixpoint normalizeFrom (engine : Engine) (total i : nat) (cs : list ClipData) : W unit :=
  match cs with
  | [] => pure tt
  | clip :: rest => normalizeClip engine total i clip ;; normalizeFrom engine total (S i) rest
  end.

(** The arguments of the first concatenation attempt. *)
Definition firstMergeArgs (s : MergeSettings) (outputName : string) : list string :=
  match format s with
  | mp4 =>
      ["-f"; "concat"; "-safe"; "0"; "-i"; "concat_list.txt";
       "-c"; "copy";
       outputName]
  | webm =>
      (* For WebM, we need to re-encode *)
      ["-f"; "concat"; "-safe"; "0"; "-i"; "concat_list.txt";
       "-c:v"; "libvpx-vp9"; "-b:v"; "0"; "-crf"; "32"; "-c:a"; "libopus";
       outputName]
  end.

(** The arguments after the [catch]: replaced for mp4 only. *)
Definition fallbackMergeArgs (s : MergeSettings) (mergeArgs : list string)
           (outputName : string) : list string :=
  match format s with
  | mp4 =>
      ["-f"; "concat"; "-safe"; "0"; "-i"; "concat_list.txt";
       "-c:v"; "libx264"; "-preset"; "veryfast"; "-crf"; "23"; "-c:a"; "aac";
       outputName]
  | webm => mergeArgs
  end.

(** [try { await ffmpeg.deleteFile(file) } catch {}] for every file. *)
Definition cleanupNormalized (engine : Engine) : W unit :=
  files <- getNormalized ;;
  forEachW files (fun file =>
    tryCatch (_ <- call engine (deleteFile file) ;; pure tt) (fun _ => pure tt)).

Definition TOO_FEW_CLIPS : string := "Need at least 2 clips to merge".

Definition executeMerge (ffmpeg : option Engine) (cs : list ClipData)
           (s : MergeSettings) : W bytes :=
  match ffmpeg with
  | None => throw NOT_LOADED
  | Some engine =>
      if Nat.ltb (List.length cs) 2 then throw TOO_FEW_CLIPS else
      tryCatch
        ((* Step 1: normalize each clip *)
         normalizeFrom engine (List.length cs) 0 cs ;;
         (* Step 2: create the concat list file *)
         sendMessage (logMessage "Creating concat list...") ;;
         sendMessage (stepMessage 50 "Preparing merge...") ;;
         files <- getNormalized ;;
         let concatList :=
           Js.join (String "010" "")
                   (map (fun f => ("file '" ++ f ++ "'")%string) files) in
         _ <- call engine (writeFile "concat_list.txt" (list_byte_of_string concatList)) ;;
         (* Step 3: merge clips *)
         sendMessage (logMessage "Merging clips...") ;;
         sendMessage (stepMessage 60 "Merging clips...") ;;
         let outputName :=
           match format s with webm => "merged.webm" | mp4 => "merged.mp4" end in
         let mergeArgs := firstMergeArgs s outputName in
         tryCatch
           (_ <- call engine (exec mergeArgs) ;; pure tt)
           (fun _ =>
              sendMessage (logMessage "Copy failed, re-encoding...") ;;
              _ <- call engine (exec (fallbackMergeArgs s mergeArgs outputName)) ;;
              pure tt) ;;
         sendMessage (stepMessage 95 "Finalizing...") ;;
         d <- call engine (readFile outputName) ;;
         cleanupNormalized engine ;;
         tryCatch
           (_ <- call engine (deleteFile "concat_list.txt") ;;
            _ <- call engine (deleteFile outputName) ;;
            pure tt)
           (fun _ => pure tt) ;;
         pure d)
        (fun msg => cleanupNormalized engine ;; throw msg)
  end.

End Worker.

(** ** Comparisons of numbers *)

Module Num.

Definition lt (a b : Q) : bool :=
  match Qcompare a b with
  | Lt => true
  | _ => false
  end.

Definition gt (a b : Q) : bool := lt b a.

Definition le (a b : Q) : bool := negb (lt b a).

Definition ge (a b : Q) : bool := negb (lt a b).

End Num.

(** ** src/pages/Index.tsx: the project and the list of exports

    The page keeps its state in React state cells.  The functions below are
    the updaters its handlers pass to [setProject] and [setExports]; an
    updater that hands URLs to [revokeObjectURLDeferred] returns them beside
    the new state.  A number is a rational: the sums and differences are the
    exact ones. *)

Module Index.

Record Project := { clips : list Clip; activeClipId : option string }.

Definition initialProject : Project := {| clips := []; activeClipId := None |}.

(** [a === id] for [a : string | null]. *)
Definition same_id (a : option string) (id : string) : bool :=
  match a with
  | Some s => String.eqb s id
  | None => false
  end.

Definition isTimelineMode (project : Project) : bool :=
  Nat.ltb 0 (List.length (clips project)).

(** [project.clips.find(c => c.id === project.activeClipId) || null] *)
Definition activeClip (project : Project) : option Clip :=
  find (fun c => same_id (activeClipId project) (clip_id c)) (clips project).

Definition totalDuration (project : Project) : Q :=
  fold_left (fun acc clip => (acc + (clip_end clip - clip_start clip))%Q)
            (clips project) 0%Q.

(** The clip built in [video.onloadedmetadata] of [handleAddClip]. *)
Definition newClip (uuid : string) (file : File) (name : string) (fileSize : nat)
           (type objectUrl : string) (duration : Q) : Clip :=
  {| clip_id := uuid; clip_name := name; clip_file := file; clip_size := fileSize;
     clip_duration := duration; clip_objectUrl := objectUrl; clip_type := type;
     clip_start := 0%Q; clip_end := duration |}.

(** The updater of [handleAddClip]. *)
Definition handleAddClip (clip : Clip) (prev : Project) : Project :=
  {| clips := clips prev ++ [clip];
     activeClipId := Some (Js.or_else (activeClipId prev) (clip_id clip)) |}.

(** [if (x?.objectUrl) revokeObjectURLDeferred(x.objectUrl)] *)
Definition revoking (url : string) : list string :=
  match url with
  | EmptyString => []
  | _ => [url]
  end.

Definition handleRemoveClip (id : string) (prev : Project) : Project * list string :=
  let clip := find (fun c => String.eqb (clip_id c) id) (clips prev) in
  let revoked := match clip with
                 | Some c => revoking (clip_objectUrl c)
                 | None => []
                 end in
  let newClips := filter (fun c => negb (String.eqb (clip_id c) id)) (clips prev) in
  ({| clips := newClips;
      activeClipId :=
        if same_id (activeClipId prev) id
        then match newClips with
             | first :: _ => Some (clip_id first)
             | [] => None
             end
        else activeClipId prev |},
   revoked).

Inductive Direction := up | down.

(** [arr.findIndex(f)], with [None] for -1. *)
Fixpoint findIndex {A} (f : A -> bool) (l : list A) : option nat :=
  match l with
  | [] => None
  | a :: rest => if f a then Some 0 else option_map S (findIndex f rest)
  end.

(** [arr[i] = x] for an index inside the array (an index outside would
    extend the array; the only caller guards against it). *)
Fixpoint assignAt {A} (i : nat) (x : A) (l : list A) : list A :=
  match l, i with
  | [], _ => []
  | _ :: rest, O => x :: rest
  | a :: rest, S j => a :: assignAt j x rest
  end.

Definition handleMoveClip (id : string) (direction : Direction) (prev : Project)
  : Project :=
  match findIndex (fun c => String.eqb (clip_id c) id) (clips prev) with
  | None => prev
  | Some index =>
      let newIndex := match direction with
                      | up => (Z.of_nat index - 1)%Z
                      | down => (Z.of_nat index + 1)%Z
                      end in
      if (newIndex <? 0)%Z || (newIndex >=? Z.of_nat (List.length (clips prev)))%Z
      then prev
      else
        let newClips := clips prev in
        (* [a, b] = [b, a]: the right-hand side is read first *)
        match nth_error newClips (Z.to_nat newIndex), nth_error newClips index with
        | Some atNew, Some atIndex =>
            {| clips := assignAt (Z.to_nat newIndex) atIndex
                          (assignAt index atNew newClips);
               activeClipId := activeClipId prev |}
        | _, _ => prev
        end
  end.

Definition handleSelectClip (id : string) (prev : Project) : Project :=
  {| clips := clips prev; activeClipId := Some id |}.

Definition handleUpdateClipTrim (id : string) (start stop : Q) (prev : Project)
  : Project :=
  {| clips := map (fun clip =>
                     if String.eqb (clip_id clip) id
                     then {| clip_id := clip_id clip; clip_name := clip_name clip;
                             clip_file := clip_file clip; clip_size := clip_size clip;
                             clip_duration := clip_duration clip;
                             clip_objectUrl := clip_objectUrl clip;
                             clip_type := clip_type clip;
                             clip_start := start; clip_end := stop |}
                     else clip)
                  (clips prev);
     activeClipId := activeClipId prev |}.

(** [setExports((prev) => [result, ...prev])], after a command resolved. *)
Definition addExport (result : ExportResult) (prev : list ExportResult)
  : list ExportResult :=
  result :: prev.

Definition handleClearExport (id : string) (prev : list ExportResult)
  : list ExportResult * list string :=
  let result := find (fun e => String.eqb (result_id e) id) prev in
  let revoked :=
    match result with
    | Some r =>
        revoking (objectUrl r) ++
        match frames r with
        | Some fs => map frame_objectUrl fs
        | None => []
        end
    | None => []
    end in
  (filter (fun e => negb (String.eqb (result_id e) id)) prev, revoked).

End Index.

(** ** src/components/Timeline.tsx *)

Module Timeline.

(** A quotient is no finite number when the divisor is zero. *)
Definition percentOf (part total : Q) : option Q :=
  if Qeq_bool total 0 then None else Some (part / total * 100)%Q.

Record Position := {
  clip : Clip;
  startPercent : option Q;
  widthPercent : option Q;
  startTime : Q;
  duration : Q;
  isActive : bool
}.

(** The callback of [clips.map], with the running [currentTime]. *)
Fixpoint positionsFrom (currentTime : Q) (activeClipId : option string)
         (totalDuration : Q) (clips : list Clip) : list Position :=
  match clips with
  | [] => []
  | c :: rest =>
      let clipDuration := (clip_end c - clip_start c)%Q in
      {| clip := c;
         startPercent := percentOf currentTime totalDuration;
         widthPercent := percentOf clipDuration totalDuration;
         startTime := currentTime;
         duration := clipDuration;
         isActive := Index.same_id activeClipId (clip_id c) |}
      :: positionsFrom (currentTime + clipDuration)%Q activeClipId totalDuration rest
  end.

Definition clipPositions (clips : list Clip) (activeClipId : option string)
           (totalDuration : Q) : list Position :=
  if Nat.eqb (List.length clips) 0 then []
  else positionsFrom 0%Q activeClipId totalDuration clips.

End Timeline.

(** ** src/components/TrimControls.tsx *)

Module TrimControls.

Record State := { startTime : Q; endTime : Q; mode : TrimMode }.

(** [useState(0)], [useState(video.duration)], [useState('fast')] *)
Definition initialState (videoDuration : Q) : State :=
  {| startTime := 0%Q; endTime := videoDuration; mode := fast |}.

Definition setStartTime (v : Q) (s : State) : State :=
  {| startTime := v; endTime := endTime s; mode := mode s |}.

Definition setEndTime (v : Q) (s : State) : State :=
  {| startTime := startTime s; endTime := v; mode := mode s |}.

Definition setMode (m : TrimMode) (s : State) : State :=
  {| startTime := startTime s; endTime := endTime s; mode := m |}.

Definition handleStartTimeChange (newStart : Q) (s : State) : State :=
  if Num.lt newStart (endTime s) then setStartTime newStart s else s.

Definition handleEndTimeChange (newEnd : Q) (s : State) : State :=
  if Num.gt newEnd (startTime s) then setEndTime newEnd s else s.

Definition setStartToCurrent (currentTime : Q) (s : State) : State :=
  if Num.lt currentTime (endTime s) then setStartTime currentTime s else s.

Definition setEndToCurrent (currentTime : Q) (s : State) : State :=
  if Num.gt currentTime (startTime s) then setEndTime currentTime s else s.

(** [onCheckedChange] of the mode switch. *)
Definition onCheckedChange (checked : bool) (s : State) : State :=
  setMode (if checked then accurate else fast) s.

(** [handleTrim]: what is passed to [onTrim], if anything. *)
Definition handleTrim (s : State) : option TrimSettings :=
  if Num.ge (startTime s) (endTime s) then None
  else Some (Build_TrimSettings (startTime s) (endTime s) (mode s)).

(** [isValid], which enables the button. *)
Definition isValid (s : State) : bool :=
  Num.lt (startTime s) (endTime s) && Num.gt (endTime s - startTime s)%Q 0%Q.

End TrimControls.

(** ** src/components/ConvertControls.tsx *)

Module ConvertControls.

Record Info := { label : string; description : string; crf : nat }.

Definition QUALITY_LABELS : list (string * Info) :=
  [("low", {| label := "Low"; description := "Smaller file, lower quality"; crf := 40 |});
   ("medium", {| label := "Medium"; description := "Balanced size and quality"; crf := 32 |});
   ("high", {| label := "High"; description := "Larger file, better quality"; crf := 24 |})].

Fixpoint lookup (key : string) (table : list (string * Info)) : option Info :=
  match table with
  | [] => None
  | (k, v) :: rest => if String.eqb k key then Some v else lookup key rest
  end.

Definition qualityToSlider (q : string) : Q :=
  if String.eqb q "low" then 0%Q
  else if String.eqb q "medium" then 50%Q
  else if String.eqb q "high" then 100%Q
  else 50%Q.

Definition sliderToQuality (value : Q) : Quality :=
  if Num.le value 25%Q then low
  else if Num.le value 75%Q then medium
  else high.

(** [useState('medium')] *)
Definition initialQuality : Quality := medium.

Definition handleSliderChange (value : Q) (q : Quality) : Quality :=
  sliderToQuality value.

(** [handleConvert]: what is passed to [onConvert]. *)
Definition handleConvert (q : Quality) : ConvertSettings := {| quality := q |}.

End ConvertControls.

(** ** src/workers/ffmpeg.worker.ts: the message handler

    The worker thread has two variables, [ffmpeg] and [isLoaded], and an
    environment it cannot see into: the engine, [fetch] and
    [URL.createObjectURL].  The environment answers each request given all
    the requests made before.  A request may fail by throwing any value;
    the operations on files are those of [Worker], which throw [Error]
    objects.  One message is handled to its end before the next arrives;
    the log and progress events the engine raises while it works (which
    [logHandler] and [progressHandler] forward as 'log' and 'progress'
    messages) are not part of the model. *)

Module WorkerThread.

Import Worker.
Local Open Scope worker_scope.

(** *** executeTrim *)

Definition trimArgs (s : TrimSettings) (inputName outputName : string) : list string :=
  let startStr := Js.toFixed2 (startTime s) in
  let endStr := Js.toFixed2 (endTime s) in
  match mode s with
  | fast =>
      (* Fast cut - stream copy *)
      ["-ss"; startStr; "-to"; endStr; "-i"; inputName; "-c"; "copy"; outputName]
  | accurate =>
      (* Accurate cut - re-encode *)
      ["-ss"; startStr; "-to"; endStr; "-i"; inputName;
       "-c:v"; "libx264"; "-c:a"; "aac"; "-preset"; "fast"; outputName]
  end.

Definition executeTrim (ffmpeg : option Engine) (inputData : option bytes)
           (inputFile : option (option bytes)) (s : TrimSettings) : W bytes :=
  match ffmpeg with
  | None => throw NOT_LOADED
  | Some engine =>
      let inputName := "input.mp4" in
      let outputName := "output.mp4" in
      writeInputFile ffmpeg inputData inputFile inputName ;;
      _ <- call engine (exec (trimArgs s inputName outputName)) ;;
      d <- call engine (readFile outputName) ;;
      _ <- call engine (deleteFile inputName) ;;
      _ <- call engine (deleteFile outputName) ;;
      pure d
  end.

(** *** The thread and its environment *)

(** A value that was thrown, as the [catch] clauses look at it. *)
Inductive Thrown :=
| ErrorObject (message : string)      (* error instanceof Error *)
| StringValue (s : string)            (* typeof error === 'string' *)
| ObjectValue (json str : string)     (* another object: JSON.stringify and toString *)
| OtherValue (str : string).          (* anything else, with its String(e) *)

Inductive Try (A : Type) :=
| Done (a : A)
| Raised (e : Thrown).
Arguments Done {A} a.
Arguments Raised {A} e.

Record FSNode := { node_name : string; isDir : bool }.

Inductive DirOp :=
| createDir (path : string)
| listDir (path : string)
| deleteDir (path : string).

(** What [fetch] resolves with; [blob] is the size of the body, if reading
    it succeeds. *)
Record Response := {
  ok : bool;
  status : nat;
  statusText : string;
  blob : Try nat
}.

(** The requests of the thread to its environment. *)
Inductive Op :=
| newFFmpeg                                   (* new FFmpeg() *)
| loadCore (coreURL wasmURL : string)         (* ffmpeg.load({ coreURL, wasmURL }) *)
| onFile (op : EngineOp)
| onDir (op : DirOp)
| fetched (url : string)                      (* fetch(url) *)
| createdObjectURL (blobSize : nat).          (* URL.createObjectURL(blob) *)

Record Env := {
  hasSharedArrayBuffer : bool;
  fileAnswer : list Op -> EngineOp -> Result bytes;
  dirAnswer : list Op -> DirOp -> Try (list FSNode);
  loadAnswer : list Op -> Try unit;
  fetchAnswer : list Op -> string -> Try Response;
  objectURL : list Op -> string;
  numberToString : Q -> string                (* `${n}` for a number *)
}.

Record Thread := {
  ffmpeg : bool;                              (* ffmpeg !== null *)
  isLoaded : bool;
  ops : list Op;                              (* requests made, oldest first *)
  outbox : list WorkerResponse                (* self.postMessage calls *)
}.

Definition initial : Thread :=
  {| ffmpeg := false; isLoaded := false; ops := []; outbox := [] |}.

Definition T (A : Type) : Type := Thread -> Try A * Thread.

Definition pureT {A} (a : A) : T A := fun st => (Done a, st).

Definition throwT {A} (e : Thrown) : T A := fun st => (Raised e, st).

Definition bindT {A B} (m : T A) (k : A -> T B) : T B :=
  fun st =>
    match m st with
    | (Done a, st') => k a st'
    | (Raised e, st') => (Raised e, st')
    end.

Definition catchT {A} (m : T A) (handler : Thrown -> T A) : T A :=
  fun st =>
    match m st with
    | (Done a, st') => (Done a, st')
    | (Raised e, st') => handler e st'
    end.

Declare Scope thread_scope.
Delimit Scope thread_scope with thread.
Notation "x <-- m ;; k" := (bindT m (fun x => k))
  (at level 61, m at next level, right associativity) : thread_scope.
Notation "m ;;; k" := (bindT m (fun _ => k))
  (at level 61, right associativity) : thread_scope.
Local Open Scope thread_scope.

Definition getT : T Thread := fun st => (Done st, st).

Definition request (op : Op) : T unit :=
  fun st => (Done tt, {| ffmpeg := ffmpeg st; isLoaded := isLoaded st;
                         ops := ops st ++ [op]; outbox := outbox st |}).

Definition setFfmpeg (b : bool) : T unit :=
  fun st => (Done tt, {| ffmpeg := b; isLoaded := isLoaded st;
                         ops := ops st; outbox := outbox st |}).

Definition setIsLoaded (b : bool) : T unit :=
  fun st => (Done tt, {| ffmpeg := ffmpeg st; isLoaded := b;
                         ops := ops st; outbox := outbox st |}).

Definition sendMessageT (r : WorkerResponse) : T unit :=
  fun st => (Done tt, {| ffmpeg := ffmpeg st; isLoaded := isLoaded st;
                         ops := ops st; outbox := outbox st ++ [r] |}).

(** The answer of the environment to a request, given the requests before. *)
Definition answered {A} (op : Op) (answer : list Op -> Try A) : T A :=
  fun st => (answer (ops st),
             {| ffmpeg := ffmpeg st; isLoaded := isLoaded st;
                ops := ops st ++ [op]; outbox := outbox st |}).

Definition ofResult {A} (r : Result A) : Try A :=
  match r with
  | Ok a => Done a
  | Throw msg => Raised (ErrorObject msg)
  end.

Definition fileCall (env : Env) (op : EngineOp) : T bytes :=
  answered (onFile op) (fun h => ofResult (fileAnswer env h op)).

Definition dirCall (env : Env) (op : DirOp) : T (list FSNode) :=
  answered (onDir op) (fun h => dirAnswer env h op).

(** The engine as the command builders of [Worker] see it from a thread
    that has made the requests [h0]. *)
Definition engineAfter (env : Env) (h0 : list Op) : Engine :=
  fun h op => fileAnswer env (h0 ++ map onFile h) op.

(** Running a command builder of [Worker] in the thread. *)
Definition liftW {A} (env : Env) (m : option Engine -> W A) : T A :=
  fun st =>
    let engine := if ffmpeg st then Some (engineAfter env (ops st)) else None in
    let r := m engine start in
    (ofResult (fst r),
     {| ffmpeg := ffmpeg st; isLoaded := isLoaded st;
        ops := ops st ++ map onFile (history (snd r));
        outbox := outbox st ++ sent (snd r) |}).

(** *** executeFrames *)

(** [s.endsWith(suffix)] *)
Definition endsWith (s suffix : string) : bool :=
  let n := String.length s in
  let k := String.length suffix in
  Nat.leb k n && String.eqb (substring (n - k) k s) suffix.

Definition framesArgs (env : Env) (s : FrameSettings) (inputName : string) : list string :=
  ["-i"; inputName; "-vf"; ("fps=" ++ numberToString env (fps s))%string;
   "frames/out_%03d.jpg"].

(** The loop [for (const f of files)], with the array [frames]. *)
Fixpoint readFrames (env : Env) (files : list FSNode) (frames : list (string * bytes))
  : T (list (string * bytes)) :=
  match files with
  | [] => pureT frames
  | f :: rest =>
      if endsWith (node_name f) ".jpg" then
        frameData <-- fileCall env (readFile ("frames/" ++ node_name f)%string) ;;
        _ <-- fileCall env (deleteFile ("frames/" ++ node_name f)%string) ;;
        readFrames env rest (frames ++ [(node_name f, frameData)])
      else readFrames env rest frames
  end.

Definition executeFrames (env : Env) (inputData : option bytes)
           (inputFile : option (option bytes)) (s : FrameSettings)
  : T (list (string * bytes)) :=
  st <-- getT ;;
  if negb (ffmpeg st) then throwT (ErrorObject NOT_LOADED) else
  let inputName := "input.mp4" in
  liftW env (fun e => writeInputFile e inputData inputFile inputName) ;;;
  _ <-- dirCall env (createDir "frames") ;;
  _ <-- fileCall env (exec (framesArgs env s inputName)) ;;
  files <-- dirCall env (listDir "frames") ;;
  frames <-- readFrames env files [] ;;
  _ <-- dirCall env (deleteDir "frames") ;;
  _ <-- fileCall env (deleteFile inputName) ;;
  pureT frames.

(** *** loadFFmpeg *)

Definition CORE_BASE : string := "/ffmpeg".

Definition SAB_MISSING : string :=
  "SharedArrayBuffer is not available. " ++
  "This is required for FFmpeg.wasm. " ++
  "Make sure the server sends Cross-Origin-Opener-Policy: same-origin and " ++
  "Cross-Origin-Embedder-Policy: require-corp headers.".

Definition checkSharedArrayBuffer (env : Env) : T unit :=
  if hasSharedArrayBuffer env then pureT tt else throwT (ErrorObject SAB_MISSING).

(** [e instanceof Error ? e.message : String(e)] *)
Definition messageOrString (e : Thrown) : string :=
  match e with
  | ErrorObject m => m
  | StringValue s => s
  | ObjectValue _ str => str
  | OtherValue str => str
  end.

Definition fetchToBlobURL (env : Env) (url : string) : T string :=
  sendMessageT (logMessage ("Fetching " ++ url)%string) ;;;
  catchT
    (response <-- answered (fetched url) (fun h => fetchAnswer env h url) ;;
     if negb (ok response)
     then throwT (ErrorObject ("Fetch failed: " ++ Js.of_nat (status response) ++ " " ++
                               statusText response)%string)
     else
       blobSize <-- (fun st => (blob response, st)) ;;
       sendMessageT (logMessage ("Fetched " ++ url ++ " (" ++ Js.of_nat blobSize ++
                                 " bytes)")%string) ;;;
       answered (createdObjectURL blobSize) (fun h => Done (objectURL env h)))
    (fun e =>
       throwT (ErrorObject ("Network error fetching " ++ url ++ ": " ++
                            messageOrString e)%string)).

Definition loadedMessage : WorkerResponse := {| r_type := rLoaded; r_payload := None |}.

Definition errorResponse (msg : string) : WorkerResponse :=
  {| r_type := rError;
     r_payload := Some {| p_progress := None; p_message := None; p_data := None;
                          p_frames := None; p_error := Some msg; p_step := None |} |}.

(** The [errorMessage] of the [catch] clause of [loadFFmpeg]. *)
Definition loadErrorMessage (error : Thrown) : string :=
  match error with
  | ErrorObject m => m
  | StringValue s => s
  | ObjectValue json str => if String.eqb json "{}" then str else json
  | OtherValue _ => "Unknown error"
  end.

Definition loadFFmpeg (env : Env) : T unit :=
  st <-- getT ;;
  if isLoaded st && ffmpeg st then pureT tt else
  catchT
    (checkSharedArrayBuffer env ;;;
     request newFFmpeg ;;;
     setFfmpeg true ;;;
     sendMessageT (logMessage "Loading FFmpeg core...") ;;;
     sendMessageT (logMessage "Fetching FFmpeg core...") ;;;
     coreURL <-- fetchToBlobURL env (CORE_BASE ++ "/ffmpeg-core.js")%string ;;
     sendMessageT (logMessage "Fetching FFmpeg wasm...") ;;;
     wasmURL <-- fetchToBlobURL env (CORE_BASE ++ "/ffmpeg-core.wasm")%string ;;
     sendMessageT (logMessage "Initializing FFmpeg...") ;;;
     answered (loadCore coreURL wasmURL) (loadAnswer env) ;;;
     setIsLoaded true ;;;
     sendMessageT (logMessage "FFmpeg loaded successfully") ;;;
     sendMessageT loadedMessage)
    (fun error =>
       let errorMessage := loadErrorMessage error in
       sendMessageT (logMessage ("FFmpeg load error details: " ++ errorMessage)%string) ;;;
       sendMessageT (errorResponse ("Failed to load FFmpeg: " ++ errorMessage)%string)).

(** *** self.onmessage *)

Inductive MessageType := mtLoad | mtExecute | mtCancel.

(** The payload of an 'execute' message, as the type assertions of the
    handler take it: [settings as TrimSettings] for 'trim', and so on. *)
Inductive Command :=
| trimCommand (inputData : option bytes) (inputFile : option (option bytes))
              (settings : TrimSettings)
| framesCommand (inputData : option bytes) (inputFile : option (option bytes))
                (settings : FrameSettings)
| convertCommand (inputData : option bytes) (inputFile : option (option bytes))
                 (settings : ConvertSettings)
| mergeCommand (clips : option (list ClipData)) (settings : MergeSettings).

Definition completeData (d : bytes) : WorkerResponse :=
  {| r_type := rComplete;
     r_payload := Some {| p_progress := None; p_message := None; p_data := Some d;
                          p_frames := None; p_error := None; p_step := None |} |}.

Definition completeFrames (frames : list (string * bytes)) : WorkerResponse :=
  {| r_type := rComplete;
     r_payload := Some {| p_progress := None; p_message := None; p_data := None;
                          p_frames := Some frames; p_error := None; p_step := None |} |}.

Definition onmessage (env : Env) (type : MessageType) (payload : option Command) : T unit :=
  catchT
    (match type with
     | mtLoad => loadFFmpeg env
     | mtExecute =>
         match payload with
         | None => throwT (ErrorObject "No payload provided")
         | Some (trimCommand inputData inputFile settings) =>
             trimData <-- liftW env (fun e => executeTrim e inputData inputFile settings) ;;
             sendMessageT (completeData trimData)
         | Some (framesCommand inputData inputFile settings) =>
             frames <-- executeFrames env inputData inputFile settings ;;
             sendMessageT (completeFrames frames)
         | Some (convertCommand inputData inputFile settings) =>
             convertData <-- liftW env (fun e => executeConvert e inputData inputFile settings) ;;
             sendMessageT (completeData convertData)
         | Some (mergeCommand None settings) =>
             throwT (ErrorObject "No clips provided for merge")
         | Some (mergeCommand (Some clips) settings) =>
             mergeData <-- liftW env (fun e => executeMerge e clips settings) ;;
             sendMessageT (completeData mergeData)
         end
     | mtCancel => pureT tt
     end)
    (fun error =>
       sendMessageT
         (errorResponse match error with
                        | ErrorObject m => m
                        | _ => "Unknown error occurred"
                        end)).

(** A message as the page posts it.  The commands of [FFmpegClient] carry
    no [inputFile]; a payload whose settings are not those of its type is
    not a [Command]. *)
Definition received (m : WorkerMessage) : option (MessageType * option Command) :=
  match m with
  | MsgLoad => Some (mtLoad, None)
  | MsgCancel => Some (mtCancel, None)
  | MsgExecute cmd =>
      match cmd_type cmd, settings cmd with
      | ctTrim, OfTrim s => Some (mtExecute, Some (trimCommand (inputData cmd) None s))
      | ctFrames, OfFrames s => Some (mtExecute, Some (framesCommand (inputData cmd) None s))
      | ctConvert, OfConvert s => Some (mtExecute, Some (convertCommand (inputData cmd) None s))
      | ctMerge, OfMerge s => Some (mtExecute, Some (mergeCommand (clips cmd) s))
      | _, _ => None
      end
  end.

End WorkerThread.

(** * Notions used in the statements *)

(** ** Engine operations *)

Definition isExec (op : Worker.EngineOp) : bool :=
  match op with
  | Worker.exec _ => true
  | _ => false
  end.

(** What the engine is asked to run during a whole [executeConvert]. *)
Definition convertExecs (engine : Worker.Engine) (inputData : option bytes)
           (inputFile : option (option bytes)) (s : ConvertSettings) : list Worker.EngineOp :=
  filter isExec
    (Worker.history
       (snd (Worker.executeConvert (Some engine) inputData inputFile s Worker.start))).

(** Whether [writeInputFile] gets the input into the engine. *)
Definition inputWritten (engine : Worker.Engine) (inputData : option bytes)
           (inputFile : option (option bytes)) : bool :=
  match Worker.writeInputFile (Some engine) inputData inputFile "input.mp4" Worker.start with
  | (Worker.Ok _, _) => true
  | (Worker.Throw _, _) => false
  end.

(** An engine run whose arguments begin with [-f concat]. *)
Definition isConcat (op : Worker.EngineOp) : bool :=
  match op with
  | Worker.exec ("-f" :: "concat" :: _) => true
  | _ => false
  end.

(** The engine refuses nothing but, possibly, a concatenation. *)
Definition acceptsTheRest (engine : Worker.Engine) : Prop :=
  forall h op, isConcat op = false -> exists d, engine h op = Worker.Ok d.

(** Concatenation without re-encoding. *)
Definition streamCopyArgs (outputName : string) : list string :=
  ["-f"; "concat"; "-safe"; "0"; "-i"; "concat_list.txt"; "-c"; "copy"; outputName].

(** Concatenation re-encoded to H.264 and AAC. *)
Definition h264Args (outputName : string) : list string :=
  ["-f"; "concat"; "-safe"; "0"; "-i"; "concat_list.txt";
   "-c:v"; "libx264"; "-preset"; "veryfast"; "-crf"; "23"; "-c:a"; "aac"; outputName].

(** Concatenation re-encoded to VP9 and Opus. *)
Definition vp9Args (outputName : string) : list string :=
  ["-f"; "concat"; "-safe"; "0"; "-i"; "concat_list.txt";
   "-c:v"; "libvpx-vp9"; "-b:v"; "0"; "-crf"; "32"; "-c:a"; "libopus"; outputName].

(** Whether an engine run copies streams. *)
Definition copiesStreams (op : Worker.EngineOp) : bool :=
  match op with
  | Worker.exec args => existsb (String.eqb "copy") args
  | _ => false
  end.

(** An engine that rejects the first concatenation it is asked for. *)
Definition rejectsFirstConcat : Worker.Engine :=
  fun h op =>
    if isConcat op && negb (existsb isConcat h)
    then Worker.Throw "Invalid data found when processing input"
    else Worker.Ok [].

Definition twoClips : list ClipData :=
  [{| cd_inputData := [x00]; cd_start := 0%Q; cd_end := (5 # 2)%Q |};
   {| cd_inputData := [x01]; cd_start := 1%Q; cd_end := 4%Q |}].

(** ** Messages, status updates and sample runs *)

Definition capabilityError : ProcessingState :=
  {| status := error; progress := 0; message := SAB_MESSAGE; state_logs := [] |}.


Definition loadedEvent : WorkerResponse := {| r_type := rLoaded; r_payload := None |}.

Definition errorEvent (msg : string) : WorkerResponse :=
  {| r_type := rError;
     r_payload := Some {| p_progress := None; p_message := None; p_data := None;
                          p_frames := None; p_error := Some msg; p_step := None |} |}.

Definition completeEvent (d : bytes) : WorkerResponse :=
  {| r_type := rComplete;
     r_payload := Some {| p_progress := None; p_message := None; p_data := Some d;
                          p_frames := None; p_error := None; p_step := None |} |}.

Definition sampleTrim : TrimSettings :=
  {| startTime := 5%Q; endTime := 15%Q; mode := fast |}.

(** A trim on a fresh client, up to the posting of its command: the
    worker is 0, the trim's promise 1, the load promise 2, the timer 3. *)
Definition dispatchedTrim : list Event :=
  [Trim "sample.mp4" sampleTrim 7; Message 0 loadedEvent; FileRead 1 (Some [[x00]])].

(** The call of a command from the page. *)
Definition callOf (req : Request) (cb : Cb) : Event :=
  match req with
  | ReqTrim file s => Trim file s cb
  | ReqFrames file s => ExtractFrames file s cb
  | ReqConvert file s => Convert file s cb
  | ReqMerge cs s => Merge cs s cb
  end.

(** A merge that passes the guard on the number of clips. *)
Definition enoughClips (req : Request) : Prop :=
  match req with
  | ReqMerge cs _ => 2 <= List.length cs
  | _ => True
  end.


(** The registry entry of an extracted frame. *)
Definition jpeg (f : FrameData) : string * Blob :=
  (frame_objectUrl f, {| blob_type := "image/jpeg"; blob_bytes := frame_data f |}).

(** Whether a message carries what the command's listener looks for:
    [payload.frames] for a frame extraction, [payload.data] otherwise. *)
Definition hasOutput (k : ResultHandler) (event : WorkerResponse) : bool :=
  match k with
  | ForFrames => match payload_get p_frames event with Some _ => true | None => false end
  | _ => match payload_get p_data event with Some _ => true | None => false end
  end.

(** The messages on which a command's listener settles its promise. *)
Definition terminalFor (k : ResultHandler) (event : WorkerResponse) : bool :=
  match r_type event with
  | rError => true
  | rComplete => hasOutput k event
  | _ => false
  end.

(** How a command's promise settles on a message. *)
Definition commandOutcome (k : ResultHandler) (event : WorkerResponse) (o : Outcome) : Prop :=
  match r_type event with
  | rError => o = Rejected (errorMessage event)
  | rComplete => hasOutput k event = true /\ exists r, o = Resolved (VResult r)
  | _ => False
  end.

(** How [load]'s promise settles on a message. *)
Definition loadOutcome (event : WorkerResponse) : option Outcome :=
  match r_type event with
  | rLoaded => Some (Resolved VVoid)
  | rError => Some (Rejected (errorMessage event))
  | _ => None
  end.

(** ** Who may still settle a promise

    A promise can be settled by a listener registered on the live worker,
    by a suspended command body, or it has been settled already.  The
    invariant of the client, [Good], is that every promise is in at most
    one of these places, at most once, and only if it has been created;
    promises held by the code that is running are counted through [hand].
    A promise in [dead] is in none of them, and stays so. *)

Definition listener_promise (l : Listener) : PromiseId :=
  match l with
  | handleLoad p => p
  | handleResult _ p => p
  end.

Definition liveListeners (w : World) : list Listener :=
  match worker (client w) with
  | Some wk => listeners wk
  | None => []
  end.

Definition tracked (w : World) : list PromiseId :=
  map listener_promise (liveListeners w) ++
  map call_promise (suspended w) ++
  map fst (settled w).

Definition occurrences (p : PromiseId) (l : list PromiseId) : nat :=
  count_occ Nat.eq_dec l p.

Definition cap (dead : list PromiseId) (p : PromiseId) (w : World) : nat :=
  if existsb (Nat.eqb p) dead then 0
  else if Nat.ltb p (fresh w) then 1 else 0.

Definition Good (dead hand : list PromiseId) (w : World) : Prop :=
  Forall (fun d => d < fresh w) dead /\
  forall p, occurrences p (hand ++ tracked w) <= cap dead p w.

(** An action that registers nothing and settles nothing. *)
Definition shrinks {A} (m : M A) : Prop :=
  forall w,
    fresh w <= fresh (snd (m w)) /\
    forall p, occurrences p (tracked (snd (m w))) <= occurrences p (tracked w).

(** An action that keeps the worker and its listeners, the load state, the
    posted messages and the callback log, and only adds to the settlements:
    resuming suspended bodies is calm. *)
Definition calm {A} (m : M A) : Prop :=
  forall w,
    worker (client (snd (m w))) = worker (client w) /\
    isLoaded (client (snd (m w))) = isLoaded (client w) /\
    loadPromise (client (snd (m w))) = loadPromise (client w) /\
    notified (snd (m w)) = notified w /\
    posted (snd (m w)) = posted w /\
    hasSharedArrayBuffer (snd (m w)) = hasSharedArrayBuffer w /\
    exists added, settled (snd (m w)) = settled w ++ added.

(** ** The project and its panels *)

(** What the panels let the user do with the project. *)
Inductive Action :=
| AddClip (clip : Clip)
| RemoveClip (id : string)
| MoveClip (id : string) (direction : Index.Direction)
| SelectClip (id : string)
| UpdateClipTrim (id : string) (start stop : Q).

Definition listed (id : string) (p : Index.Project) : bool :=
  existsb (fun c => String.eqb (clip_id c) id) (Index.clips p).

(** ClipsPanel and Timeline have a control per listed clip: a clip that is
    selected is one of the project. *)
Definition offered (a : Action) (p : Index.Project) : bool :=
  match a with
  | SelectClip id => listed id p
  | _ => true
  end.

Definition perform (a : Action) (p : Index.Project) : Index.Project :=
  match a with
  | AddClip clip => Index.handleAddClip clip p
  | RemoveClip id => fst (Index.handleRemoveClip id p)
  | MoveClip id direction => Index.handleMoveClip id direction p
  | SelectClip id => Index.handleSelectClip id p
  | UpdateClipTrim id start stop => Index.handleUpdateClipTrim id start stop p
  end.

Fixpoint performAll (actions : list Action) (p : Index.Project) : option Index.Project :=
  match actions with
  | [] => Some p
  | a :: rest => if offered a p then performAll rest (perform a p) else None
  end.

(** The active id names a clip of the project, and there is none only
    when the project is empty. *)
Definition activeIsListed (p : Index.Project) : Prop :=
  match Index.activeClipId p with
  | Some a => listed a p = true
  | None => Index.clips p = []
  end.

Definition clipA : Clip :=
  Index.newClip "a" "a.mp4" "a.mp4" 10 "video/mp4" "blob:a" 4%Q.

Definition clipB : Clip :=
  Index.newClip "b" "b.mp4" "b.mp4" 20 "video/mp4" "blob:b" 6%Q.

(** ** The worker's commands *)

(** The name of the [i]-th normalized clip of a merge, counting from 0. *)
Definition normalizedName (i : nat) : string :=
  ("clip_" ++ Js.padStart0 3 (Js.of_nat (i + 1)) ++ ".mp4")%string.

(** The list file of a merge of [n] clips. *)
Definition concatListOf (n : nat) : string :=
  Js.join (String "010" "")
          (map (fun i => ("file '" ++ normalizedName i ++ "'")%string) (seq 0 n)).

(** The values of the progress messages among the messages sent. *)
Definition progressValues (ms : list WorkerResponse) : list Z :=
  flat_map (fun r => match r_type r, payload_get p_progress r with
                     | rProgress, Some v => [v]
                     | _, _ => []
                     end) ms.

(** A log or progress message. *)
Definition isReport (r : WorkerResponse) : bool :=
  match r_type r with
  | rLog | rProgress => true
  | _ => false
  end.

(** A message that ends a command: 'complete' or 'error'. *)
Definition isTerminal (r : WorkerResponse) : bool :=
  match r_type r with
  | rComplete | rError => true
  | _ => false
  end.

(** [l] is [full] cut short. *)
Definition prefixOf {A} (l full : list A) : Prop := exists rest, full = l ++ rest.


(** The operations of a trim whose input [d] is written, in order. *)
Definition trimOps (d : bytes) (s : TrimSettings) : list Worker.EngineOp :=
  [Worker.writeFile "input.mp4" d;
   Worker.exec (WorkerThread.trimArgs s "input.mp4" "output.mp4");
   Worker.readFile "output.mp4";
   Worker.deleteFile "input.mp4";
   Worker.deleteFile "output.mp4"].

(** The operations of a conversion whose input [d] is written, in order. *)
Definition convertOps (d : bytes) (s : ConvertSettings) : list Worker.EngineOp :=
  [Worker.writeFile "input.mp4" d;
   Worker.exec (Worker.convertArgs s "input.mp4" "output.webm");
   Worker.readFile "output.webm";
   Worker.deleteFile "input.mp4";
   Worker.deleteFile "output.webm"].

(** A run that went through [ops] without a failure, or stopped at the
    first operation the engine refused, with the engine's message. *)
Definition stopsAtFailure (engine : Worker.Engine) (ops : list Worker.EngineOp)
           (out : Worker.Result bytes * Worker.State) : Prop :=
  match fst out with
  | Worker.Ok _ => Worker.history (snd out) = ops
  | Worker.Throw msg =>
      exists h op rest,
        ops = h ++ op :: rest /\
        Worker.history (snd out) = h ++ [op] /\
        engine h op = Worker.Throw msg
  end.

(** The number a string of digits denotes. *)
Definition valueOf (s : string) : option nat :=
  option_map Nat.of_uint (NilEmpty.uint_of_string s).

(** ** The worker thread *)

(** A computation of the thread that leaves [ffmpeg] and [isLoaded] alone
    and sends log and progress messages only. *)
Definition reportsOnly {A} (m : WorkerThread.T A) : Prop :=
  forall st,
    WorkerThread.ffmpeg (snd (m st)) = WorkerThread.ffmpeg st /\
    WorkerThread.isLoaded (snd (m st)) = WorkerThread.isLoaded st /\
    exists reports,
      WorkerThread.outbox (snd (m st)) = WorkerThread.outbox st ++ reports /\
      forallb isReport reports = true.

(** A command builder of [Worker] that sends log and progress messages
    only, whatever the engine. *)
Definition reportsOnlyW {A} (m : option Worker.Engine -> Worker.W A) : Prop :=
  forall e, forallb isReport (Worker.sent (snd (m e Worker.start))) = true.

(** A computation of [Worker] that sends nothing. *)
Definition silent {A} (m : Worker.W A) : Prop :=
  forall st, Worker.sent (snd (m st)) = Worker.sent st.

(** The thread answered with log and progress messages followed by one
    last message [t] for which [P] holds. *)
Definition repliedWith (st st' : WorkerThread.Thread) (P : WorkerResponse -> Prop) : Prop :=
  exists reports t,
    WorkerThread.outbox st' = WorkerThread.outbox st ++ reports ++ [t] /\
    forallb isReport reports = true /\
    P t.

(** A 'complete' message with what the page's listener for the command
    looks for: [payload.frames] for a frame extraction, [payload.data]
    otherwise. *)
Definition carriesOutputOf (cmd : WorkerThread.Command) (t : WorkerResponse) : bool :=
  match r_type t with
  | rComplete =>
      match cmd with
      | WorkerThread.framesCommand _ _ _ =>
          match payload_get p_frames t with Some _ => true | None => false end
      | _ => match payload_get p_data t with Some _ => true | None => false end
      end
  | _ => false
  end.

(** The reply to an 'execute' message: an error, or the output. *)
Definition answers (payload : option WorkerThread.Command) (t : WorkerResponse) : Prop :=
  r_type t = rError \/
  exists cmd, payload = Some cmd /\ carriesOutputOf cmd t = true.

(** The thread refused a message: it sent one 'error' message with the
    text [msg] and asked nothing of its environment. *)
Definition refusedWith (msg : string) (st st' : WorkerThread.Thread) : Prop :=
  WorkerThread.ffmpeg st' = WorkerThread.ffmpeg st /\
  WorkerThread.isLoaded st' = WorkerThread.isLoaded st /\
  WorkerThread.ops st' = WorkerThread.ops st /\
  WorkerThread.outbox st' = WorkerThread.outbox st ++ [WorkerThread.errorResponse msg].

(** A command that is not a merge without clips. *)
Definition hasItsClips (cmd : WorkerThread.Command) : bool :=
  match cmd with
  | WorkerThread.mergeCommand None _ => false
  | _ => true
  end.

(** A trim, frame extraction or conversion with neither [inputData] nor
    [inputFile]. *)
Definition lacksInput (cmd : WorkerThread.Command) : bool :=
  match cmd with
  | WorkerThread.trimCommand None None _
  | WorkerThread.framesCommand None None _
  | WorkerThread.convertCommand None None _ => true
  | _ => false
  end.

(** The requests for one frame: it is read, then deleted. *)
Definition frameOps (name : string) : list WorkerThread.Op :=
  [WorkerThread.onFile (Worker.readFile ("frames/" ++ name));
   WorkerThread.onFile (Worker.deleteFile ("frames/" ++ name))].

(** Each frame carries what the engine answered when its file was read,
    the thread having made the requests [h] before the first. *)
Fixpoint framesRead (env : WorkerThread.Env) (h : list WorkerThread.Op)
         (frames : list (string * bytes)) : Prop :=
  match frames with
  | [] => True
  | (name, data) :: rest =>
      WorkerThread.fileAnswer env h (Worker.readFile ("frames/" ++ name)) = Worker.Ok data /\
      framesRead env (h ++ frameOps name) rest
  end.

(** The environment failed the request [op], made after the requests [h],
    by throwing [e]. *)
Definition refusedAt (env : WorkerThread.Env) (h : list WorkerThread.Op)
           (op : WorkerThread.Op) (e : WorkerThread.Thrown) : Prop :=
  match op with
  | WorkerThread.onFile o =>
      WorkerThread.ofResult (WorkerThread.fileAnswer env h o) = WorkerThread.Raised e
  | WorkerThread.onDir o => WorkerThread.dirAnswer env h o = WorkerThread.Raised e
  | _ => False
  end.

(** The requests of a frame extraction before it reads the frames. *)
Definition framesSetup (env : WorkerThread.Env) (d : bytes) (s : FrameSettings)
  : list WorkerThread.Op :=
  [WorkerThread.onFile (Worker.writeFile "input.mp4" d);
   WorkerThread.onDir (WorkerThread.createDir "frames");
   WorkerThread.onFile (Worker.exec (WorkerThread.framesArgs env s "input.mp4"));
   WorkerThread.onDir (WorkerThread.listDir "frames")].

(** The names that end in .jpg, in their order. *)
Definition jpgNames (files : list WorkerThread.FSNode) : list string :=
  filter (fun name => WorkerThread.endsWith name ".jpg") (map WorkerThread.node_name files).

(** ** From the worker back to the client *)

(** The messages [ms] arrive at the client from the worker [from], one
    message event each, in order. *)
Definition deliver (from : nat) (ms : list WorkerResponse) : list Event :=
  map (Message from) ms.

(** [arrived] is [own] with log and progress messages in between: the
    messages the thread posts itself, together with any that [logHandler]
    and [progressHandler] post for the events of the engine. *)
Inductive withReports : list WorkerResponse -> list WorkerResponse -> Prop :=
| wr_done : withReports [] []
| wr_own (r : WorkerResponse) (own arrived : list WorkerResponse) :
    withReports own arrived -> withReports (r :: own) (r :: arrived)
| wr_engine (e : WorkerResponse) (own arrived : list WorkerResponse) :
    isReport e = true -> withReports own arrived -> withReports own (e :: arrived).

(** ** The timeout of the client *)

(** At most one timer is armed, and it is the one whose id the client
    holds in [timeoutId]. *)
Definition oneTimer (w : World) : Prop :=
  match timers w with
  | [] => True
  | [t] => timeoutId (client w) = Some (timer_id t)
  | _ => False
  end.

(** An action that leaves the timers and [timeoutId] as they are. *)
Definition still {A} (m : M A) : Prop :=
  forall w,
    timers (snd (m w)) = timers w /\
    timeoutId (client (snd (m w))) = timeoutId (client w).

(** An action that keeps [oneTimer]. *)
Definition tidy {A} (m : M A) : Prop :=
  forall w, oneTimer w -> oneTimer (snd (m w)).

(** * Properties *)

Local Open Scope js_scope.

(** ** Reasoning about monadic code *)

Lemma bind_eq {A B} (m : M A) (k : A -> M B) (w : World) :
  bind m k w = k (fst (m w)) (snd (m w)).
Proof. unfold bind. destruct (m w); reflexivity. Qed.

Ltac run_monad :=
  repeat (rewrite bind_eq; cbn [fst snd]);
  cbn [fst snd].

(** ** Convert: the quality table and the codec pair *)

(** C7. The convert operation maps quality 'low' to 40, 'medium' to 32 and
    'high' to 24 through a fixed table, and whatever the settings, the
    input and the engine, the one command it runs encodes VP9 video and
    Opus audio into output.webm, with the table's value after -crf. *)
Theorem C7_convert_quality_table :
  (Worker.crfOf {| quality := low |} = 40 /\
   Worker.crfOf {| quality := medium |} = 32 /\
   Worker.crfOf {| quality := high |} = 24) /\
  forall engine inputData inputFile s,
    convertExecs engine inputData inputFile s =
    if inputWritten engine inputData inputFile
    then [Worker.exec ["-i"; "input.mp4"; "-c:v"; "libvpx-vp9"; "-b:v"; "0";
                       "-crf"; match quality s with
                               | low => "40" | medium => "32" | high => "24"
                               end;
                       "-c:a"; "libopus"; "-deadline"; "realtime";
                       "-cpu-used"; "4"; "output.webm"]]
    else [].
Proof.
  split; [repeat split |].
  intros engine inputData inputFile s.
  unfold convertExecs, inputWritten, Worker.executeConvert, Worker.writeInputFile.
  unfold Worker.andThen, Worker.call, Worker.pure, Worker.throw.
  destruct inputData as [d|]; [| destruct inputFile as [[d|]|]]; cbn;
    try reflexivity;
    (destruct (engine [] (Worker.writeFile "input.mp4" d)); cbn; [| reflexivity]);
    (destruct (engine _ (Worker.exec _)); cbn;
       [| destruct s as [[]]; reflexivity]);
    (destruct (engine _ (Worker.readFile _)); cbn;
       [| destruct s as [[]]; reflexivity]);
    (destruct (engine _ (Worker.deleteFile _)); cbn;
       [| destruct s as [[]]; reflexivity]);
    (destruct (engine _ (Worker.deleteFile _)); cbn;
       destruct s as [[]]; reflexivity).
Qed.

(** ** Merge: the guard on the number of clips *)

(** C10. A merge of fewer than two clips rejects its promise with 'Need at
    least 2 clips to merge' and does nothing else: the client's fields
    (worker, load state, active callback, log accumulator, timeout handle)
    are as before, no timer is armed, no callback is invoked, nothing is
    posted and no body is left suspended.  [load] is not reached. *)
Theorem C10_merge_needs_two_clips (cs : list Clip) (s : MergeSettings) (callback : Cb)
        (w : World) :
  List.length cs < 2 ->
  let p := fst (merge cs s callback w) in
  let w' := snd (merge cs s callback w) in
  p = fresh w /\
  settled w' = settled w ++ [(p, Rejected "Need at least 2 clips to merge")] /\
  client w' = client w /\
  notified w' = notified w /\
  timers w' = timers w /\
  posted w' = posted w /\
  suspended w' = suspended w /\
  urls w' = urls w.
Proof.
  intros Hlen. unfold merge.
  apply Nat.ltb_lt in Hlen. rewrite Hlen.
  repeat split.
Qed.

Lemma C10_merge_needs_two_clips_witness :
  let w := newWorld false in
  let w' := snd (merge [] {| format := mp4 |} 7 w) in
  settled w' = [(1, Rejected "Need at least 2 clips to merge")] /\
  client w' = client w /\ notified w' = [] /\ timers w' = [] /\ posted w' = [].
Proof.
  pose proof (C10_merge_needs_two_clips [] {| format := mp4 |} 7 (newWorld false)) as H.
  cbv zeta in H.
  destruct H as (_ & Hs & Hc & Hn & Ht & Hp & _); [simpl; lia |].
  repeat split; assumption.
Defined.

(** ** Load without SharedArrayBuffer *)

Lemma load_no_SharedArrayBuffer (w : World) (callback : option Cb) :
  hasSharedArrayBuffer w = false ->
  isLoaded (client w) = false ->
  load callback w = (Threw SAB_MESSAGE, snd (invoke_opt callback capabilityError w)).
Proof.
  intros Hsab Hl. unfold load, bind, this, typeof_SharedArrayBuffer.
  rewrite Hl, Hsab. cbn [negb]. fold capabilityError.
  destruct (invoke_opt callback capabilityError w) as [[] w']. reflexivity.
Qed.

(** C5. Without SharedArrayBuffer and not yet loaded, [load] throws the
    capability error at once: nothing is posted to the worker, no listener
    is added, no promise is created or memoized, and the error status is
    handed to the progress callback that was passed.  A command, which
    always passes its callback, rejects with the same message. *)
Theorem C5_load_requires_SharedArrayBuffer (w : World) :
  hasSharedArrayBuffer w = false ->
  isLoaded (client w) = false ->
  (forall callback,
     fst (load callback w) = Threw SAB_MESSAGE /\
     posted (snd (load callback w)) = posted w /\
     client (snd (load callback w)) = client w /\
     settled (snd (load callback w)) = settled w /\
     fresh (snd (load callback w)) = fresh w /\
     notified (snd (load callback w)) =
       notified w ++ match callback with
                     | Some cb => [(cb, capabilityError)]
                     | None => []
                     end) /\
  (forall p req cb,
     settled (snd (start p req cb w)) = settled w ++ [(p, Rejected SAB_MESSAGE)] /\
     notified (snd (start p req cb w)) = notified w ++ [(cb, capabilityError)] /\
     posted (snd (start p req cb w)) = posted w /\
     client (snd (start p req cb w)) = client w /\
     suspended (snd (start p req cb w)) = suspended w /\
     timers (snd (start p req cb w)) = timers w).
Proof.
  intros Hsab Hl. split.
  - intros callback. rewrite (load_no_SharedArrayBuffer w callback Hsab Hl). cbn [fst snd].
    destruct callback; cbn; rewrite ?app_nil_r; repeat split.
  - intros p req cb. unfold start. rewrite bind_eq.
    rewrite (load_no_SharedArrayBuffer w (Some cb) Hsab Hl). cbn. repeat split.
Qed.

Lemma C5_load_requires_SharedArrayBuffer_witness :
  fst (load (Some 7) (newWorld false)) = Threw SAB_MESSAGE /\
  posted (snd (load (Some 7) (newWorld false))) = [] /\
  notified (snd (load (Some 7) (newWorld false))) = [(7, capabilityError)].
Proof.
  destruct (C5_load_requires_SharedArrayBuffer (newWorld false) eq_refl eq_refl)
    as [H _].
  destruct (H (Some 7)) as (H1 & H2 & _ & _ & _ & H6).
  repeat split; assumption.
Defined.

(** ** Merge: the concatenation phase *)

Lemma call_accepted (engine : Worker.Engine) (op : Worker.EngineOp) (st : Worker.State) :
  acceptsTheRest engine -> isConcat op = false ->
  exists d, Worker.call engine op st =
            (Worker.Ok d,
             {| Worker.history := Worker.history st ++ [op];
                Worker.sent := Worker.sent st;
                Worker.normalizedFiles := Worker.normalizedFiles st |}).
Proof.
  intros Hacc Hop. destruct (Hacc (Worker.history st) op Hop) as [d Hd].
  exists d. unfold Worker.call. rewrite Hd. reflexivity.
Qed.

Lemma normalizeClip_history (engine : Worker.Engine) (total i : nat) (clip : ClipData)
      (st : Worker.State) :
  acceptsTheRest engine ->
  exists st' h,
    Worker.normalizeClip engine total i clip st = (Worker.Ok tt, st') /\
    Worker.history st' = Worker.history st ++ h /\
    filter isConcat h = [].
Proof.
  intros Hacc. unfold Worker.normalizeClip.
  unfold Worker.andThen at 1. cbn [Worker.sendMessage].
  unfold Worker.andThen at 1. cbn [Worker.sendMessage].
  unfold Worker.andThen at 1.
  match goal with |- context [Worker.call engine ?op ?s] =>
    destruct (call_accepted engine op s Hacc eq_refl) as [d1 E1]; rewrite E1 end.
  unfold Worker.andThen at 1.
  match goal with |- context [Worker.call engine ?op ?s] =>
    destruct (call_accepted engine op s Hacc eq_refl) as [d2 E2]; rewrite E2 end.
  unfold Worker.andThen at 1. cbn [Worker.pushNormalized].
  unfold Worker.andThen at 1.
  match goal with |- context [Worker.call engine ?op ?s] =>
    destruct (call_accepted engine op s Hacc eq_refl) as [d3 E3]; rewrite E3 end.
  unfold Worker.pure.
  eexists. eexists. split; [reflexivity |].
  cbn [Worker.history]. rewrite <- !app_assoc. split; [reflexivity |].
  reflexivity.
Qed.

Lemma normalizeFrom_history (engine : Worker.Engine) (total : nat) (cs : list ClipData) :
  acceptsTheRest engine ->
  forall i st,
  exists st' h,
    Worker.normalizeFrom engine total i cs st = (Worker.Ok tt, st') /\
    Worker.history st' = Worker.history st ++ h /\
    filter isConcat h = [].
Proof.
  intros Hacc. induction cs as [| clip rest IH]; intros i st.
  - exists st, []. cbn. rewrite app_nil_r. repeat split.
  - cbn [Worker.normalizeFrom]. unfold Worker.andThen.
    destruct (normalizeClip_history engine total i clip st Hacc) as (st1 & h1 & E1 & H1 & F1).
    rewrite E1.
    destruct (IH (S i) st1) as (st2 & h2 & E2 & H2 & F2).
    exists st2, (h1 ++ h2). split; [exact E2 |]. split.
    + rewrite H2, H1, app_assoc. reflexivity.
    + rewrite filter_app, F1, F2. reflexivity.
Qed.

Lemma cleanup_history (engine : Worker.Engine) (files : list string) :
  forall st,
  exists st' h,
    Worker.forEachW files (fun file =>
      Worker.tryCatch
        (Worker.andThen (Worker.call engine (Worker.deleteFile file))
                        (fun _ => Worker.pure tt))
        (fun _ => Worker.pure tt)) st = (Worker.Ok tt, st') /\
    Worker.history st' = Worker.history st ++ h /\
    filter isConcat h = [].
Proof.
  induction files as [| f rest IH]; intros st.
  - exists st, []. cbn. rewrite app_nil_r. repeat split.
  - cbn [Worker.forEachW]. unfold Worker.andThen at 1. unfold Worker.tryCatch at 1.
    unfold Worker.andThen at 1. unfold Worker.call at 1.
    destruct (engine (Worker.history st) (Worker.deleteFile f)); cbn [Worker.pure];
      match goal with |- context [Worker.forEachW rest _ ?s] =>
        destruct (IH s) as (st2 & h2 & E2 & H2 & F2) end;
      exists st2, (Worker.deleteFile f :: h2);
      (split; [exact E2 |]); (split; [| exact F2]);
      rewrite H2; cbn [Worker.history]; rewrite <- app_assoc; reflexivity.
Qed.

Lemma cleanupNormalized_history (engine : Worker.Engine) (st : Worker.State) :
  exists st' h,
    Worker.cleanupNormalized engine st = (Worker.Ok tt, st') /\
    Worker.history st' = Worker.history st ++ h /\
    filter isConcat h = [].
Proof.
  unfold Worker.cleanupNormalized, Worker.andThen at 1, Worker.getNormalized.
  apply cleanup_history.
Qed.

Ltac tidy := cbn [Worker.history Worker.sent Worker.normalizedFiles].

Ltac send := unfold Worker.andThen at 1; cbn [Worker.sendMessage].

Ltac accept Hacc :=
  unfold Worker.andThen at 1;
  match goal with |- context [Worker.call ?e ?op ?s] =>
    let d := fresh "d" in let E := fresh "E" in
    destruct (call_accepted e op s Hacc eq_refl) as [d E]; rewrite E; clear E end.

(** Everything after the concatenation: read the output, clean up. *)
Lemma finish_history (engine : Worker.Engine) (outputName : string) (st : Worker.State) :
  acceptsTheRest engine ->
  exists r st' h,
    Worker.andThen
      (Worker.sendMessage (Worker.stepMessage 95 "Finalizing..."))
      (fun _ : unit =>
       Worker.andThen
         (Worker.call engine (Worker.readFile outputName))
         (fun d0 : bytes =>
          Worker.andThen (Worker.cleanupNormalized engine)
            (fun _ : unit =>
             Worker.andThen
               (Worker.tryCatch
                  (Worker.andThen
                     (Worker.call engine (Worker.deleteFile "concat_list.txt"))
                     (fun _ : bytes =>
                      Worker.andThen
                        (Worker.call engine (Worker.deleteFile outputName))
                        (fun _ : bytes => Worker.pure tt)))
                  (fun _ : string => Worker.pure tt))
               (fun _ : unit => Worker.pure d0)))) st = (Worker.Ok r, st') /\
    Worker.history st' = Worker.history st ++ h /\
    filter isConcat h = [].
Proof.
  intros Hacc. send. accept Hacc. tidy.
  unfold Worker.andThen at 1.
  match goal with |- context [Worker.cleanupNormalized engine ?s] =>
    destruct (cleanupNormalized_history engine s) as (st2 & h2 & E2 & H2 & F2) end.
  rewrite E2. tidy. cbn [Worker.history] in H2.
  unfold Worker.andThen at 1. unfold Worker.tryCatch at 1.
  accept Hacc. accept Hacc. tidy. unfold Worker.pure.
  eexists. eexists. eexists. split; [reflexivity |]. cbn [Worker.history].
  rewrite H2, <- !app_assoc. split; [reflexivity |].
  rewrite !filter_app, F2. reflexivity.
Qed.

Ltac concat_accepted Hacc out :=
  match goal with |- context [Worker.andThen ?a ?k ?st] =>
    let r := fresh "r" in let st' := fresh "st'" in let h := fresh "h" in
    let E := fresh "E" in let H := fresh "H" in let F := fresh "F" in
    destruct (finish_history _ out st Hacc) as (r & st' & h & E & H & F);
    rewrite E; cbn [snd]; cbn [Worker.history] in H;
    eexists; rewrite H, <- !app_assoc; cbn [app];
    split; [reflexivity |]; split; [assumption |]; cbn; rewrite ?F; reflexivity
  end.

Ltac concat_failed engine :=
  unfold Worker.andThen at 1;
  match goal with |- context [Worker.cleanupNormalized engine ?s] =>
    let st2 := fresh "st2" in let h2 := fresh "h2" in
    let E2 := fresh "E" in let H2 := fresh "H" in let F2 := fresh "F" in
    destruct (cleanupNormalized_history engine s) as (st2 & h2 & E2 & H2 & F2);
    rewrite E2; cbn [Worker.throw snd]; cbn [Worker.history] in H2;
    eexists; rewrite H2, <- !app_assoc; cbn [app];
    split; [reflexivity |]; split; [assumption |]; cbn; rewrite F2; reflexivity
  end.

(** C6, as the code has it.  Once the clips are normalized, a merge runs
    one concatenation and, only if the engine rejects it, a second one.
    For mp4 the first is a stream copy ([-c copy], no re-encoding) and the
    second re-encodes to H.264 and AAC.  For webm there is no stream copy:
    the first concatenation already re-encodes to VP9 and Opus, and the
    second one runs the same re-encoding again. *)
Theorem C6_merge_concatenation (engine : Worker.Engine) (cs : list ClipData)
        (s : MergeSettings) :
  2 <= List.length cs ->
  acceptsTheRest engine ->
  let outputName := match format s with webm => "merged.webm" | mp4 => "merged.mp4" end in
  let first := match format s with
               | mp4 => streamCopyArgs outputName
               | webm => vp9Args outputName
               end in
  let second := match format s with
                | mp4 => h264Args outputName
                | webm => vp9Args outputName
                end in
  exists before rest,
    Worker.history (snd (Worker.executeMerge (Some engine) cs s Worker.start)) =
      before ++ Worker.exec first :: rest /\
    filter isConcat before = [] /\
    filter isConcat rest = match engine before (Worker.exec first) with
                           | Worker.Ok _ => []
                           | Worker.Throw _ => [Worker.exec second]
                           end.
Proof.
  intros Hlen Hacc. cbv zeta.
  unfold Worker.executeMerge.
  assert (Hlt : Nat.ltb (List.length cs) 2 = false) by (apply Nat.ltb_ge; exact Hlen).
  rewrite Hlt. clear Hlt.
  unfold Worker.tryCatch at 1. unfold Worker.andThen at 1.
  destruct (normalizeFrom_history engine (List.length cs) cs Hacc 0 Worker.start)
    as (st1 & h1 & E1 & H1 & F1).
  rewrite E1. simpl in H1.
  send. send. unfold Worker.andThen at 1. cbn [Worker.getNormalized Worker.normalizedFiles].
  accept Hacc. tidy. send. send. tidy.
  match goal with |- context [Worker.writeFile "concat_list.txt" ?c] =>
    set (before := Worker.history st1 ++ [Worker.writeFile "concat_list.txt" c]) end.
  exists before.
  assert (Fb : filter isConcat before = []).
  { unfold before. rewrite filter_app, H1, F1. reflexivity. }
  unfold Worker.andThen at 1. unfold Worker.tryCatch at 1. unfold Worker.andThen at 1.
  unfold Worker.call at 1. tidy.
  destruct s as [[|]]; cbn [format Worker.firstMergeArgs Worker.fallbackMergeArgs];
    fold (streamCopyArgs "merged.mp4"); fold (h264Args "merged.mp4");
    fold (vp9Args "merged.webm");
    match goal with |- context [engine before ?op] => destruct (engine before op) end;
    cbn [Worker.pure].
  - concat_accepted Hacc "merged.mp4".
  - send. tidy. unfold Worker.andThen at 1. unfold Worker.call at 1. tidy.
    match goal with |- context [engine ?h (Worker.exec (h264Args ?o))] =>
      destruct (engine h (Worker.exec (h264Args o))) end; cbn [Worker.pure].
    + concat_accepted Hacc "merged.mp4".
    + concat_failed engine.
  - concat_accepted Hacc "merged.webm".
  - send. tidy. unfold Worker.andThen at 1. unfold Worker.call at 1. tidy.
    match goal with |- context [engine ?h (Worker.exec (vp9Args ?o))] =>
      destruct (engine h (Worker.exec (vp9Args o))) end; cbn [Worker.pure].
    + concat_accepted Hacc "merged.webm".
    + concat_failed engine.
Qed.

Lemma C6_merge_concatenation_witness :
  exists before rest,
    Worker.history
      (snd (Worker.executeMerge (Some rejectsFirstConcat) twoClips
                                {| format := mp4 |} Worker.start)) =
      before ++ Worker.exec (streamCopyArgs "merged.mp4") :: rest /\
    filter isConcat before = [] /\
    filter isConcat rest =
      match rejectsFirstConcat before (Worker.exec (streamCopyArgs "merged.mp4")) with
      | Worker.Ok _ => []
      | Worker.Throw _ => [Worker.exec (h264Args "merged.mp4")]
      end.
Proof.
  apply (C6_merge_concatenation rejectsFirstConcat twoClips {| format := mp4 |}).
  - simpl. lia.
  - intros h op Hop. unfold rejectsFirstConcat. rewrite Hop. simpl.
    exists []. reflexivity.
Defined.

(** C6 as the spec states it fails for webm: with an engine that rejects
    the first concatenation, a webm merge of two clips runs the VP9
    re-encoding twice and never asks for a stream copy. *)
Lemma C6_webm_never_copies_streams :
  let st := snd (Worker.executeMerge (Some rejectsFirstConcat) twoClips
                                     {| format := webm |} Worker.start) in
  filter isConcat (Worker.history st) =
    [Worker.exec (vp9Args "merged.webm"); Worker.exec (vp9Args "merged.webm")] /\
  filter copiesStreams (Worker.history st) = [] /\
  copiesStreams (Worker.exec (streamCopyArgs "merged.webm")) = true.
Proof. vm_compute. repeat split. Qed.

(** ** Result materialization *)

Lemma frames_materialized (fs : list (string * bytes)) :
  forall w,
    map frame_name (fst (mapM frameOf fs w)) = map fst fs /\
    map frame_data (fst (mapM frameOf fs w)) = map snd fs /\
    settled (snd (mapM frameOf fs w)) = settled w /\
    client (snd (mapM frameOf fs w)) = client w /\
    now (snd (mapM frameOf fs w)) = now w /\
    (exists added, urls (snd (mapM frameOf fs w)) = urls w ++ added /\ added = map jpeg (fst (mapM frameOf fs w))) /\
    Forall (fun f => frame_objectUrl f <> "") (fst (mapM frameOf fs w)).
Proof.
  induction fs as [| f rest IH]; intros w.
  - cbn. repeat split; auto. exists []. rewrite app_nil_r. split; reflexivity.
  - cbn [mapM]. rewrite !bind_eq.
    set (w1 := snd (frameOf f w)).
    destruct (IH w1) as (Hn & Hd & Hs & Hc & Ht & (added & Hu & Ha) & Hne).
    cbn [ret fst snd map].
    rewrite Hn, Hd, Hs, Hc, Ht.
    repeat split; try reflexivity.
    + exists (jpeg (fst (frameOf f w)) :: added). rewrite Hu. subst added.
      split; [| reflexivity].
      unfold w1, frameOf, URL_createObjectURL. rewrite !bind_eq. cbn.
      rewrite <- app_assoc. reflexivity.
    + constructor; [| exact Hne]. unfold frameOf, URL_createObjectURL.
      rewrite !bind_eq. cbn. discriminate.
Qed.

Lemma removeEventListener_keeps (l : Listener) (w : World) :
  settled (snd (removeEventListener l w)) = settled w /\
  urls (snd (removeEventListener l w)) = urls w /\
  fresh (snd (removeEventListener l w)) = fresh w /\
  now (snd (removeEventListener l w)) = now w.
Proof.
  unfold removeEventListener, bind, this. destruct (worker (client w)); cbn; auto.
Qed.



(** ** The invariant of the client *)

Lemma occurrences_app (p : PromiseId) (a b : list PromiseId) :
  occurrences p (a ++ b) = occurrences p a + occurrences p b.
Proof. apply count_occ_app. Qed.

Lemma occurrences_cons (p q : PromiseId) (l : list PromiseId) :
  occurrences p (q :: l) = (if Nat.eqb q p then 1 else 0) + occurrences p l.
Proof.
  unfold occurrences. cbn. destruct (Nat.eq_dec q p) as [E | E].
  - subst. rewrite Nat.eqb_refl. reflexivity.
  - apply Nat.eqb_neq in E. rewrite E. reflexivity.
Qed.

Lemma occurrences_nil (p : PromiseId) : occurrences p [] = 0.
Proof. reflexivity. Qed.

Lemma cap_mono (dead : list PromiseId) (p : PromiseId) (w w' : World) :
  fresh w <= fresh w' -> cap dead p w <= cap dead p w'.
Proof.
  intros H. unfold cap. destruct (existsb (Nat.eqb p) dead); [lia |].
  destruct (Nat.ltb p (fresh w)) eqn:E1; destruct (Nat.ltb p (fresh w')) eqn:E2; try lia.
  apply Nat.ltb_lt in E1. apply Nat.ltb_ge in E2. lia.
Qed.

Lemma Good_transfer (dead hand hand' : list PromiseId) (w w' : World) :
  Good dead hand w ->
  fresh w <= fresh w' ->
  (forall p, occurrences p (hand' ++ tracked w') <= occurrences p (hand ++ tracked w)) ->
  Good dead hand' w'.
Proof.
  intros [Hd Hc] Hf Ho. split.
  - eapply Forall_impl; [| exact Hd]. cbn. intros d Hlt. lia.
  - intros p. specialize (Ho p). specialize (Hc p).
    pose proof (cap_mono dead p w w' Hf). lia.
Qed.

Lemma Good_shrinks {A} (m : M A) (dead hand : list PromiseId) (w : World) :
  shrinks m -> Good dead hand w -> Good dead hand (snd (m w)).
Proof.
  intros Hm HG. destruct (Hm w) as [Hf Ho].
  apply (Good_transfer dead hand hand w _ HG Hf).
  intros p. rewrite !occurrences_app. specialize (Ho p). lia.
Qed.

Lemma Good_drop (dead hand : list PromiseId) (p : PromiseId) (w : World) :
  Good dead (p :: hand) w -> Good dead hand w.
Proof.
  intros HG. apply (Good_transfer dead (p :: hand) hand w w HG (Nat.le_refl _)).
  intros q. rewrite <- app_comm_cons, occurrences_cons. lia.
Qed.

Lemma Good_drop_all (dead hand extra : list PromiseId) (w : World) :
  Good dead (extra ++ hand) w -> Good dead hand w.
Proof.
  induction extra as [| p rest IH]; intros HG; [exact HG |].
  apply IH. apply (Good_drop dead (rest ++ hand) p). exact HG.
Qed.

Lemma shrinks_ret {A} (a : A) : shrinks (ret a).
Proof. intros w. cbn. split; [lia | intros; lia]. Qed.

Lemma shrinks_bind {A B} (m : M A) (k : A -> M B) :
  shrinks m -> (forall a, shrinks (k a)) -> shrinks (bind m k).
Proof.
  intros Hm Hk w. rewrite bind_eq.
  destruct (Hm w) as [F1 O1]. destruct (Hk (fst (m w)) (snd (m w))) as [F2 O2].
  split; [lia |]. intros p. specialize (O1 p). specialize (O2 p). lia.
Qed.

(** An action that leaves listeners, suspended bodies and settlements as
    they are and does not lower [fresh]. *)
Lemma shrinks_same {A} (m : M A) :
  (forall w, fresh w <= fresh (snd (m w)) /\
             liveListeners (snd (m w)) = liveListeners w /\
             suspended (snd (m w)) = suspended w /\
             settled (snd (m w)) = settled w) ->
  shrinks m.
Proof.
  intros H w. destruct (H w) as (Hf & Hl & Hs & Ht). split; [exact Hf |].
  intros p. unfold tracked. rewrite Hl, Hs, Ht. lia.
Qed.

Lemma shrinks_this : shrinks this.
Proof. apply shrinks_same. intros w. cbn. auto. Qed.

Lemma shrinks_newId : shrinks newId.
Proof. apply shrinks_same. intros w. cbn. auto. Qed.

Lemma shrinks_Date_now : shrinks Date_now.
Proof. apply shrinks_same. intros w. cbn. auto. Qed.

Lemma shrinks_typeof : shrinks typeof_SharedArrayBuffer.
Proof. apply shrinks_same. intros w. cbn. auto. Qed.

Lemma shrinks_invoke (cb : Cb) (s : ProcessingState) : shrinks (invoke cb s).
Proof. apply shrinks_same. intros w. cbn. auto. Qed.

Lemma shrinks_invoke_opt (cb : option Cb) (s : ProcessingState) : shrinks (invoke_opt cb s).
Proof. destruct cb; [apply shrinks_invoke | apply shrinks_ret]. Qed.

Lemma shrinks_assign_same (f : FFmpegClient -> FFmpegClient) :
  (forall c, worker (f c) = worker c) -> shrinks (assign f).
Proof.
  intros Hf. apply shrinks_same. intros w. unfold liveListeners. cbn.
  rewrite Hf. auto.
Qed.

Lemma shrinks_window_setTimeout (cb : Cb) (ms : N) : shrinks (window_setTimeout cb ms).
Proof. apply shrinks_same. intros w. cbn. auto. Qed.

Lemma shrinks_window_clearTimeout (t : nat) : shrinks (window_clearTimeout t).
Proof. apply shrinks_same. intros w. cbn. auto. Qed.

Lemma shrinks_createObjectURL (b : Blob) : shrinks (URL_createObjectURL b).
Proof. apply shrinks_same. intros w. cbn. auto. Qed.

Lemma shrinks_randomUUID : shrinks crypto_randomUUID.
Proof. apply shrinks_same. intros w. cbn. auto. Qed.

Lemma shrinks_postMessage (m : WorkerMessage) : shrinks (postMessage m).
Proof.
  apply shrinks_same. intros w. unfold postMessage, bind, this.
  destruct (worker (client w)); cbn; auto.
Qed.

Ltac occ_norm :=
  unfold tracked;
  repeat (rewrite ?map_app, ?occurrences_app, ?occurrences_cons, ?occurrences_nil;
          cbn [map fst snd app call_promise listener_promise]).

Ltac olia := unfold PromiseId in *; lia.

Lemma not_dead (dead : list PromiseId) (w : World) :
  Forall (fun d => d < fresh w) dead -> existsb (Nat.eqb (fresh w)) dead = false.
Proof.
  induction 1 as [| d rest Hd _ IH]; [reflexivity |].
  cbn. rewrite IH. assert (E : Nat.eqb (fresh w) d = false) by (apply Nat.eqb_neq; lia).
  rewrite E. reflexivity.
Qed.

Lemma Good_newId (dead hand : list PromiseId) (w : World) :
  Good dead hand w -> Good dead (fst (newId w) :: hand) (snd (newId w)).
Proof.
  intros [Hd Hc]. split.
  - eapply Forall_impl; [| exact Hd]. cbn. intros d Hlt. lia.
  - intros p. specialize (Hc p). revert Hc. unfold cap. cbn [newId fst snd fresh set_fresh].
    rewrite <- app_comm_cons, occurrences_cons.
    replace (tracked (set_fresh (S (fresh w)) w)) with (tracked w) by reflexivity.
    destruct (Nat.eqb (fresh w) p) eqn:E.
    + apply Nat.eqb_eq in E. subst p. rewrite (not_dead dead w Hd).
      rewrite Nat.ltb_irrefl.
      assert (E : Nat.ltb (fresh w) (S (fresh w)) = true) by (apply Nat.ltb_lt; lia).
      rewrite E. cbv iota. olia.
    + destruct (existsb (Nat.eqb p) dead); [olia |].
      destruct (Nat.ltb p (fresh w)) eqn:E1.
      * apply Nat.ltb_lt in E1.
        assert (E2 : Nat.ltb p (S (fresh w)) = true) by (apply Nat.ltb_lt; lia).
        rewrite E2. olia.
      * destruct (Nat.ltb p (S (fresh w))); olia.
Qed.

Lemma Good_reject (dead hand : list PromiseId) (p : PromiseId) (msg : string) (w : World) :
  Good dead (p :: hand) w -> Good dead hand (snd (reject p msg w)).
Proof.
  intros HG. apply (Good_transfer dead (p :: hand) hand w _ HG); [cbn; lia |].
  intros q. unfold reject. cbn [snd]. unfold tracked, liveListeners.
  cbn [settled set_settled suspended client].
  occ_norm. olia.
Qed.

Lemma Good_resolve (dead hand : list PromiseId) (p : PromiseId) (v : Value) (w : World) :
  Good dead (p :: hand) w -> Good dead hand (snd (resolve p v w)).
Proof.
  intros HG. apply (Good_transfer dead (p :: hand) hand w _ HG); [cbn; lia |].
  intros q. unfold resolve. cbn [snd]. unfold tracked, liveListeners.
  cbn [settled set_settled suspended client].
  occ_norm. olia.
Qed.

Lemma Good_suspend (dead hand : list PromiseId) (c : Call) (w : World) :
  Good dead (call_promise c :: hand) w -> Good dead hand (snd (suspend c w)).
Proof.
  intros HG. apply (Good_transfer dead (call_promise c :: hand) hand w _ HG); [cbn; lia |].
  intros q. unfold suspend. cbn [snd]. unfold tracked, liveListeners.
  cbn [settled set_suspended suspended client].
  occ_norm. olia.
Qed.

Lemma Good_addEventListener (dead hand : list PromiseId) (l : Listener) (w : World) :
  Good dead (listener_promise l :: hand) w -> Good dead hand (snd (addEventListener l w)).
Proof.
  intros HG. unfold addEventListener. rewrite bind_eq. cbn [this fst snd].
  destruct (worker (client w)) as [wk |] eqn:E.
  - apply (Good_transfer dead (listener_promise l :: hand) hand w _ HG); [cbn; lia |].
    intros q. unfold assign. cbn [snd]. unfold tracked, liveListeners.
    cbn [settled suspended client set_client set_worker worker listeners]. rewrite E.
    occ_norm. olia.
  - cbn. apply (Good_drop dead hand (listener_promise l)). exact HG.
Qed.

Lemma Good_takeSuspended (dead hand : list PromiseId) (w : World) :
  Good dead hand w ->
  Good dead (map call_promise (suspended w) ++ hand) (snd (takeSuspended w)).
Proof.
  intros HG. apply (Good_transfer dead hand _ w _ HG); [cbn; lia |].
  intros q. unfold takeSuspended. cbn [snd]. unfold tracked, liveListeners.
  cbn [settled set_suspended suspended client].
  occ_norm. olia.
Qed.

Lemma MergeFormat_eqb_eq (a b : MergeFormat) : MergeFormat_eqb a b = true <-> a = b.
Proof. destruct a, b; cbn; split; congruence. Qed.

Lemma ResultHandler_eqb_eq (a b : ResultHandler) : ResultHandler_eqb a b = true <-> a = b.
Proof.
  destruct a as [| | | [fa]], b as [| | | [fb]]; cbn; try (split; congruence).
  rewrite MergeFormat_eqb_eq. split; congruence.
Qed.

Lemma Listener_eqb_eq (a b : Listener) : Listener_eqb a b = true <-> a = b.
Proof.
  destruct a as [p | k p], b as [q | j q]; cbn; try (split; congruence).
  - rewrite Nat.eqb_eq. split; congruence.
  - rewrite andb_true_iff, ResultHandler_eqb_eq, Nat.eqb_eq.
    split; [intros [-> ->]; reflexivity | intros E; inversion E; auto].
Qed.

Lemma Listener_eqb_refl (l : Listener) : Listener_eqb l l = true.
Proof. apply Listener_eqb_eq. reflexivity. Qed.

Lemma registered_In (l : Listener) (w : World) :
  registered l (client w) = true <-> In l (liveListeners w).
Proof.
  unfold registered, liveListeners. destruct (worker (client w)) as [wk |].
  - rewrite existsb_exists. split.
    + intros (x & Hx & E). apply Listener_eqb_eq in E. subst. exact Hx.
    + intros H. exists l. split; [exact H | apply Listener_eqb_refl].
  - cbn. split; [discriminate | tauto].
Qed.

(** Removing a listener that is registered frees its promise. *)
Lemma remove_frees (l : Listener) (ls : list Listener) (q : PromiseId) :
  In l ls ->
  occurrences q (map listener_promise (filter (fun x => negb (Listener_eqb x l)) ls)) +
  (if Nat.eqb (listener_promise l) q then 1 else 0)
  <= occurrences q (map listener_promise ls).
Proof.
  induction ls as [| x rest IH]; intros Hin; [destruct Hin |].
  cbn [filter]. destruct (Listener_eqb x l) eqn:E; cbn [negb map].
  - apply Listener_eqb_eq in E. subst x. rewrite occurrences_cons.
    assert (Hle : occurrences q (map listener_promise
                    (filter (fun x => negb (Listener_eqb x l)) rest))
                  <= occurrences q (map listener_promise rest)).
    { clear. induction rest as [| y r IHr]; [cbn; lia |].
      cbn [filter]. destruct (negb (Listener_eqb y l)); cbn [map];
        rewrite ?occurrences_cons; lia. }
    olia.
  - destruct Hin as [-> | Hin]; [rewrite Listener_eqb_refl in E; discriminate |].
    rewrite !occurrences_cons. specialize (IH Hin). olia.
Qed.

Lemma Good_removeEventListener (dead hand : list PromiseId) (l : Listener) (w : World) :
  registered l (client w) = true ->
  Good dead hand w ->
  Good dead (listener_promise l :: hand) (snd (removeEventListener l w)).
Proof.
  intros Hreg HG. pose proof (proj1 (registered_In l w) Hreg) as Hin.
  unfold removeEventListener. rewrite bind_eq. cbn [this fst snd].
  unfold liveListeners in Hin.
  destruct (worker (client w)) as [wk |] eqn:E; [| destruct Hin].
  apply (Good_transfer dead hand _ w _ HG); [cbn; lia |].
  intros q. unfold assign. cbn [snd]. unfold tracked, liveListeners.
  cbn [settled suspended client set_client set_worker worker listeners]. rewrite E.
  pose proof (remove_frees l (listeners wk) q Hin).
  occ_norm. olia.
Qed.

Lemma shrinks_removeEventListener (l : Listener) : shrinks (removeEventListener l).
Proof.
  intros w. unfold removeEventListener. rewrite bind_eq. cbn [this fst snd].
  destruct (worker (client w)) as [wk |] eqn:E.
  - split; [cbn; lia |]. intros q. unfold assign. cbn [snd]. unfold tracked, liveListeners.
    cbn [settled suspended client set_client set_worker worker listeners]. rewrite E.
    assert (Hle : occurrences q (map listener_promise
                    (filter (fun x => negb (Listener_eqb x l)) (listeners wk)))
                  <= occurrences q (map listener_promise (listeners wk))).
    { induction (listeners wk) as [| y r IHr]; [cbn; lia |].
      cbn [filter]. destruct (negb (Listener_eqb y l)); cbn [map];
        rewrite ?occurrences_cons; lia. }
    occ_norm. olia.
  - cbn. split; [lia | intros; lia].
Qed.

(** Taking a body that waits for its file out of the suspended ones. *)
Lemma unsuspend_frees (p q : PromiseId) (cs : list Call) (c : Call) :
  find (awaitsRead p) cs = Some c ->
  occurrences q (map call_promise (filter (fun x => negb (awaitsRead p x)) cs)) +
  (if Nat.eqb p q then 1 else 0)
  <= occurrences q (map call_promise cs).
Proof.
  induction cs as [| x rest IH]; intros Hf; [discriminate |].
  cbn [find filter] in *. destruct (awaitsRead p x) eqn:E; cbn [negb map].
  - rewrite occurrences_cons.
    assert (Hp : call_promise x = p).
    { unfold awaitsRead in E. apply andb_true_iff in E. destruct E as [E _].
      apply Nat.eqb_eq in E. exact E. }
    rewrite Hp.
    assert (Hle : occurrences q (map call_promise
                    (filter (fun x => negb (awaitsRead p x)) rest))
                  <= occurrences q (map call_promise rest)).
    { clear. induction rest as [| y r IHr]; [cbn; lia |].
      cbn [filter]. destruct (negb (awaitsRead p y)); cbn [map];
        rewrite ?occurrences_cons; lia. }
    olia.
  - rewrite !occurrences_cons. specialize (IH Hf). olia.
Qed.

Lemma Good_unsuspend (dead hand : list PromiseId) (p : PromiseId) (c : Call) (w : World) :
  find (awaitsRead p) (suspended w) = Some c ->
  Good dead hand w ->
  Good dead (p :: hand) (snd (unsuspend p w)).
Proof.
  intros Hf HG. apply (Good_transfer dead hand _ w _ HG); [cbn; lia |].
  intros q. unfold unsuspend. cbn [snd]. unfold tracked, liveListeners.
  cbn [settled set_suspended suspended client].
  pose proof (unsuspend_frees p q (suspended w) c Hf).
  occ_norm. olia.
Qed.

(** *** Composite actions that register and settle nothing *)

Lemma shrinks_clearTimeout : shrinks clearTimeout.
Proof.
  unfold clearTimeout. apply shrinks_bind; [apply shrinks_this |]. intros c.
  destruct (timeoutId c).
  - apply shrinks_bind; [apply shrinks_window_clearTimeout |]. intros _.
    apply shrinks_assign_same. reflexivity.
  - apply shrinks_ret.
Qed.

Lemma shrinks_startTimeout (cb : Cb) : shrinks (startTimeout cb).
Proof.
  unfold startTimeout.
  apply shrinks_bind; [apply shrinks_clearTimeout |]. intros _.
  apply shrinks_bind; [apply shrinks_window_setTimeout |]. intros t.
  apply shrinks_assign_same. reflexivity.
Qed.

Lemma shrinks_handleMessage (event : WorkerResponse) : shrinks (handleMessage event).
Proof.
  unfold handleMessage. destruct (r_type event).
  - apply shrinks_assign_same. reflexivity.
  - apply shrinks_bind; [apply shrinks_this |]. intros c.
    destruct (currentCallback c); [| apply shrinks_ret].
    destruct (payload_get p_progress event); [apply shrinks_invoke | apply shrinks_ret].
  - destruct (Js.truthy _); [| apply shrinks_ret].
    apply shrinks_bind; [apply shrinks_assign_same; reflexivity |]. intros _.
    apply shrinks_bind; [apply shrinks_this |]. intros c. apply shrinks_invoke_opt.
  - apply shrinks_bind; [apply shrinks_clearTimeout |]. intros _.
    apply shrinks_bind; [apply shrinks_this |]. intros c. apply shrinks_invoke_opt.
  - apply shrinks_bind; [apply shrinks_clearTimeout |]. intros _.
    apply shrinks_bind; [apply shrinks_this |]. intros c. apply shrinks_invoke_opt.
Qed.

Lemma shrinks_handleError (msg : string) : shrinks (handleError msg).
Proof.
  unfold handleError.
  apply shrinks_bind; [apply shrinks_clearTimeout |]. intros _.
  apply shrinks_bind; [apply shrinks_this |]. intros c. apply shrinks_invoke_opt.
Qed.

Lemma shrinks_drop_worker : shrinks (assign (set_worker None)).
Proof.
  intros w. split; [cbn; lia |]. intros q. unfold assign. cbn [snd].
  unfold tracked, liveListeners. cbn [settled suspended client set_client set_worker worker].
  occ_norm. olia.
Qed.

Lemma shrinks_terminate : shrinks terminate.
Proof.
  unfold terminate.
  apply shrinks_bind; [apply shrinks_clearTimeout |]. intros _.
  apply shrinks_bind; [apply shrinks_drop_worker |]. intros _.
  apply shrinks_bind; [apply shrinks_assign_same; reflexivity |]. intros _.
  apply shrinks_assign_same. reflexivity.
Qed.

Lemma shrinks_initWorker : shrinks initWorker.
Proof.
  unfold initWorker. apply shrinks_bind; [apply shrinks_newId |]. intros n.
  intros w. split; [cbn; lia |]. intros q. unfold assign. cbn [snd].
  unfold tracked, liveListeners.
  cbn [settled suspended client set_client set_worker worker listeners].
  occ_norm. olia.
Qed.

Lemma shrinks_onTimeout (cb : Cb) : shrinks (onTimeout cb).
Proof.
  unfold onTimeout. apply shrinks_bind; [apply shrinks_this |]. intros c.
  apply shrinks_bind; [apply shrinks_invoke |]. intros _.
  apply shrinks_bind; [apply shrinks_terminate |]. intros _.
  apply shrinks_initWorker.
Qed.

Lemma shrinks_fileResult (kind : CommandType) (mime prefix extension : string) (d : bytes) :
  shrinks (fileResult kind mime prefix extension d).
Proof.
  unfold fileResult.
  apply shrinks_bind; [apply shrinks_randomUUID |]. intros uuid.
  apply shrinks_bind; [apply shrinks_Date_now |]. intros stamp.
  apply shrinks_bind; [apply shrinks_Date_now |]. intros created.
  apply shrinks_bind; [apply shrinks_createObjectURL |]. intros url.
  apply shrinks_ret.
Qed.

Lemma shrinks_mapM {A B} (f : A -> M B) (l : list A) :
  (forall a, shrinks (f a)) -> shrinks (mapM f l).
Proof.
  intros Hf. induction l as [| a rest IH]; cbn [mapM]; [apply shrinks_ret |].
  apply shrinks_bind; [apply Hf |]. intros b.
  apply shrinks_bind; [apply IH |]. intros bs. apply shrinks_ret.
Qed.

Lemma shrinks_forEach {A} (l : list A) (f : A -> M unit) :
  (forall a, shrinks (f a)) -> shrinks (forEach l f).
Proof.
  intros Hf. induction l as [| a rest IH]; cbn [forEach]; [apply shrinks_ret |].
  apply shrinks_bind; [apply Hf |]. intros _. exact IH.
Qed.

Lemma shrinks_materialize (k : ResultHandler) (event : WorkerResponse) :
  shrinks (materialize k event).
Proof.
  unfold materialize. destruct k.
  - destruct (payload_get p_data event); [| apply shrinks_ret].
    apply shrinks_bind; [apply shrinks_fileResult |]. intros r. apply shrinks_ret.
  - destruct (payload_get p_frames event); [| apply shrinks_ret].
    apply shrinks_bind; [| intros r; apply shrinks_ret].
    unfold framesResult.
    apply shrinks_bind.
    { apply shrinks_mapM. intros f. unfold frameOf.
      apply shrinks_bind; [apply shrinks_createObjectURL |]. intros u. apply shrinks_ret. }
    intros fd.
    apply shrinks_bind; [apply shrinks_randomUUID |]. intros uuid.
    apply shrinks_bind; [apply shrinks_Date_now |]. intros stamp.
    apply shrinks_bind; [apply shrinks_Date_now |]. intros created.
    apply shrinks_ret.
  - destruct (payload_get p_data event); [| apply shrinks_ret].
    apply shrinks_bind; [apply shrinks_fileResult |]. intros r. apply shrinks_ret.
  - destruct (payload_get p_data event); [| apply shrinks_ret].
    apply shrinks_bind; [apply shrinks_fileResult |]. intros r. apply shrinks_ret.
Qed.

Create HintDb shrinks.
#[local] Hint Resolve shrinks_ret shrinks_this shrinks_newId shrinks_Date_now shrinks_typeof
  shrinks_invoke shrinks_invoke_opt shrinks_window_setTimeout shrinks_window_clearTimeout
  shrinks_createObjectURL shrinks_randomUUID shrinks_postMessage
  shrinks_removeEventListener shrinks_clearTimeout shrinks_startTimeout
  shrinks_handleMessage shrinks_handleError shrinks_terminate shrinks_initWorker
  shrinks_onTimeout shrinks_fileResult shrinks_materialize : shrinks.

Ltac mstep := rewrite bind_eq; cbn [this fst snd].

(** Backward chaining through a sequence of actions. *)
Ltac good :=
  repeat first
    [ assumption
    | apply Good_reject
    | apply Good_resolve
    | apply Good_suspend
    | apply Good_addEventListener
    | apply Good_newId
    | match goal with
      | |- Good _ _ (snd (assign ?f _)) =>
          apply (Good_shrinks (assign f)); [apply shrinks_assign_same; reflexivity |]
      | |- Good _ _ (snd (?m _)) =>
          apply (Good_shrinks m); [solve [auto with shrinks] |]
      end ].

Lemma Good_load (dead hand : list PromiseId) (cb : option Cb) (w : World) :
  Good dead hand w -> Good dead hand (snd (load cb w)).
Proof.
  intros HG. unfold load. mstep.
  destruct (isLoaded (client w)); [exact HG |].
  mstep. cbn [typeof_SharedArrayBuffer fst snd].
  destruct (hasSharedArrayBuffer w); cbn [negb].
  - destruct (loadPromise (client w)); [exact HG |].
    mstep. mstep. mstep. cbn [ret snd].
    destruct (worker (client w)).
    + mstep. mstep. good.
    + good.
  - mstep. cbn [ret snd]. good.
Qed.

Lemma Good_prepare (dead hand : list PromiseId) (p : PromiseId) (req : Request) (cb : Cb)
      (w : World) :
  Good dead (p :: hand) w -> Good dead hand (snd (prepare p req cb w)).
Proof.
  intros HG. unfold prepare. mstep. mstep. mstep.
  apply Good_suspend. cbn [call_promise]. good.
Qed.

Lemma Good_submit (dead hand : list PromiseId) (p : PromiseId) (req : Request)
      (buffers : list bytes) (w : World) :
  Good dead (p :: hand) w -> Good dead hand (snd (submit p req buffers w)).
Proof.
  intros HG. unfold submit. mstep. destruct (worker (client w)).
  - mstep. apply (Good_shrinks (postMessage _)); [auto with shrinks |].
    apply Good_addEventListener. cbn [listener_promise]. exact HG.
  - good.
Qed.

Lemma Good_start (dead hand : list PromiseId) (p : PromiseId) (req : Request) (cb : Cb)
      (w : World) :
  Good dead (p :: hand) w -> Good dead hand (snd (start p req cb w)).
Proof.
  intros HG. unfold start. mstep.
  pose proof (Good_load dead (p :: hand) (Some cb) w HG) as HL.
  destruct (fst (load (Some cb) w)).
  - apply Good_prepare. exact HL.
  - good.
  - apply Good_suspend. cbn [call_promise]. exact HL.
Qed.

Lemma Good_trim (dead hand : list PromiseId) (file : File) (s : TrimSettings) (cb : Cb)
      (w : World) :
  Good dead hand w -> Good dead hand (snd (trim file s cb w)).
Proof.
  intros HG. unfold trim. mstep. mstep. cbn [ret snd].
  apply Good_start. good.
Qed.

Lemma Good_extractFrames (dead hand : list PromiseId) (file : File) (s : FrameSettings)
      (cb : Cb) (w : World) :
  Good dead hand w -> Good dead hand (snd (extractFrames file s cb w)).
Proof.
  intros HG. unfold extractFrames. mstep. mstep. cbn [ret snd].
  apply Good_start. good.
Qed.

Lemma Good_convert (dead hand : list PromiseId) (file : File) (s : ConvertSettings)
      (cb : Cb) (w : World) :
  Good dead hand w -> Good dead hand (snd (convert file s cb w)).
Proof.
  intros HG. unfold convert. mstep. mstep. cbn [ret snd].
  apply Good_start. good.
Qed.

Lemma Good_merge (dead hand : list PromiseId) (cs : list Clip) (s : MergeSettings)
      (cb : Cb) (w : World) :
  Good dead hand w -> Good dead hand (snd (merge cs s cb w)).
Proof.
  intros HG. unfold merge. mstep. mstep. cbn [ret snd].
  destruct (Nat.ltb (List.length cs) 2).
  - good.
  - apply Good_start. good.
Qed.

Lemma Good_runListener (dead hand : list PromiseId) (l : Listener) (event : WorkerResponse)
      (w : World) :
  registered l (client w) = true ->
  Good dead hand w -> Good dead hand (snd (runListener l event w)).
Proof.
  intros Hreg HG. destruct l as [p | k p]; cbn [runListener].
  - unfold runHandleLoad. destruct (r_type event); try exact HG.
    + mstep. apply Good_resolve.
      apply (Good_removeEventListener dead hand (handleLoad p) w Hreg HG).
    + mstep. apply Good_reject.
      apply (Good_removeEventListener dead hand (handleLoad p) w Hreg HG).
  - unfold runHandleResult. destruct (r_type event); try exact HG.
    + mstep. mstep.
      pose proof (Good_removeEventListener dead hand (handleResult k p) w Hreg HG) as H1.
      cbn [listener_promise] in H1.
      destruct (fst (materialize k event _)).
      * apply Good_resolve. good.
      * cbn [skip ret snd]. apply (Good_drop dead hand p). good.
    + mstep. apply Good_reject.
      apply (Good_removeEventListener dead hand (handleResult k p) w Hreg HG).
Qed.

Lemma Good_forEach {A} (dead hand : list PromiseId) (l : list A) (f : A -> M unit) :
  (forall a w, Good dead hand w -> Good dead hand (snd (f a w))) ->
  forall w, Good dead hand w -> Good dead hand (snd (forEach l f w)).
Proof.
  intros Hf. induction l as [| a rest IH]; intros w HG; cbn [forEach].
  - exact HG.
  - rewrite bind_eq. apply IH. apply Hf. exact HG.
Qed.

Lemma Good_dispatchMessage (dead hand : list PromiseId) (from : nat)
      (event : WorkerResponse) (w : World) :
  Good dead hand w -> Good dead hand (snd (dispatchMessage from event w)).
Proof.
  intros HG. unfold dispatchMessage. mstep.
  destruct (worker (client w)) as [wk |]; [| exact HG].
  destruct (Nat.eqb (worker_id wk) from); [| exact HG].
  mstep. apply Good_forEach.
  - intros l w' HG'. mstep. destruct (registered l (client w')) eqn:E.
    + apply Good_runListener; assumption.
    + exact HG'.
  - good.
Qed.

Lemma Good_dispatchError (dead hand : list PromiseId) (from : nat) (msg : string)
      (w : World) :
  Good dead hand w -> Good dead hand (snd (dispatchError from msg w)).
Proof.
  intros HG. unfold dispatchError. mstep.
  destruct (worker (client w)) as [wk |]; [| exact HG].
  destruct (Nat.eqb (worker_id wk) from); [| exact HG].
  good.
Qed.

Lemma Good_fileRead (dead hand : list PromiseId) (p : PromiseId)
      (result : option (list bytes)) (w : World) :
  Good dead hand w -> Good dead hand (snd (fileRead p result w)).
Proof.
  intros HG. unfold fileRead.
  destruct (find (awaitsRead p) (suspended w)) as [c |] eqn:Hf; [| exact HG].
  destruct result as [buffers |].
  - destruct (Nat.eqb (List.length buffers) (readsOf (call_request c))); [| exact HG].
    mstep. apply Good_submit. apply (Good_unsuspend dead hand p c w Hf HG).
  - mstep. apply Good_reject. apply (Good_unsuspend dead hand p c w Hf HG).
Qed.

Lemma Good_elapse (dead hand : list PromiseId) (ms : N) (w : World) :
  Good dead hand w -> Good dead hand (snd (elapse ms w)).
Proof.
  intros HG. unfold elapse. mstep.
  apply Good_forEach.
  - intros t w' HG'. destruct (_ && _); [| exact HG'].
    mstep. good.
  - exact HG.
Qed.

Lemma Good_wake (dead hand : list PromiseId) (c : Call) (w : World) :
  Good dead (call_promise c :: hand) w -> Good dead hand (snd (wake c w)).
Proof.
  intros HG. unfold wake. destruct (call_stage c).
  - destruct (promiseState lp w) as [[v | msg] |].
    + apply Good_prepare. exact HG.
    + good.
    + good.
  - good.
Qed.

Lemma Good_wake_all (dead hand : list PromiseId) (cs : list Call) :
  forall w,
    Good dead (map call_promise cs ++ hand) w ->
    Good dead hand (snd (forEach cs wake w)).
Proof.
  induction cs as [| c rest IH]; intros w HG; cbn [forEach].
  - exact HG.
  - rewrite bind_eq. apply IH.
    cbn [map] in HG. rewrite <- app_comm_cons in HG.
    apply Good_wake. exact HG.
Qed.

Lemma Good_microtasks (dead hand : list PromiseId) (w : World) :
  Good dead hand w -> Good dead hand (snd (microtasks w)).
Proof.
  intros HG. unfold microtasks. rewrite bind_eq.
  apply Good_wake_all. apply Good_takeSuspended. exact HG.
Qed.

Lemma Good_step (dead : list PromiseId) (ev : Event) (w : World) :
  Good dead [] w -> Good dead [] (step ev w).
Proof.
  intros HG. unfold step. rewrite bind_eq. apply Good_microtasks.
  destruct ev; cbn [task]; try (rewrite bind_eq; cbn [skip ret snd]).
  - apply Good_load. exact HG.
  - apply Good_trim. exact HG.
  - apply Good_extractFrames. exact HG.
  - apply Good_convert. exact HG.
  - apply Good_merge. exact HG.
  - good.
  - apply Good_dispatchMessage. exact HG.
  - apply Good_dispatchError. exact HG.
  - apply Good_fileRead. exact HG.
  - apply Good_elapse. exact HG.
Qed.

Lemma Good_run (dead : list PromiseId) (evs : list Event) :
  forall w, Good dead [] w -> Good dead [] (run evs w).
Proof.
  induction evs as [| ev rest IH]; intros w HG; cbn [run fold_left]; [exact HG |].
  apply IH. apply Good_step. exact HG.
Qed.

Lemma Good_newWorld (sab : bool) : Good [] [] (newWorld sab).
Proof.
  split; [constructor |]. intros p. cbn. unfold cap. cbn.
  destruct (Nat.ltb p 1); lia.
Qed.

(** *** What the invariant gives *)

Lemma fired_occurrences (p : PromiseId) (w : World) :
  fired p w = occurrences p (map fst (settled w)).
Proof.
  unfold fired. induction (settled w) as [| [q o] rest IH]; [reflexivity |].
  cbn [filter map fst]. rewrite occurrences_cons.
  destruct (Nat.eqb q p); cbn [List.length]; rewrite IH; reflexivity.
Qed.

Lemma cap_le_1 (dead : list PromiseId) (p : PromiseId) (w : World) : cap dead p w <= 1.
Proof.
  unfold cap. destruct (existsb (Nat.eqb p) dead); [lia |].
  destruct (Nat.ltb p (fresh w)); lia.
Qed.

Lemma Good_fired (dead hand : list PromiseId) (p : PromiseId) (w : World) :
  Good dead hand w -> fired p w <= 1.
Proof.
  intros [_ Hc]. specialize (Hc p). rewrite fired_occurrences.
  unfold tracked in Hc. rewrite !occurrences_app in Hc.
  pose proof (cap_le_1 dead p w). olia.
Qed.

Lemma occurrences_In (p : PromiseId) (l : list PromiseId) :
  In p l -> 1 <= occurrences p l.
Proof.
  intros H. unfold occurrences. apply (count_occ_In Nat.eq_dec) in H. lia.
Qed.

Lemma Good_registered_pending (dead hand : list PromiseId) (l : Listener) (w : World) :
  Good dead hand w ->
  registered l (client w) = true ->
  fired (listener_promise l) w = 0.
Proof.
  intros HG Hreg. destruct HG as [_ Hc]. specialize (Hc (listener_promise l)).
  apply registered_In in Hreg.
  pose proof (occurrences_In (listener_promise l) (map listener_promise (liveListeners w))
                (in_map listener_promise _ _ Hreg)) as H1.
  rewrite fired_occurrences. unfold tracked in Hc. rewrite !occurrences_app in Hc.
  pose proof (cap_le_1 dead (listener_promise l) w). olia.
Qed.



Lemma first_outcome_unique (p : PromiseId) (o : Outcome) (l : list (PromiseId * Outcome)) :
  occurrences p (map fst l) <= 1 -> In (p, o) l -> first_outcome p l = Some o.
Proof.
  induction l as [| [q o'] rest IH]; intros Hc Hin; [destruct Hin |].
  cbn [first_outcome]. cbn [map fst] in Hc. rewrite occurrences_cons in Hc.
  destruct (Nat.eqb q p) eqn:E.
  - destruct Hin as [Heq | Hin]; [congruence |].
    apply (in_map fst) in Hin. cbn [fst] in Hin. apply occurrences_In in Hin. olia.
  - destruct Hin as [Heq | Hin].
    + inversion Heq. subst. rewrite Nat.eqb_refl in E. discriminate.
    + apply IH; [olia | exact Hin].
Qed.

Lemma Good_promiseState (dead hand : list PromiseId) (p : PromiseId) (o : Outcome)
      (w : World) :
  Good dead hand w -> In (p, o) (settled w) -> promiseState p w = Some o.
Proof.
  intros HG Hin. apply first_outcome_unique; [| exact Hin].
  rewrite <- fired_occurrences. apply (Good_fired dead hand p w HG).
Qed.


(** The reachable worlds. *)
Lemma Good_reachable (sab : bool) (evs : list Event) : Good [] [] (run evs (newWorld sab)).
Proof. apply Good_run. apply Good_newWorld. Qed.

Lemma run_app (evs1 evs2 : list Event) (w : World) :
  run (evs1 ++ evs2) w = run evs2 (run evs1 w).
Proof. unfold run. apply fold_left_app. Qed.


(** ** One settlement per call *)

Lemma removed_not_registered (l : Listener) (w : World) :
  registered l (client (snd (removeEventListener l w))) = false.
Proof.
  unfold removeEventListener. rewrite bind_eq. cbn [this fst snd]. unfold registered.
  destruct (worker (client w)) as [wk |] eqn:E.
  - cbn. induction (listeners wk) as [| x rest IH]; [reflexivity |].
    cbn [filter]. destruct (Listener_eqb x l) eqn:Ex; cbn [negb]; [exact IH |].
    cbn [existsb]. rewrite IH.
    assert (Exl : Listener_eqb l x = false).
    { destruct (Listener_eqb l x) eqn:E2; [| reflexivity].
      apply Listener_eqb_eq in E2. subst x. rewrite Listener_eqb_refl in Ex. discriminate. }
    rewrite Exl. reflexivity.
  - cbn. rewrite E. reflexivity.
Qed.

Lemma materialize_client (k : ResultHandler) (event : WorkerResponse) (w : World) :
  client (snd (materialize k event w)) = client w /\
  settled (snd (materialize k event w)) = settled w /\
  (hasOutput k event = true -> exists r, fst (materialize k event w) = Some r) /\
  (hasOutput k event = false -> fst (materialize k event w) = None).
Proof.
  unfold materialize, hasOutput.
  destruct k; try (destruct (payload_get p_data event);
    [rewrite bind_eq; cbn [ret fst snd]; unfold fileResult; rewrite !bind_eq; cbn;
     repeat split; eauto; discriminate
    | cbn; repeat split; auto; discriminate]).
  destruct (payload_get p_frames event) as [fs |].
  - rewrite bind_eq. cbn [ret fst snd]. unfold framesResult. rewrite !bind_eq.
    destruct (frames_materialized fs w) as (_ & _ & Hs & Hc & _).
    unfold crypto_randomUUID, Date_now, newId. rewrite !bind_eq. cbn.
    rewrite Hs, Hc. repeat split; eauto; discriminate.
  - cbn. repeat split; auto; discriminate.
Qed.

Lemma runHandleResult_terminal (k : ResultHandler) (p : PromiseId) (event : WorkerResponse)
      (w : World) :
  match r_type event with
  | rError =>
      settled (snd (runHandleResult k p event w)) =
        settled w ++ [(p, Rejected (errorMessage event))] /\
      registered (handleResult k p) (client (snd (runHandleResult k p event w))) = false
  | rComplete =>
      registered (handleResult k p) (client (snd (runHandleResult k p event w))) = false /\
      (hasOutput k event = true ->
       exists r, settled (snd (runHandleResult k p event w)) =
                 settled w ++ [(p, Resolved (VResult r))]) /\
      (hasOutput k event = false ->
       settled (snd (runHandleResult k p event w)) = settled w)
  | _ => snd (runHandleResult k p event w) = w
  end.
Proof.
  unfold runHandleResult. destruct (r_type event); try reflexivity.
  - rewrite !bind_eq.
    set (w1 := snd (removeEventListener (handleResult k p) w)).
    assert (Hs1 : settled w1 = settled w)
      by apply (proj1 (removeEventListener_keeps (handleResult k p) w)).
    destruct (materialize_client k event w1) as (Hc & Hs & Hyes & Hno).
    pose proof (removed_not_registered (handleResult k p) w) as Hr. fold w1 in Hr.
    destruct (hasOutput k event).
    + destruct (Hyes eq_refl) as [r Hr']. rewrite Hr'.
      split; [cbn; rewrite Hc; exact Hr |]. split; [| discriminate].
      intros _. exists r. cbn. rewrite Hs, Hs1. reflexivity.
    + rewrite (Hno eq_refl). cbn [skip ret snd].
      split; [rewrite Hc; exact Hr |]. split; [discriminate |].
      intros _. rewrite Hs, Hs1. reflexivity.
  - rewrite bind_eq.
    pose proof (removed_not_registered (handleResult k p) w) as Hr.
    split; [| exact Hr].
    cbn [reject snd settled set_settled].
    rewrite (proj1 (removeEventListener_keeps (handleResult k p) w)). reflexivity.
Qed.

(** ** What resuming suspended bodies leaves alone *)

Lemma calm_ret {A} (a : A) : calm (ret a).
Proof. intros w. cbn. repeat split. exists []. rewrite app_nil_r. reflexivity. Qed.

Lemma calm_bind {A B} (m : M A) (k : A -> M B) :
  calm m -> (forall a, calm (k a)) -> calm (bind m k).
Proof.
  intros Hm Hk w. rewrite bind_eq.
  destruct (Hm w) as (H1 & H2 & H3 & H4 & H5 & H6 & a1 & H7).
  destruct (Hk (fst (m w)) (snd (m w))) as (K1 & K2 & K3 & K4 & K5 & K6 & a2 & K7).
  repeat split; try congruence.
  exists (a1 ++ a2). rewrite K7, H7, app_assoc. reflexivity.
Qed.

Lemma calm_same {A} (m : M A) :
  (forall w,
     worker (client (snd (m w))) = worker (client w) /\
     isLoaded (client (snd (m w))) = isLoaded (client w) /\
     loadPromise (client (snd (m w))) = loadPromise (client w) /\
     notified (snd (m w)) = notified w /\
     posted (snd (m w)) = posted w /\
     hasSharedArrayBuffer (snd (m w)) = hasSharedArrayBuffer w /\
     settled (snd (m w)) = settled w) ->
  calm m.
Proof.
  intros H w. destruct (H w) as (H1 & H2 & H3 & H4 & H5 & H6 & H7).
  repeat split; try assumption. exists []. rewrite app_nil_r. exact H7.
Qed.

Lemma calm_this : calm this.
Proof. apply calm_same. intros w. cbn. repeat split. Qed.

Lemma calm_newId : calm newId.
Proof. apply calm_same. intros w. cbn. repeat split. Qed.

Lemma calm_window_setTimeout (cb : Cb) (ms : N) : calm (window_setTimeout cb ms).
Proof. apply calm_same. intros w. cbn. repeat split. Qed.

Lemma calm_window_clearTimeout (t : nat) : calm (window_clearTimeout t).
Proof. apply calm_same. intros w. cbn. repeat split. Qed.

Lemma calm_suspend (c : Call) : calm (suspend c).
Proof. apply calm_same. intros w. cbn. repeat split. Qed.

Lemma calm_takeSuspended : calm takeSuspended.
Proof. apply calm_same. intros w. cbn. repeat split. Qed.

Lemma calm_reject (p : PromiseId) (msg : string) : calm (reject p msg).
Proof. intros w. cbn. repeat split. eexists. reflexivity. Qed.

Lemma calm_set_logs (x : list string) : calm (assign (set_logs x)).
Proof. apply calm_same. intros w. cbn. repeat split. Qed.

Lemma calm_set_currentCallback (x : option Cb) : calm (assign (set_currentCallback x)).
Proof. apply calm_same. intros w. cbn. repeat split. Qed.

Lemma calm_set_timeoutId (x : option nat) : calm (assign (set_timeoutId x)).
Proof. apply calm_same. intros w. cbn. repeat split. Qed.

Lemma calm_clearTimeout : calm clearTimeout.
Proof.
  unfold clearTimeout. apply calm_bind; [apply calm_this |]. intros c.
  destruct (timeoutId c); [| apply calm_ret].
  apply calm_bind; [apply calm_window_clearTimeout |]. intros _. apply calm_set_timeoutId.
Qed.

Lemma calm_startTimeout (cb : Cb) : calm (startTimeout cb).
Proof.
  unfold startTimeout.
  apply calm_bind; [apply calm_clearTimeout |]. intros _.
  apply calm_bind; [apply calm_window_setTimeout |]. intros t. apply calm_set_timeoutId.
Qed.

Lemma calm_prepare (p : PromiseId) (req : Request) (cb : Cb) : calm (prepare p req cb).
Proof.
  unfold prepare.
  apply calm_bind; [apply calm_set_logs |]. intros _.
  apply calm_bind; [apply calm_set_currentCallback |]. intros _.
  apply calm_bind; [apply calm_startTimeout |]. intros _. apply calm_suspend.
Qed.

Lemma calm_wake (c : Call) : calm (wake c).
Proof.
  unfold wake. destruct (call_stage c); [| apply calm_suspend].
  intros w. destruct (promiseState lp w) as [[v | msg] |].
  - apply calm_prepare.
  - apply calm_reject.
  - apply calm_suspend.
Qed.

Lemma calm_forEach {A} (l : list A) (f : A -> M unit) :
  (forall a, calm (f a)) -> calm (forEach l f).
Proof.
  intros Hf. induction l as [| a rest IH]; cbn [forEach]; [apply calm_ret |].
  apply calm_bind; [apply Hf |]. intros _. exact IH.
Qed.

Lemma calm_microtasks : calm microtasks.
Proof.
  unfold microtasks. apply calm_bind; [apply calm_takeSuspended |]. intros cs.
  apply calm_forEach. apply calm_wake.
Qed.

Lemma forEach_app {A} (l1 l2 : list A) (f : A -> M unit) (w : World) :
  snd (forEach (l1 ++ l2) f w) = snd (forEach l2 f (snd (forEach l1 f w))).
Proof.
  revert w. induction l1 as [| a rest IH]; intros w; [reflexivity |].
  rewrite <- app_comm_cons. cbn [forEach]. rewrite !bind_eq. apply IH.
Qed.


(** ** After terminate *)

Lemma task_callOf (req : Request) (cb : Cb) (w : World) :
  enoughClips req ->
  snd (task (callOf req cb) w) = snd (start (fresh w) req cb (snd (newId w))).
Proof.
  intros He. destruct req; cbn [callOf task];
    unfold trim, extractFrames, convert, merge; rewrite !bind_eq; cbn [ret skip snd];
    try reflexivity.
  cbn [enoughClips] in He. apply Nat.ltb_ge in He. rewrite He. reflexivity.
Qed.

Lemma terminate_spec (w : World) :
  worker (client (snd (terminate w))) = None /\
  isLoaded (client (snd (terminate w))) = false /\
  loadPromise (client (snd (terminate w))) = None /\
  timeoutId (client (snd (terminate w))) = None /\
  hasSharedArrayBuffer (snd (terminate w)) = hasSharedArrayBuffer w /\
  posted (snd (terminate w)) = posted w /\
  notified (snd (terminate w)) = notified w /\
  settled (snd (terminate w)) = settled w /\
  suspended (snd (terminate w)) = suspended w /\
  fresh (snd (terminate w)) = fresh w.
Proof.
  unfold terminate, clearTimeout. rewrite !bind_eq. cbn [this fst snd].
  destruct (timeoutId (client w)) eqn:E; rewrite ?bind_eq; cbn; repeat split.
  exact E.
Qed.

(** [load] on a client without a worker: the new promise is rejected at
    once, and memoized. *)
Lemma load_without_worker (cb : option Cb) (w : World) :
  isLoaded (client w) = false ->
  hasSharedArrayBuffer w = true ->
  loadPromise (client w) = None ->
  worker (client w) = None ->
  fst (load cb w) = Returns (fresh w) /\
  settled (snd (load cb w)) = settled w ++ [(fresh w, Rejected NO_WORKER)] /\
  worker (client (snd (load cb w))) = None /\
  isLoaded (client (snd (load cb w))) = false /\
  loadPromise (client (snd (load cb w))) = Some (fresh w) /\
  posted (snd (load cb w)) = posted w /\
  notified (snd (load cb w)) = notified w /\
  suspended (snd (load cb w)) = suspended w.
Proof.
  intros Hl Hs Hp Hw. unfold load, bind, this, typeof_SharedArrayBuffer.
  rewrite Hl, Hs, Hp, Hw. cbn. rewrite ?Hw, ?Hl. repeat split.
Qed.

(** C9, as the code has it.  [terminate] resets the session to unloaded and
    leaves the client without a worker; no worker is created on the next
    use.  A command issued afterwards posts nothing and rejects with
    'Worker not initialized'. *)
Theorem C9_terminate_leaves_no_worker
        (sab : bool) (evs : list Event) (req : Request) (cb : Cb) :
  hasSharedArrayBuffer (run evs (newWorld sab)) = true ->
  enoughClips req ->
  (worker (client (step Terminate (run evs (newWorld sab)))) = None /\
   isLoaded (client (step Terminate (run evs (newWorld sab)))) = false /\
   loadPromise (client (step Terminate (run evs (newWorld sab)))) = None) /\
  (promiseState (fresh (step Terminate (run evs (newWorld sab))))
                (step (callOf req cb) (step Terminate (run evs (newWorld sab)))) =
     Some (Rejected "Worker not initialized") /\
   worker (client (step (callOf req cb) (step Terminate (run evs (newWorld sab))))) = None /\
   posted (step (callOf req cb) (step Terminate (run evs (newWorld sab)))) =
     posted (run evs (newWorld sab))).
Proof.
  intros Hsab Hreq.
  set (w := run evs (newWorld sab)) in *.
  assert (HG : Good [] [] w) by apply Good_reachable.
  (* after terminate *)
  set (w1 := step Terminate w).
  assert (HG1 : Good [] [] w1) by (apply Good_step; exact HG).
  destruct (terminate_spec w) as (Tw & Tl & Tp & _ & Ts & Tpo & _ & _ & _ & _).
  destruct (calm_microtasks (snd (terminate w))) as (M1 & M2 & M3 & _ & M5 & M6 & _).
  assert (E1 : w1 = snd (microtasks (snd (terminate w)))).
  { unfold w1, step. rewrite bind_eq. reflexivity. }
  assert (W1 : worker (client w1) = None) by (rewrite E1; congruence).
  assert (L1 : isLoaded (client w1) = false) by (rewrite E1; congruence).
  assert (P1 : loadPromise (client w1) = None) by (rewrite E1; congruence).
  assert (S1 : hasSharedArrayBuffer w1 = true) by (rewrite E1, M6, Ts; exact Hsab).
  assert (Po1 : posted w1 = posted w) by (rewrite E1, M5; exact Tpo).
  split; [repeat split; assumption |].
  (* the command *)
  set (p := fresh w1).
  set (w0 := snd (newId w1)).
  assert (HG0 : Good [] [p] w0) by (apply (Good_newId [] [] w1 HG1)).
  destruct (load_without_worker (Some cb) w0 L1 S1 P1 W1)
    as (Lr & Lset & Lw & Ll & _ & Lpo & _ & Lsus).
  set (lp := fresh w0) in *.
  set (call := {| call_promise := p; call_request := req; call_callback := cb;
                  call_stage := AwaitLoad lp |}).
  set (wt := snd (task (callOf req cb) w1)).
  assert (Et : wt = snd (suspend call (snd (load (Some cb) w0)))).
  { unfold wt. rewrite (task_callOf req cb w1 Hreq). fold p w0.
    unfold start. rewrite bind_eq, Lr. reflexivity. }
  assert (HGt : Good [] [] wt).
  { rewrite Et. apply Good_suspend. apply Good_load. exact HG0. }
  assert (Tsus : suspended wt = suspended w1 ++ [call]).
  { rewrite Et. cbn [suspend snd suspended set_suspended]. rewrite Lsus. reflexivity. }
  assert (Tset : settled wt = settled w1 ++ [(lp, Rejected NO_WORKER)]).
  { rewrite Et. cbn [suspend snd settled set_suspended]. rewrite Lset. reflexivity. }
  assert (Tw' : worker (client wt) = None) by (rewrite Et; exact Lw).
  assert (Tpo' : posted wt = posted w).
  { rewrite Et. cbn [suspend snd posted set_suspended]. rewrite Lpo. exact Po1. }
  (* the microtask checkpoint *)
  set (wk := snd (takeSuspended wt)).
  set (w3 := snd (forEach (suspended w1) wake wk)).
  assert (E2 : step (callOf req cb) w1 = snd (wake call w3)).
  { unfold step. rewrite bind_eq. fold wt. unfold microtasks. rewrite bind_eq.
    cbn [takeSuspended fst]. fold wk. rewrite Tsus, forEach_app. fold w3.
    cbn [forEach]. rewrite bind_eq. reflexivity. }
  assert (HG3 : Good [] [p] w3).
  { apply Good_wake_all. pose proof (Good_takeSuspended [] [] wt HGt) as H.
    rewrite Tsus, map_app, <- app_assoc in H. exact H. }
  destruct (calm_forEach (suspended w1) wake calm_wake wk)
    as (C1 & _ & _ & _ & C5 & _ & added & C7).
  fold w3 in C1, C5, C7.
  assert (Hin : In (lp, Rejected NO_WORKER) (settled w3)).
  { rewrite C7. apply in_or_app. left. unfold wk. cbn [takeSuspended snd settled set_suspended].
    rewrite Tset. apply in_or_app. right. left. reflexivity. }
  assert (Ew : snd (wake call w3) = snd (reject p NO_WORKER w3)).
  { unfold wake. cbn [call call_stage call_promise].
    rewrite (Good_promiseState [] [p] lp _ w3 HG3 Hin). reflexivity. }
  rewrite E2, Ew.
  assert (HG2 : Good [] [] (snd (reject p NO_WORKER w3))).
  { rewrite <- Ew, <- E2. apply Good_step. exact HG1. }
  split; [| split].
  - apply (Good_promiseState [] [] p _ _ HG2).
    cbn [reject snd settled set_settled]. apply in_or_app. right. left. reflexivity.
  - cbn [reject snd client set_settled]. rewrite C1. exact Tw'.
  - cbn [reject snd posted set_settled]. rewrite C5. exact Tpo'.
Qed.

Lemma C9_terminate_leaves_no_worker_witness :
  promiseState 1 (run [Terminate; Trim "sample.mp4" sampleTrim 7] (newWorld true)) =
    Some (Rejected "Worker not initialized") /\
  worker (client (run [Terminate; Trim "sample.mp4" sampleTrim 7] (newWorld true))) = None /\
  posted (run [Terminate; Trim "sample.mp4" sampleTrim 7] (newWorld true)) = [].
Proof.
  exact (proj2 (C9_terminate_leaves_no_worker true [] (ReqTrim "sample.mp4" sampleTrim) 7
                  eq_refl I)).
Defined.

(** C9 as the spec states it fails: after [terminate], a trim on the same
    client is rejected and stays so although its file is read and time
    passes; the client still has no worker. *)
Lemma C9_no_worker_after_terminate :
  promiseState 1 (run [Terminate; Trim "sample.mp4" sampleTrim 7;
                       FileRead 1 (Some [[x00]]); Elapse TIMEOUT_MS] (newWorld true)) =
    Some (Rejected "Worker not initialized") /\
  worker (client (run [Terminate; Trim "sample.mp4" sampleTrim 7;
                       FileRead 1 (Some [[x00]]); Elapse TIMEOUT_MS] (newWorld true))) = None /\
  posted (run [Terminate; Trim "sample.mp4" sampleTrim 7;
               FileRead 1 (Some [[x00]]); Elapse TIMEOUT_MS] (newWorld true)) = [].
Proof. vm_compute. repeat split. Qed.

(** ** Load *)

Lemma load_when_loaded (cb : option Cb) (w : World) :
  isLoaded (client w) = true -> load cb w = (Returned, w).
Proof. intros H. unfold load, bind, this. rewrite H. reflexivity. Qed.

Lemma load_in_flight (cb : option Cb) (p : PromiseId) (w : World) :
  isLoaded (client w) = false ->
  hasSharedArrayBuffer w = true ->
  loadPromise (client w) = Some p ->
  load cb w = (Returns p, w).
Proof.
  intros Hl Hs Hp. unfold load, bind, this, typeof_SharedArrayBuffer.
  rewrite Hl, Hs, Hp. reflexivity.
Qed.

Lemma load_first (cb : option Cb) (wk : Worker) (w : World) :
  isLoaded (client w) = false ->
  hasSharedArrayBuffer w = true ->
  loadPromise (client w) = None ->
  worker (client w) = Some wk ->
  fst (load cb w) = Returns (fresh w) /\
  worker (client (snd (load cb w))) =
    Some {| worker_id := worker_id wk; listeners := listeners wk ++ [handleLoad (fresh w)] |} /\
  isLoaded (client (snd (load cb w))) = false /\
  loadPromise (client (snd (load cb w))) = Some (fresh w) /\
  hasSharedArrayBuffer (snd (load cb w)) = true /\
  posted (snd (load cb w)) = posted w ++ [(worker_id wk, MsgLoad)] /\
  settled (snd (load cb w)) = settled w /\
  suspended (snd (load cb w)) = suspended w /\
  notified (snd (load cb w)) =
    notified w ++ match cb with
                  | Some f => [(f, {| status := loading; progress := 0;
                                      message := "Loading FFmpeg..."; state_logs := [] |})]
                  | None => []
                  end.
Proof.
  intros Hl Hs Hp Hw. unfold load, bind, this, typeof_SharedArrayBuffer.
  rewrite Hl, Hs, Hp, Hw. cbn.
  unfold addEventListener, postMessage, bind, this. cbn. rewrite Hw. cbn.
  destruct cb; cbn; rewrite ?app_nil_r; repeat split; assumption.
Qed.

Lemma loads_in_flight (cbs : list (option Cb)) (p : PromiseId) (w : World) :
  isLoaded (client w) = false ->
  hasSharedArrayBuffer w = true ->
  loadPromise (client w) = Some p ->
  mapM load cbs w = (map (fun _ => Returns p) cbs, w).
Proof.
  intros Hl Hs Hp. induction cbs as [| cb rest IH]; [reflexivity |].
  cbn [mapM map]. unfold bind at 1. rewrite (load_in_flight cb p w Hl Hs Hp).
  unfold bind at 1. rewrite IH. reflexivity.
Qed.

(** What a listener leaves alone. *)
Lemma runListener_frame (l : Listener) (event : WorkerResponse) (w : World) :
  isLoaded (client (snd (runListener l event w))) = isLoaded (client w) /\
  (exists added, settled (snd (runListener l event w)) = settled w ++ added) /\
  (forall l', l' <> l -> registered l' (client w) = true ->
              registered l' (client (snd (runListener l event w))) = true).
Proof.
  assert (Hrem : forall l0,
    isLoaded (client (snd (removeEventListener l0 w))) = isLoaded (client w) /\
    settled (snd (removeEventListener l0 w)) = settled w /\
    (forall l', l' <> l0 -> registered l' (client w) = true ->
                registered l' (client (snd (removeEventListener l0 w))) = true)).
  { intros l0. unfold removeEventListener. rewrite bind_eq. cbn [this fst snd].
    unfold registered. destruct (worker (client w)) as [wk |] eqn:Ew; cbn;
      [| rewrite Ew; repeat split; auto].
    repeat split. intros l' Hne Hreg.
    apply existsb_exists in Hreg. destruct Hreg as (x & Hx & E).
    apply Listener_eqb_eq in E. subst x.
    apply existsb_exists. exists l'. split; [| apply Listener_eqb_refl].
    apply filter_In. split; [exact Hx |].
    destruct (Listener_eqb l' l0) eqn:E; [| reflexivity].
    apply Listener_eqb_eq in E. contradiction. }
  assert (Hnil : exists added, settled w = settled w ++ added)
    by (exists []; rewrite app_nil_r; reflexivity).
  destruct l as [p | k p]; cbn [runListener].
  - unfold runHandleLoad. destruct (Hrem (handleLoad p)) as (H1 & H2 & H3).
    destruct (r_type event); try (repeat split; auto; fail);
      rewrite bind_eq; cbn [resolve reject snd client settled set_settled];
      rewrite H2; (split; [exact H1 |]); (split; [eexists; reflexivity | exact H3]).
  - unfold runHandleResult. destruct (Hrem (handleResult k p)) as (H1 & H2 & H3).
    destruct (r_type event); try (repeat split; auto; fail).
    + rewrite !bind_eq.
      destruct (materialize_client k event (snd (removeEventListener (handleResult k p) w)))
        as (Hc & Hs & _ & _).
      destruct (fst (materialize k event _));
        cbn [resolve skip ret snd client settled set_settled]; rewrite Hc, Hs, H2.
      * split; [exact H1 |]. split; [eexists; reflexivity | exact H3].
      * split; [exact H1 |]. split; [exact Hnil | exact H3].
    + rewrite bind_eq. cbn [reject snd client settled set_settled]. rewrite H2.
      split; [exact H1 |]. split; [eexists; reflexivity | exact H3].
Qed.

Lemma listeners_settle_load (p : PromiseId) (event : WorkerResponse) (o : Outcome)
      (ls : list Listener) :
  loadOutcome event = Some o ->
  forall w,
    (In (handleLoad p) ls /\ registered (handleLoad p) (client w) = true) \/
    In (p, o) (settled w) ->
    In (p, o)
       (settled (snd (forEach ls (fun l => c' <- this ;;
                                  if registered l c' then runListener l event else skip) w))).
Proof.
  intros Ho. induction ls as [| l rest IH]; intros w H.
  - destruct H as [[[] _] | H]. exact H.
  - cbn [forEach]. rewrite bind_eq. apply IH.
    rewrite bind_eq. cbn [this fst snd].
    destruct (runListener_frame l event w) as (_ & (added & Hs) & Hk).
    destruct H as [[Hin Hreg] | Hin].
    + destruct (Listener_eqb l (handleLoad p)) eqn:E.
      * apply Listener_eqb_eq in E. subst l. rewrite Hreg. right.
        cbn [runListener]. unfold runHandleLoad, loadOutcome in *.
        destruct (r_type event); try discriminate; inversion Ho; subst o;
          rewrite bind_eq; cbn [resolve reject snd settled set_settled];
          apply in_or_app; right; left; reflexivity.
      * assert (Hne : handleLoad p <> l).
        { intros Heq. subst l. rewrite Listener_eqb_refl in E. discriminate. }
        left. split.
        -- destruct Hin as [-> | Hin]; [contradiction Hne; reflexivity | exact Hin].
        -- destruct (registered l (client w)); [apply Hk; assumption | exact Hreg].
    + right. destruct (registered l (client w)); [| exact Hin].
      rewrite Hs. apply in_or_app. left. exact Hin.
Qed.

Lemma handleMessage_frame (event : WorkerResponse) (w : World) :
  worker (client (snd (handleMessage event w))) = worker (client w) /\
  settled (snd (handleMessage event w)) = settled w /\
  suspended (snd (handleMessage event w)) = suspended w /\
  posted (snd (handleMessage event w)) = posted w /\
  loadPromise (client (snd (handleMessage event w))) = loadPromise (client w) /\
  hasSharedArrayBuffer (snd (handleMessage event w)) = hasSharedArrayBuffer w /\
  isLoaded (client (snd (handleMessage event w))) =
    match r_type event with rLoaded => true | _ => isLoaded (client w) end.
Proof.
  unfold handleMessage, clearTimeout, invoke_opt.
  destruct (r_type event); rewrite ?bind_eq; cbn [this fst snd].
  - cbn. repeat split.
  - destruct (currentCallback (client w)); [| cbn; repeat split].
    destruct (payload_get p_progress event); cbn; repeat split.
  - destruct (Js.truthy _); [| cbn; repeat split].
    rewrite ?bind_eq. cbn [this assign fst snd client set_client].
    destruct (currentCallback _); cbn; repeat split.
  - destruct (timeoutId (client w)); rewrite ?bind_eq; cbn [this fst snd];
      match goal with |- context [currentCallback ?c] => destruct (currentCallback c) end;
      cbn; repeat split.
  - destruct (timeoutId (client w)); rewrite ?bind_eq; cbn [this fst snd];
      match goal with |- context [currentCallback ?c] => destruct (currentCallback c) end;
      cbn; repeat split.
Qed.

Lemma listeners_keep_isLoaded (event : WorkerResponse) (ls : list Listener) :
  forall w,
    isLoaded (client (snd (forEach ls (fun l => c' <- this ;;
                            if registered l c' then runListener l event else skip) w))) =
    isLoaded (client w).
Proof.
  induction ls as [| l rest IH]; intros w; [reflexivity |].
  cbn [forEach]. rewrite bind_eq, IH, bind_eq. cbn [this fst snd].
  destruct (registered l (client w)); [| reflexivity].
  apply (proj1 (runListener_frame l event w)).
Qed.

Lemma message_settles_load (p : PromiseId) (event : WorkerResponse) (o : Outcome)
      (wk : Worker) (w : World) :
  worker (client w) = Some wk ->
  In (handleLoad p) (listeners wk) ->
  loadOutcome event = Some o ->
  In (p, o) (settled (step (Message (worker_id wk) event) w)) /\
  isLoaded (client (step (Message (worker_id wk) event) w)) =
    match r_type event with rLoaded => true | _ => isLoaded (client w) end.
Proof.
  intros Hw Hin Ho. unfold step. rewrite bind_eq. cbn [task].
  destruct (calm_microtasks (snd (dispatchMessage (worker_id wk) event w)))
    as (_ & M2 & _ & _ & _ & _ & added & M7).
  rewrite M2, M7. clear M2 M7.
  unfold dispatchMessage. rewrite bind_eq. cbn [this fst snd]. rewrite Hw, Nat.eqb_refl.
  rewrite bind_eq.
  destruct (handleMessage_frame event w) as (F1 & _ & _ & _ & _ & _ & F7).
  split.
  - apply in_or_app. left. apply (listeners_settle_load p event o _ Ho). left.
    split; [exact Hin |]. apply registered_In. unfold liveListeners. rewrite F1, Hw. exact Hin.
  - rewrite listeners_keep_isLoaded. exact F7.
Qed.

(** C4. On a client that has a worker and no load under way, any number of
    [load] calls post one [load] message and all return the same promise,
    so they settle together: resolved when the worker answers [loaded]
    (the client is then loaded), rejected with the worker's message when it
    answers [error].  On a loaded client [load] returns at once and changes
    nothing. *)
Theorem C4_load_is_memoized (sab : bool) (evs : list Event) (wk : Worker)
        (cb : option Cb) (cbs : list (option Cb)) :
  hasSharedArrayBuffer (run evs (newWorld sab)) = true ->
  isLoaded (client (run evs (newWorld sab))) = false ->
  loadPromise (client (run evs (newWorld sab))) = None ->
  worker (client (run evs (newWorld sab))) = Some wk ->
  fst (mapM load (cb :: cbs) (run evs (newWorld sab))) =
    map (fun _ => Returns (fresh (run evs (newWorld sab)))) (cb :: cbs) /\
  posted (snd (mapM load (cb :: cbs) (run evs (newWorld sab)))) =
    posted (run evs (newWorld sab)) ++ [(worker_id wk, MsgLoad)] /\
  (forall event,
     r_type event = rLoaded ->
     promiseState (fresh (run evs (newWorld sab)))
                  (step (Message (worker_id wk) event)
                        (snd (mapM load (cb :: cbs) (run evs (newWorld sab))))) =
       Some (Resolved VVoid) /\
     isLoaded (client (step (Message (worker_id wk) event)
                            (snd (mapM load (cb :: cbs) (run evs (newWorld sab)))))) = true) /\
  (forall event,
     r_type event = rError ->
     promiseState (fresh (run evs (newWorld sab)))
                  (step (Message (worker_id wk) event)
                        (snd (mapM load (cb :: cbs) (run evs (newWorld sab))))) =
       Some (Rejected (errorMessage event))) /\
  (forall w cb',
     isLoaded (client w) = true -> load cb' w = (Returned, w)).
Proof.
  intros Hs Hl Hp Hw.
  set (w := run evs (newWorld sab)) in *.
  assert (HG : Good [] [] w) by apply Good_reachable.
  destruct (load_first cb wk w Hl Hs Hp Hw) as (L1 & L2 & L3 & L4 & L5 & L6 & _).
  set (w1 := snd (load cb w)) in *.
  assert (E : mapM load (cb :: cbs) w = (map (fun _ => Returns (fresh w)) (cb :: cbs), w1)).
  { cbn [mapM map]. unfold bind at 1. rewrite (surjective_pairing (load cb w)), L1.
    fold w1. unfold bind at 1. rewrite (loads_in_flight cbs (fresh w) w1 L3 L5 L4).
    reflexivity. }
  rewrite E. cbn [fst snd].
  assert (HG1 : Good [] [] w1) by (apply Good_load; exact HG).
  assert (Hin : In (handleLoad (fresh w))
                   (listeners {| worker_id := worker_id wk;
                                 listeners := listeners wk ++ [handleLoad (fresh w)] |})).
  { cbn. apply in_or_app. right. left. reflexivity. }
  split; [reflexivity |]. split; [exact L6 |]. split; [| split].
  - intros event He.
    destruct (message_settles_load (fresh w) event (Resolved VVoid) _ w1 L2 Hin) as [H1 H2].
    { unfold loadOutcome. rewrite He. reflexivity. }
    cbn [worker_id] in H1, H2. rewrite He in H2. split; [| exact H2].
    apply (Good_promiseState [] [] _ _ _ (Good_step [] _ w1 HG1) H1).
  - intros event He.
    destruct (message_settles_load (fresh w) event (Rejected (errorMessage event)) _ w1 L2 Hin)
      as [H1 _].
    { unfold loadOutcome. rewrite He. reflexivity. }
    cbn [worker_id] in H1.
    apply (Good_promiseState [] [] _ _ _ (Good_step [] _ w1 HG1) H1).
  - intros w2 cb' H. apply load_when_loaded. exact H.
Qed.

Lemma C4_load_is_memoized_witness :
  fst (mapM load [Some 1; Some 2; None] (newWorld true)) =
    [Returns 1; Returns 1; Returns 1] /\
  posted (snd (mapM load [Some 1; Some 2; None] (newWorld true))) = [(0, MsgLoad)].
Proof.
  destruct (C4_load_is_memoized true [] {| worker_id := 0; listeners := [] |}
              (Some 1) [Some 2; None] eq_refl eq_refl eq_refl eq_refl) as (H1 & H2 & _).
  split; [exact H1 | exact H2].
Defined.

(** ** A failed load *)

(** C3, where the code departs from the claim.  After the worker answers a
    load with [error], the load promise is rejected with the worker's
    message and the client is not loaded; but the rejected promise stays
    memoized: the next [load] returns it and posts nothing, so a single
    [load] message is all the worker ever gets. *)
Theorem C3_failed_load_is_memoized (msg : string) (cb1 cb2 : option Cb) :
  promiseState 1 (run [Load cb1; Message 0 (errorEvent msg)] (newWorld true)) =
    Some (Rejected msg) /\
  isLoaded (client (run [Load cb1; Message 0 (errorEvent msg)] (newWorld true))) = false /\
  loadPromise (client (run [Load cb1; Message 0 (errorEvent msg)] (newWorld true))) = Some 1 /\
  fst (load cb2 (run [Load cb1; Message 0 (errorEvent msg)] (newWorld true))) = Returns 1 /\
  posted (run [Load cb1; Message 0 (errorEvent msg); Load cb2] (newWorld true)) =
    [(0, MsgLoad)].
Proof.
  destruct cb1, cb2; cbv; repeat split.
Qed.

(** ** Timeout and recovery *)





(** *** A command on a client whose worker is idle and not loaded *)












(** ** Terminal messages *)

(** A listener registers nothing. *)
Lemma runListener_registers_nothing (l l' : Listener) (event : WorkerResponse) (w : World) :
  registered l' (client w) = false ->
  registered l' (client (snd (runListener l event w))) = false.
Proof.
  intros Hreg.
  assert (Hrem : forall l0,
            registered l' (client (snd (removeEventListener l0 w))) = false).
  { intros l0. unfold removeEventListener. rewrite bind_eq. cbn [this fst snd].
    unfold registered in *. destruct (worker (client w)) as [wk |] eqn:Ew; cbn;
      [| rewrite Ew; reflexivity].
    destruct (existsb (Listener_eqb l') (filter _ (listeners wk))) eqn:E; [| reflexivity].
    apply existsb_exists in E. destruct E as (x & Hx & E).
    apply filter_In in Hx. destruct Hx as [Hx _].
    assert (H : existsb (Listener_eqb l') (listeners wk) = true)
      by (apply existsb_exists; exists x; split; assumption).
    congruence. }
  destruct l as [p | k p]; cbn [runListener].
  - unfold runHandleLoad. destruct (r_type event); try exact Hreg;
      rewrite bind_eq; cbn [resolve reject snd client set_settled]; apply Hrem.
  - unfold runHandleResult. destruct (r_type event); try exact Hreg.
    + rewrite !bind_eq.
      destruct (materialize_client k event (snd (removeEventListener (handleResult k p) w)))
        as (Hc & _).
      destruct (fst (materialize k event _));
        cbn [resolve skip ret snd client set_settled]; rewrite Hc; apply Hrem.
    + rewrite bind_eq. cbn [reject snd client set_settled]. apply Hrem.
Qed.

Lemma listeners_settle_command (k : ResultHandler) (p : PromiseId) (event : WorkerResponse)
      (ls : list Listener) :
  terminalFor k event = true ->
  forall w,
    (In (handleResult k p) ls /\ registered (handleResult k p) (client w) = true) \/
    (registered (handleResult k p) (client w) = false /\
     exists o, commandOutcome k event o /\ In (p, o) (settled w)) ->
    registered (handleResult k p)
      (client (snd (forEach ls (fun l => c' <- this ;;
                     if registered l c' then runListener l event else skip) w))) = false /\
    exists o, commandOutcome k event o /\
      In (p, o)
         (settled (snd (forEach ls (fun l => c' <- this ;;
                        if registered l c' then runListener l event else skip) w))).
Proof.
  intros Hterm. induction ls as [| l rest IH]; intros w H.
  - destruct H as [[[] _] | H]. exact H.
  - cbn [forEach]. rewrite bind_eq. apply IH.
    rewrite bind_eq. cbn [this fst snd].
    destruct (runListener_frame l event w) as (_ & (added & Hs) & Hk).
    destruct H as [[Hin Hreg] | [Hreg (o & Ho & Hin)]].
    + destruct (Listener_eqb l (handleResult k p)) eqn:E.
      * apply Listener_eqb_eq in E. subst l. rewrite Hreg. right.
        cbn [runListener].
        pose proof (runHandleResult_terminal k p event w) as Ht.
        unfold terminalFor in Hterm. unfold commandOutcome.
        destruct (r_type event); try discriminate.
        -- destruct Ht as (Hr & Hyes & _). destruct (Hyes Hterm) as [r Hr'].
           split; [exact Hr |]. exists (Resolved (VResult r)).
           split; [split; [exact Hterm | exists r; reflexivity] |].
           rewrite Hr'. apply in_or_app. right. left. reflexivity.
        -- destruct Ht as (Hs' & Hr). split; [exact Hr |].
           exists (Rejected (errorMessage event)). split; [reflexivity |].
           rewrite Hs'. apply in_or_app. right. left. reflexivity.
      * assert (Hne : handleResult k p <> l).
        { intros Heq. subst l. rewrite Listener_eqb_refl in E. discriminate. }
        left. split.
        -- destruct Hin as [Heq | Hin]; [symmetry in Heq; contradiction | exact Hin].
        -- destruct (registered l (client w)); [apply Hk; assumption | exact Hreg].
    + right. destruct (registered l (client w)).
      * split; [apply runListener_registers_nothing; exact Hreg |].
        exists o. split; [exact Ho |]. rewrite Hs. apply in_or_app. left. exact Hin.
      * split; [exact Hreg |]. exists o. split; assumption.
Qed.

Lemma fired_In (p : PromiseId) (o : Outcome) (w : World) :
  In (p, o) (settled w) -> 1 <= fired p w.
Proof.
  intros H. rewrite fired_occurrences. apply occurrences_In.
  apply (in_map fst) in H. exact H.
Qed.

(** A terminal message reaches the listener of a dispatched command. *)
Lemma message_settles_command (k : ResultHandler) (p : PromiseId) (event : WorkerResponse)
      (wk : Worker) (w : World) :
  Good [] [] w ->
  worker (client w) = Some wk ->
  In (handleResult k p) (listeners wk) ->
  terminalFor k event = true ->
  registered (handleResult k p) (client (step (Message (worker_id wk) event) w)) = false /\
  fired p (step (Message (worker_id wk) event) w) = 1 /\
  exists o, commandOutcome k event o /\
            promiseState p (step (Message (worker_id wk) event) w) = Some o.
Proof.
  intros HG Hw Hin Hterm.
  pose proof (Good_step [] (Message (worker_id wk) event) w HG) as HG'.
  assert (H : registered (handleResult k p)
                (client (snd (dispatchMessage (worker_id wk) event w))) = false /\
              exists o, commandOutcome k event o /\
                In (p, o) (settled (snd (dispatchMessage (worker_id wk) event w)))).
  { unfold dispatchMessage. rewrite bind_eq. cbn [this fst snd]. rewrite Hw, Nat.eqb_refl.
    rewrite bind_eq.
    destruct (handleMessage_frame event w) as (F1 & _).
    apply (listeners_settle_command k p event _ Hterm). left.
    split; [exact Hin |]. apply registered_In. unfold liveListeners. rewrite F1, Hw. exact Hin. }
  destruct H as (Hr & o & Ho & Hino).
  assert (E : step (Message (worker_id wk) event) w =
              snd (microtasks (snd (dispatchMessage (worker_id wk) event w)))).
  { unfold step. rewrite bind_eq. reflexivity. }
  destruct (calm_microtasks (snd (dispatchMessage (worker_id wk) event w)))
    as (M1 & _ & _ & _ & _ & _ & added & M7).
  assert (Hin' : In (p, o) (settled (step (Message (worker_id wk) event) w))).
  { rewrite E, M7. apply in_or_app. left. exact Hino. }
  split; [| split].
  - rewrite E. unfold registered in *. rewrite M1. exact Hr.
  - pose proof (Good_fired [] [] p _ HG'). pose proof (fired_In p o _ Hin'). lia.
  - exists o. split; [exact Ho |]. apply (Good_promiseState [] [] p o _ HG' Hin').
Qed.




(** * The page, the worker thread and the timeout *)

(** ** The project: moving, removing and selecting clips *)

Lemma findIndex_split {A} (f : A -> bool) (l : list A) (i : nat) :
  Index.findIndex f l = Some i ->
  exists l1 a l2,
    l = l1 ++ a :: l2 /\ List.length l1 = i /\ f a = true /\
    (forall c, In c l1 -> f c = false).
Proof.
  revert i. induction l as [| x rest IH]; intros i H; [discriminate |].
  cbn in H. destruct (f x) eqn:Fx.
  - inversion H; subst. exists [], x, rest. repeat split; auto. intros c [].
  - destruct (Index.findIndex f rest) as [j |] eqn:E; [| discriminate].
    cbn in H. inversion H; subst.
    destruct (IH j eq_refl) as (l1 & a & l2 & -> & Hl & Fa & Hn).
    exists (x :: l1), a, l2. repeat split; cbn; auto.
    intros c [<- | Hc]; auto.
Qed.

Lemma findIndex_app {A} (f : A -> bool) (l1 : list A) (a : A) (l2 : list A) :
  (forall c, In c l1 -> f c = false) -> f a = true ->
  Index.findIndex f (l1 ++ a :: l2) = Some (List.length l1).
Proof.
  intros Hn Fa. induction l1 as [| x rest IH]; cbn.
  - rewrite Fa. reflexivity.
  - rewrite (Hn x (or_introl eq_refl)), IH; [reflexivity |].
    intros c Hc. apply Hn. right. exact Hc.
Qed.

Lemma findIndex_none {A} (f : A -> bool) (l : list A) :
  (forall c, In c l -> f c = false) -> Index.findIndex f l = None.
Proof.
  intros Hn. induction l as [| x rest IH]; cbn; [reflexivity |].
  rewrite (Hn x (or_introl eq_refl)), IH; [reflexivity |].
  intros c Hc. apply Hn. right. exact Hc.
Qed.

Lemma assignAt_app {A} (l1 : list A) (a x : A) (l2 : list A) :
  Index.assignAt (List.length l1) x (l1 ++ a :: l2) = l1 ++ x :: l2.
Proof. induction l1 as [| y rest IH]; cbn; [reflexivity | rewrite IH; reflexivity]. Qed.

Lemma nth_error_middle {A} (l1 : list A) (a : A) (l2 : list A) :
  nth_error (l1 ++ a :: l2) (List.length l1) = Some a.
Proof. induction l1 as [| y rest IH]; cbn; [reflexivity | exact IH]. Qed.

Lemma nth_error_after {A} (l1 : list A) (a b : A) (l2 : list A) :
  nth_error (l1 ++ a :: b :: l2) (S (List.length l1)) = Some b.
Proof. induction l1 as [| y rest IH]; cbn; [reflexivity | exact IH]. Qed.

Lemma assignAt_after {A} (l1 : list A) (a b x : A) (l2 : list A) :
  Index.assignAt (S (List.length l1)) x (l1 ++ a :: b :: l2) = l1 ++ a :: x :: l2.
Proof. induction l1 as [| y rest IH]; cbn; [reflexivity | cbn in IH; rewrite IH; reflexivity]. Qed.

Lemma length_middle {A} (l1 : list A) (a b : A) (l2 : list A) :
  List.length (l1 ++ a :: b :: l2) = S (S (List.length l1 + List.length l2)).
Proof. rewrite length_app. cbn. lia. Qed.

(** Moving up the clip found at position [S (length l1)]. *)
Lemma move_up_at (id : string) (l1 : list Clip) (a b : Clip) (l2 : list Clip)
      (active : option string) :
  Index.findIndex (fun c => String.eqb (clip_id c) id) (l1 ++ a :: b :: l2) =
    Some (S (List.length l1)) ->
  Index.handleMoveClip id Index.up
    {| Index.clips := l1 ++ a :: b :: l2; Index.activeClipId := active |} =
  {| Index.clips := l1 ++ b :: a :: l2; Index.activeClipId := active |}.
Proof.
  intros E. unfold Index.handleMoveClip. cbn [Index.clips Index.activeClipId].
  rewrite E.
  destruct (Z.ltb_spec (Z.of_nat (S (List.length l1)) - 1) 0); [lia |].
  rewrite Z.geb_leb.
  destruct (Z.leb_spec (Z.of_nat (List.length (l1 ++ a :: b :: l2)))
                       (Z.of_nat (S (List.length l1)) - 1)) as [E2 | E2].
  { rewrite length_middle in E2. lia. }
  cbn [orb].
  replace (Z.to_nat (Z.of_nat (S (List.length l1)) - 1)) with (List.length l1) by lia.
  rewrite nth_error_middle, nth_error_after, assignAt_after, assignAt_app.
  reflexivity.
Qed.

(** Moving down the clip found at position [length l1]. *)
Lemma move_down_at (id : string) (l1 : list Clip) (a b : Clip) (l2 : list Clip)
      (active : option string) :
  Index.findIndex (fun c => String.eqb (clip_id c) id) (l1 ++ a :: b :: l2) =
    Some (List.length l1) ->
  Index.handleMoveClip id Index.down
    {| Index.clips := l1 ++ a :: b :: l2; Index.activeClipId := active |} =
  {| Index.clips := l1 ++ b :: a :: l2; Index.activeClipId := active |}.
Proof.
  intros E. unfold Index.handleMoveClip. cbn [Index.clips Index.activeClipId].
  rewrite E.
  destruct (Z.ltb_spec (Z.of_nat (List.length l1) + 1) 0); [lia |].
  rewrite Z.geb_leb.
  destruct (Z.leb_spec (Z.of_nat (List.length (l1 ++ a :: b :: l2)))
                       (Z.of_nat (List.length l1) + 1)) as [E2 | E2].
  { rewrite length_middle in E2. lia. }
  cbn [orb].
  replace (Z.to_nat (Z.of_nat (List.length l1) + 1)) with (S (List.length l1)) by lia.
  rewrite nth_error_middle, nth_error_after, assignAt_app, assignAt_after.
  reflexivity.
Qed.

Lemma list_end {A} (l : list A) : l = [] \/ exists l0 z, l = l0 ++ [z].
Proof.
  destruct l as [| x rest]; [left; reflexivity | right].
  destruct (exists_last (l := x :: rest)) as (l0 & z & H); [discriminate |].
  exists l0, z. exact H.
Qed.

(** The two shapes of a move: nothing, or two neighbours exchanged. *)
Lemma handleMoveClip_cases (id : string) (d : Index.Direction) (p : Index.Project) :
  Index.handleMoveClip id d p = p \/
  exists l1 a b l2,
    Index.clips p = l1 ++ a :: b :: l2 /\
    Index.handleMoveClip id d p =
      {| Index.clips := l1 ++ b :: a :: l2; Index.activeClipId := Index.activeClipId p |}.
Proof.
  destruct p as [cs active]. cbn [Index.clips Index.activeClipId].
  destruct (Index.findIndex (fun c => String.eqb (clip_id c) id) cs) as [i |] eqn:E.
  2: { left. unfold Index.handleMoveClip. cbn [Index.clips]. rewrite E. reflexivity. }
  destruct (findIndex_split _ _ _ E) as (l1 & a & l2 & Hl & Hi & _ & _).
  subst cs i. destruct d.
  - (* up *)
    destruct (list_end l1) as [-> | (l0 & b & ->)].
    + left. unfold Index.handleMoveClip. cbn [Index.clips app] in *. rewrite E.
      reflexivity.
    + rewrite <- app_assoc in *. cbn [app] in *.
      rewrite length_app in E. cbn [List.length] in E.
      replace (List.length l0 + 1) with (S (List.length l0)) in E by lia.
      right. exists l0, b, a, l2. split; [reflexivity |].
      apply move_up_at. exact E.
  - (* down *)
    destruct l2 as [| b l2].
    + left. unfold Index.handleMoveClip. cbn [Index.clips]. rewrite E.
      destruct (Z.ltb_spec (Z.of_nat (List.length l1) + 1) 0); [lia |].
      rewrite Z.geb_leb.
      destruct (Z.leb_spec (Z.of_nat (List.length (l1 ++ [a])))
                           (Z.of_nat (List.length l1) + 1)) as [E2 | E2];
        [reflexivity |].
      rewrite length_app in E2. cbn in E2. lia.
    + right. exists l1, a, b, l2. split; [reflexivity |].
      apply move_down_at. exact E.
Qed.


Lemma handleMoveClip_permutes (id : string) (d : Index.Direction) (p : Index.Project) :
  Permutation (Index.clips (Index.handleMoveClip id d p)) (Index.clips p) /\
  Index.activeClipId (Index.handleMoveClip id d p) = Index.activeClipId p.
Proof.
  destruct (handleMoveClip_cases id d p) as [-> | (l1 & a & b & l2 & Hc & ->)].
  - split; reflexivity.
  - cbn [Index.clips Index.activeClipId]. rewrite Hc.
    split; [apply Permutation_app_head, perm_swap | reflexivity].
Qed.


(** A clip that is not the first one moves up by changing places with the
    clip before it, and moving it down again restores the order; the first
    clip does not move up, the last does not move down, and an id that no
    clip has moves nothing. *)
Theorem handleMoveClip_neighbours (l1 : list Clip) (a b : Clip) (l2 : list Clip)
        (active : option string) :
  (forall c, In c l1 -> clip_id c <> clip_id b) ->
  clip_id a <> clip_id b ->
  let before := {| Index.clips := l1 ++ a :: b :: l2; Index.activeClipId := active |} in
  let after := {| Index.clips := l1 ++ b :: a :: l2; Index.activeClipId := active |} in
  Index.handleMoveClip (clip_id b) Index.up before = after /\
  Index.handleMoveClip (clip_id b) Index.down after = before /\
  (l1 = [] -> Index.handleMoveClip (clip_id b) Index.up after = after) /\
  (l2 = [] -> Index.handleMoveClip (clip_id b) Index.down before = before) /\
  (forall id d, (forall c, In c (l1 ++ a :: b :: l2) -> clip_id c <> id) ->
                Index.handleMoveClip id d before = before).
Proof.
  intros Hl1 Hab before after.
  assert (F1 : forall c, In c l1 -> String.eqb (clip_id c) (clip_id b) = false)
    by (intros c Hc; apply String.eqb_neq, Hl1, Hc).
  assert (Fa : String.eqb (clip_id a) (clip_id b) = false) by (apply String.eqb_neq, Hab).
  assert (Fb : String.eqb (clip_id b) (clip_id b) = true) by apply String.eqb_refl.
  assert (I1 : Index.findIndex (fun c => String.eqb (clip_id c) (clip_id b))
                 (l1 ++ a :: b :: l2) = Some (S (List.length l1))).
  { replace (l1 ++ a :: b :: l2) with ((l1 ++ [a]) ++ b :: l2)
      by (rewrite <- app_assoc; reflexivity).
    rewrite findIndex_app; [rewrite length_app; cbn; f_equal; lia | | exact Fb].
    intros c Hc. apply in_app_or in Hc. destruct Hc as [Hc | [<- | []]]; auto. }
  assert (I2 : Index.findIndex (fun c => String.eqb (clip_id c) (clip_id b))
                 (l1 ++ b :: a :: l2) = Some (List.length l1))
    by (apply findIndex_app; [exact F1 | exact Fb]).
  assert (Up : Index.handleMoveClip (clip_id b) Index.up before = after)
    by (apply move_up_at; exact I1).
  assert (Down : Index.handleMoveClip (clip_id b) Index.down after = before)
    by (apply move_down_at; exact I2).
  split; [exact Up |]. split; [exact Down |]. split; [| split].
  - intros ->. unfold Index.handleMoveClip, after. cbn [Index.clips].
    rewrite I2. reflexivity.
  - intros ->. unfold Index.handleMoveClip, before. cbn [Index.clips].
    rewrite I1.
    destruct (Z.ltb_spec (Z.of_nat (S (List.length l1)) + 1) 0); [lia |].
    rewrite Z.geb_leb.
    destruct (Z.leb_spec (Z.of_nat (List.length (l1 ++ [a; b])))
                         (Z.of_nat (S (List.length l1)) + 1)) as [E2 | E2];
      [reflexivity |].
    rewrite length_app in E2. cbn in E2. lia.
  - intros id d Hid. unfold Index.handleMoveClip, before. cbn [Index.clips].
    rewrite findIndex_none; [reflexivity |].
    intros c Hc. apply String.eqb_neq, Hid, Hc.
Qed.

Lemma find_filtered_out (id : string) (l : list Clip) :
  find (fun c => String.eqb (clip_id c) id)
       (filter (fun c => negb (String.eqb (clip_id c) id)) l) = None.
Proof.
  induction l as [| c rest IH]; cbn; [reflexivity |].
  destruct (String.eqb (clip_id c) id) eqn:E; cbn; [exact IH |].
  rewrite E. exact IH.
Qed.

Lemma filter_filtered (id : string) (l : list Clip) :
  filter (fun c => negb (String.eqb (clip_id c) id))
         (filter (fun c => negb (String.eqb (clip_id c) id)) l) =
  filter (fun c => negb (String.eqb (clip_id c) id)) l.
Proof.
  induction l as [| c rest IH]; cbn; [reflexivity |].
  destruct (String.eqb (clip_id c) id) eqn:E; cbn; [exact IH |].
  rewrite E. cbn. rewrite IH. reflexivity.
Qed.

(** After [handleRemoveClip] no clip has the id, the other clips are kept
    in their order, at most the URL of a clip that had the id is handed to
    revocation, and a second removal of the same id changes nothing and
    revokes nothing. *)
Theorem handleRemoveClip_once (id : string) (p : Index.Project) :
  let p' := fst (Index.handleRemoveClip id p) in
  (forall c, In c (Index.clips p') <-> In c (Index.clips p) /\ clip_id c <> id) /\
  (forall url, In url (snd (Index.handleRemoveClip id p)) ->
               url <> "" /\
               exists c, In c (Index.clips p) /\ clip_id c = id /\ clip_objectUrl c = url) /\
  Index.same_id (Index.activeClipId p') id = false /\
  Index.handleRemoveClip id p' = (p', []).
Proof.
  intros p'. unfold p', Index.handleRemoveClip. cbn [fst snd Index.clips Index.activeClipId].
  split; [| split; [| split]].
  - intros c. rewrite filter_In. split; intros [H1 H2]; split; auto.
    + intros E. rewrite E, String.eqb_refl in H2. discriminate.
    + apply String.eqb_neq in H2. rewrite H2. reflexivity.
  - intros url H.
    destruct (find _ (Index.clips p)) as [c |] eqn:F; [| destruct H].
    apply find_some in F. destruct F as [Hin Hid]. apply String.eqb_eq in Hid.
    unfold Index.revoking in H.
    destruct (clip_objectUrl c) as [| ch rest] eqn:U; [destruct H |].
    destruct H as [<- | []]. split; [discriminate |]. exists c. auto.
  - destruct (Index.same_id (Index.activeClipId p) id) eqn:S; [| exact S].
    destruct (filter _ (Index.clips p)) as [| first rest] eqn:F; [reflexivity |].
    cbn. assert (Hin : In first (filter (fun c => negb (String.eqb (clip_id c) id))
                                        (Index.clips p))) by (rewrite F; left; reflexivity).
    apply filter_In in Hin. destruct Hin as [_ Hne].
    destruct (String.eqb (clip_id first) id); [discriminate | reflexivity].
  - rewrite find_filtered_out, filter_filtered.
    assert (S' : Index.same_id
                   (if Index.same_id (Index.activeClipId p) id
                    then match filter (fun c => negb (String.eqb (clip_id c) id))
                                      (Index.clips p) with
                         | [] => None
                         | first :: _ => Some (clip_id first)
                         end
                    else Index.activeClipId p) id = false).
    { destruct (Index.same_id (Index.activeClipId p) id) eqn:S; [| exact S].
      destruct (filter _ (Index.clips p)) as [| first rest] eqn:F; [reflexivity |].
      cbn. assert (Hin : In first (filter (fun c => negb (String.eqb (clip_id c) id))
                                          (Index.clips p))) by (rewrite F; left; reflexivity).
      apply filter_In in Hin. destruct Hin as [_ Hne].
      destruct (String.eqb (clip_id first) id); [discriminate | reflexivity]. }
    rewrite S'. reflexivity.
Qed.

Lemma listed_In (id : string) (p : Index.Project) :
  listed id p = true <-> exists c, In c (Index.clips p) /\ clip_id c = id.
Proof.
  unfold listed. rewrite existsb_exists. split; intros (c & H1 & H2); exists c; split; auto.
  - apply String.eqb_eq. exact H2.
  - apply String.eqb_eq. exact H2.
Qed.

Lemma perform_keeps (a : Action) (p : Index.Project) :
  offered a p = true -> activeIsListed p -> activeIsListed (perform a p).
Proof.
  intros Hoff H. unfold activeIsListed in *. destruct a as [clip | id | id d | id | id s e].
  - (* add *)
    cbn [perform Index.handleAddClip Index.activeClipId Index.clips].
    apply listed_In. cbn [Index.clips].
    destruct (Index.activeClipId p) as [a |] eqn:A.
    + destruct a as [| ch rest].
      * exists clip. split; [apply in_or_app; right; left; reflexivity | reflexivity].
      * apply listed_In in H. destruct H as (c & Hc & Hid).
        exists c. split; [apply in_or_app; left; exact Hc | exact Hid].
    + exists clip. split; [apply in_or_app; right; left; reflexivity | reflexivity].
  - (* remove *)
    cbn [perform]. unfold Index.handleRemoveClip.
    cbn [fst Index.activeClipId Index.clips].
    destruct (Index.same_id (Index.activeClipId p) id) eqn:S.
    + destruct (filter _ (Index.clips p)) as [| first rest] eqn:F; [reflexivity |].
      apply listed_In. cbn [Index.clips]. exists first. split; [| reflexivity].
      left. reflexivity.
    + destruct (Index.activeClipId p) as [a |] eqn:A.
      * apply listed_In in H. destruct H as (c & Hc & Hid).
        apply listed_In. cbn [Index.clips]. exists c. split; [| exact Hid].
        apply filter_In. split; [exact Hc |].
        cbn in S. rewrite <- Hid in S. rewrite S. reflexivity.
      * rewrite H. reflexivity.
  - (* move *)
    cbn [perform].
    destruct (handleMoveClip_permutes id d p) as (HP & HA).
    rewrite HA. destruct (Index.activeClipId p) as [a |].
    + apply listed_In in H. destruct H as (c & Hc & Hid).
      apply listed_In. exists c. split; [| exact Hid].
      apply (Permutation_in c (Permutation_sym HP)). exact Hc.
    + apply Permutation_nil. rewrite <- H. apply Permutation_sym. exact HP.
  - (* select *)
    cbn [perform Index.handleSelectClip Index.activeClipId]. cbn in Hoff. exact Hoff.
  - (* update trim *)
    cbn [perform Index.handleUpdateClipTrim Index.activeClipId Index.clips].
    destruct (Index.activeClipId p) as [a |].
    + apply listed_In in H. destruct H as (c & Hc & Hid).
      apply listed_In. cbn [Index.clips].
      eexists. split; [apply in_map; exact Hc |].
      destruct (String.eqb (clip_id c) id); cbn; exact Hid.
    + rewrite H. reflexivity.
Qed.

(** Whatever the user does with the clips, the active id stays the id of a
    clip of the project: in timeline mode there is an active clip, and it
    is one of the project's. *)
Theorem active_clip_is_listed (actions : list Action) (p : Index.Project) :
  performAll actions Index.initialProject = Some p ->
  activeIsListed p /\
  (Index.isTimelineMode p = true ->
   exists c, Index.activeClip p = Some c /\ In c (Index.clips p) /\
             Index.activeClipId p = Some (clip_id c)).
Proof.
  assert (G : forall q, activeIsListed q -> performAll actions q = Some p -> activeIsListed p).
  { induction actions as [| a rest IH]; intros q Hq H; cbn in H.
    - inversion H; subst. exact Hq.
    - destruct (offered a q) eqn:O; [| discriminate].
      apply (IH (perform a q)); [apply perform_keeps; assumption | exact H]. }
  intros H. assert (HA : activeIsListed p) by (apply (G Index.initialProject); [reflexivity | exact H]).
  split; [exact HA |]. intros HT.
  unfold activeIsListed in HA. unfold Index.activeClip.
  destruct (Index.activeClipId p) as [a |] eqn:A.
  - destruct (find (fun c => Index.same_id (Some a) (clip_id c)) (Index.clips p)) as [c |] eqn:F.
    + apply find_some in F. destruct F as [Hin Hid]. cbn in Hid. apply String.eqb_eq in Hid.
      exists c. subst a. auto.
    + apply listed_In in HA. destruct HA as (c & Hc & Hid).
      pose proof (find_none _ _ F c Hc) as N. cbn in N. subst a.
      rewrite String.eqb_refl in N. discriminate.
  - unfold Index.isTimelineMode in HT. rewrite HA in HT. discriminate.
Qed.

Lemma handleMoveClip_neighbours_witness :
  Index.handleMoveClip "b" Index.up
    {| Index.clips := [clipA; clipB]; Index.activeClipId := Some "a" |} =
  {| Index.clips := [clipB; clipA]; Index.activeClipId := Some "a" |} /\
  Index.handleMoveClip "b" Index.down
    {| Index.clips := [clipB; clipA]; Index.activeClipId := Some "a" |} =
  {| Index.clips := [clipA; clipB]; Index.activeClipId := Some "a" |}.
Proof.
  assert (H1 : forall c : Clip, In c [] -> clip_id c <> clip_id clipB)
    by (intros c []).
  assert (H2 : clip_id clipA <> clip_id clipB) by (vm_compute; discriminate).
  destruct (handleMoveClip_neighbours [] clipA clipB [] (Some "a") H1 H2)
    as (U & D & _).
  split; [exact U | exact D].
Defined.

Lemma active_clip_is_listed_witness :
  activeIsListed
    {| Index.clips := [clipB]; Index.activeClipId := Some "b" |}.
Proof.
  apply (active_clip_is_listed [AddClip clipA; AddClip clipB; RemoveClip "a"]).
  reflexivity.
Defined.

(** ** The timeline *)

Lemma positionsFrom_nth (active : option string) (total : Q) (cs : list Clip) :
  forall (t0 : Q) (i : nat) (pos : Timeline.Position),
    nth_error (Timeline.positionsFrom t0 active total cs) i = Some pos ->
    nth_error cs i = Some (Timeline.clip pos) /\
    Timeline.startTime pos =
      fold_left (fun acc clip => (acc + (clip_end clip - clip_start clip))%Q)
                (firstn i cs) t0 /\
    (Timeline.startTime pos + Timeline.duration pos)%Q =
      fold_left (fun acc clip => (acc + (clip_end clip - clip_start clip))%Q)
                (firstn (S i) cs) t0 /\
    Timeline.isActive pos = Index.same_id active (clip_id (Timeline.clip pos)).
Proof.
  induction cs as [| c rest IH]; intros t0 i pos H.
  - destruct i; discriminate.
  - destruct i as [| j].
    + cbn in H. inversion H; subst. cbn. repeat split.
    + cbn [Timeline.positionsFrom nth_error] in H.
      destruct (IH _ _ _ H) as (H1 & H2 & H3 & H4).
      cbn [nth_error firstn fold_left]. cbn [firstn] in H3. auto.
Qed.

Lemma positionsFrom_length (active : option string) (total : Q) (cs : list Clip) :
  forall t0, List.length (Timeline.positionsFrom t0 active total cs) = List.length cs.
Proof.
  induction cs as [| c rest IH]; intros t0; cbn; [reflexivity | rewrite IH; reflexivity].
Qed.

Lemma clipPositions_positionsFrom (cs : list Clip) (active : option string) (total : Q) :
  Timeline.clipPositions cs active total = Timeline.positionsFrom 0%Q active total cs.
Proof. unfold Timeline.clipPositions. destruct cs; reflexivity. Qed.

(** The positions of the timeline tile it: there is one per clip, in the
    order of the clips; each starts where the clips before it end and lasts
    as long as its clip, so the first starts at 0 and the last ends at the
    total duration of the project. *)
Theorem clipPositions_tile (p : Index.Project) (total : Q) :
  let positions := Timeline.clipPositions (Index.clips p) (Index.activeClipId p) total in
  List.length positions = List.length (Index.clips p) /\
  (forall i pos,
     nth_error positions i = Some pos ->
     nth_error (Index.clips p) i = Some (Timeline.clip pos) /\
     Timeline.startTime pos =
       Index.totalDuration {| Index.clips := firstn i (Index.clips p);
                              Index.activeClipId := Index.activeClipId p |} /\
     (Timeline.startTime pos + Timeline.duration pos)%Q =
       Index.totalDuration {| Index.clips := firstn (S i) (Index.clips p);
                              Index.activeClipId := Index.activeClipId p |} /\
     Timeline.duration pos = (clip_end (Timeline.clip pos) - clip_start (Timeline.clip pos))%Q) /\
  (forall pos,
     nth_error positions (List.length (Index.clips p) - 1) = Some pos ->
     (Timeline.startTime pos + Timeline.duration pos)%Q = Index.totalDuration p).
Proof.
  intros positions. unfold positions. rewrite clipPositions_positionsFrom.
  split; [apply positionsFrom_length |].
  assert (N : forall i pos,
     nth_error (Timeline.positionsFrom 0 (Index.activeClipId p) total (Index.clips p)) i
       = Some pos ->
     nth_error (Index.clips p) i = Some (Timeline.clip pos) /\
     Timeline.startTime pos =
       Index.totalDuration {| Index.clips := firstn i (Index.clips p);
                              Index.activeClipId := Index.activeClipId p |} /\
     (Timeline.startTime pos + Timeline.duration pos)%Q =
       Index.totalDuration {| Index.clips := firstn (S i) (Index.clips p);
                              Index.activeClipId := Index.activeClipId p |} /\
     Timeline.duration pos = (clip_end (Timeline.clip pos) - clip_start (Timeline.clip pos))%Q).
  { intros i pos H. destruct (positionsFrom_nth _ _ _ _ _ _ H) as (H1 & H2 & H3 & _).
    repeat split; try assumption.
    clear - H. revert H. generalize 0%Q. revert i.
    induction (Index.clips p) as [| c rest IH]; intros i t0 H.
    - destruct i; discriminate.
    - destruct i as [| j]; cbn in H.
      + inversion H; subst. reflexivity.
      + apply (IH _ _ H). }
  split; [exact N |].
  intros pos H. destruct (N _ _ H) as (H1 & _ & H3 & _). rewrite H3.
  unfold Index.totalDuration. cbn [Index.clips].
  assert (L : List.length (Index.clips p) <> 0).
  { intros E. rewrite E in H1. cbn in H1. destruct (Index.clips p); discriminate. }
  replace (S (List.length (Index.clips p) - 1)) with (List.length (Index.clips p)) by lia.
  rewrite firstn_all. reflexivity.
Qed.

Lemma clipPositions_tile_witness :
  exists pos,
    nth_error (Timeline.clipPositions [clipA; clipB] (Some "a") 10%Q) 1 = Some pos /\
    Timeline.startTime pos = (0 + (4 - 0))%Q /\
    (Timeline.startTime pos + Timeline.duration pos)%Q = (0 + (4 - 0) + (6 - 0))%Q.
Proof.
  eexists. split; [reflexivity |].
  destruct (clipPositions_tile
              {| Index.clips := [clipA; clipB]; Index.activeClipId := Some "a" |} 10%Q)
    as (_ & N & _).
  destruct (N 1 _ eq_refl) as (_ & H2 & H3 & _).
  split; [exact H2 | exact H3].
Defined.

(** ** Exports *)

Lemma find_skips (id : string) (before : list ExportResult) (r : ExportResult)
      (rest : list ExportResult) :
  (forall e, In e before -> result_id e <> id) -> result_id r = id ->
  find (fun e => String.eqb (result_id e) id) (before ++ r :: rest) = Some r.
Proof.
  intros Hb Hr. induction before as [| e tl IH]; cbn.
  - rewrite Hr, String.eqb_refl. reflexivity.
  - destruct (String.eqb (result_id e) id) eqn:E.
    + apply String.eqb_eq in E. exfalso. apply (Hb e); [left; reflexivity | exact E].
    + apply IH. intros x Hx. apply Hb. right. exact Hx.
Qed.

(** Clearing an export hands to revocation exactly the object URLs that
    were created when the client materialized it: the URL of the output
    file, or the URL of every extracted frame.  The export leaves the
    list and the exports with other ids stay. *)
Theorem handleClearExport_releases (k : ResultHandler) (event : WorkerResponse) (w : World)
        (r : ExportResult) (before rest : list ExportResult) :
  fst (materialize k event w) = Some r ->
  (forall e, In e before -> result_id e <> result_id r) ->
  exists created,
    urls (snd (materialize k event w)) = urls w ++ created /\
    snd (Index.handleClearExport (result_id r) (before ++ r :: rest)) = map fst created /\
    ~ In r (fst (Index.handleClearExport (result_id r) (before ++ r :: rest))) /\
    (forall e, In e (before ++ rest) -> result_id e <> result_id r ->
               In e (fst (Index.handleClearExport (result_id r) (before ++ r :: rest)))).
Proof.
  intros Hm Hb.
  assert (Hrev : exists created,
             urls (snd (materialize k event w)) = urls w ++ created /\
             Index.revoking (objectUrl r) ++
               match frames r with
               | Some fs => map frame_objectUrl fs
               | None => []
               end = map fst created).
  { assert (File : forall kind mime prefix extension d,
               fst (fileResult kind mime prefix extension d w) = r ->
               exists created,
                 urls (snd (fileResult kind mime prefix extension d w)) = urls w ++ created /\
                 Index.revoking (objectUrl r) ++
                   match frames r with
                   | Some fs => map frame_objectUrl fs
                   | None => []
                   end = map fst created).
    { intros kind mime prefix extension d <-.
      unfold fileResult, crypto_randomUUID, URL_createObjectURL, Date_now, newId.
      rewrite !bind_eq. cbn. eexists. split; reflexivity. }
    destruct k as [| | | s]; cbn [materialize] in Hm |- *.
    - destruct (payload_get p_data event) as [d |]; [| discriminate].
      rewrite bind_eq in Hm |- *. cbn [ret fst snd] in Hm |- *.
      apply File. inversion Hm. reflexivity.
    - destruct (payload_get p_frames event) as [fs |]; [| discriminate].
      rewrite bind_eq in Hm |- *. cbn [ret fst snd] in Hm |- *.
      inversion Hm as [Hr]. clear Hm.
      unfold framesResult, crypto_randomUUID, Date_now, newId in *.
      rewrite !bind_eq in *. cbn [ret fst snd urls set_fresh] in *.
      destruct (frames_materialized fs w) as (_ & _ & _ & _ & _ & (added & Hu & Ha) & _).
      exists added. split; [exact Hu |].
      cbn [objectUrl frames Index.revoking app].
      rewrite Ha, map_map. apply map_ext. intros f. reflexivity.
    - destruct (payload_get p_data event) as [d |]; [| discriminate].
      rewrite bind_eq in Hm |- *. cbn [ret fst snd] in Hm |- *.
      apply File. inversion Hm. reflexivity.
    - destruct (payload_get p_data event) as [d |]; [| discriminate].
      rewrite bind_eq in Hm |- *. cbn [ret fst snd] in Hm |- *.
      apply File. inversion Hm. reflexivity. }
  destruct Hrev as (created & Hu & Hr).
  exists created. split; [exact Hu |].
  unfold Index.handleClearExport. cbn [fst snd].
  rewrite (find_skips _ _ _ _ Hb eq_refl).
  split; [exact Hr |]. split.
  - intros Hin. apply filter_In in Hin. destruct Hin as [_ Hne].
    rewrite String.eqb_refl in Hne. discriminate.
  - intros e Hin Hne. apply filter_In. split.
    + apply in_app_or in Hin. apply in_or_app.
      destruct Hin as [Hin | Hin]; [left; exact Hin | right; right; exact Hin].
    + apply String.eqb_neq in Hne. rewrite Hne. reflexivity.
Qed.

Lemma handleClearExport_releases_witness :
  exists r,
    fst (materialize ForTrim (completeEvent [x01; x02]) (newWorld true)) = Some r /\
    exists created,
      urls (snd (materialize ForTrim (completeEvent [x01; x02]) (newWorld true))) =
        urls (newWorld true) ++ created /\
      snd (Index.handleClearExport (result_id r) ([] ++ [r])) = map fst created.
Proof.
  eexists. split; [reflexivity |].
  match goal with
  | |- context [Index.handleClearExport (result_id ?r) _] =>
      assert (Hb : forall e : ExportResult, In e [] -> result_id e <> result_id r)
        by (intros e []);
      destruct (handleClearExport_releases ForTrim (completeEvent [x01; x02])
                  (newWorld true) r [] [] eq_refl Hb) as (created & Hu & Hr & _)
  end.
  exists created. split; [exact Hu | exact Hr].
Defined.

(** ** The trim panel *)

Lemma Num_lt_iff (a b : Q) : Num.lt a b = true <-> (a < b)%Q.
Proof.
  unfold Num.lt. rewrite Qlt_alt. destruct (a ?= b)%Q; split; intros H;
    try reflexivity; discriminate.
Qed.

(** The trim panel never hands over an empty or reversed range: what
    [handleTrim] passes on is the current range and mode, and only when the
    start is before the end, which is exactly when the button is enabled;
    and from a range with the start before the end, the two sliders and the
    two "set to current" buttons lead to such a range again. *)
Theorem TrimControls_range (s : TrimControls.State) :
  (forall settings,
     TrimControls.handleTrim s = Some settings ->
     (startTime settings < endTime settings)%Q /\
     settings = {| startTime := TrimControls.startTime s;
                   endTime := TrimControls.endTime s;
                   mode := TrimControls.mode s |}) /\
  (TrimControls.isValid s = true <->
   exists settings, TrimControls.handleTrim s = Some settings) /\
  ((TrimControls.startTime s < TrimControls.endTime s)%Q ->
   forall v,
     let ordered s' := (TrimControls.startTime s' < TrimControls.endTime s')%Q in
     ordered (TrimControls.handleStartTimeChange v s) /\
     ordered (TrimControls.handleEndTimeChange v s) /\
     ordered (TrimControls.setStartToCurrent v s) /\
     ordered (TrimControls.setEndToCurrent v s)).
Proof.
  split; [| split].
  - intros settings H. unfold TrimControls.handleTrim, Num.ge in H.
    destruct (Num.lt (TrimControls.startTime s) (TrimControls.endTime s)) eqn:E;
      cbn in H; [| discriminate].
    inversion H; subst. split; [| reflexivity]. cbn. apply Num_lt_iff. exact E.
  - unfold TrimControls.isValid, TrimControls.handleTrim, Num.ge, Num.gt.
    destruct (Num.lt (TrimControls.startTime s) (TrimControls.endTime s)) eqn:E; cbn.
    + split; [intros _; eexists; reflexivity | intros _].
      apply Num_lt_iff. apply Num_lt_iff in E.
      apply (Qplus_lt_l _ _ (TrimControls.startTime s)).
      ring_simplify. exact E.
    + split; [discriminate | intros (x & H); discriminate].
  - intros H v ordered. unfold ordered.
    unfold TrimControls.handleStartTimeChange, TrimControls.handleEndTimeChange,
      TrimControls.setStartToCurrent, TrimControls.setEndToCurrent, Num.gt.
    destruct (Num.lt v (TrimControls.endTime s)) eqn:E1;
      destruct (Num.lt (TrimControls.startTime s) v) eqn:E2; cbn;
      repeat split; try exact H; apply Num_lt_iff; assumption.
Qed.

Lemma TrimControls_range_witness :
  TrimControls.handleTrim
    (TrimControls.handleStartTimeChange 3%Q (TrimControls.initialState 10%Q)) =
  Some {| startTime := 3%Q; endTime := 10%Q; mode := fast |} /\
  (3 < 10)%Q.
Proof.
  destruct (TrimControls_range
              (TrimControls.handleStartTimeChange 3%Q (TrimControls.initialState 10%Q)))
    as (H & _ & _).
  destruct (H {| startTime := 3%Q; endTime := 10%Q; mode := fast |} eq_refl) as (L & _).
  split; [reflexivity | exact L].
Defined.

(** ** The convert panel *)

Lemma Num_le_iff (a b : Q) : Num.le a b = true <-> (a <= b)%Q.
Proof.
  unfold Num.le. destruct (Num.lt b a) eqn:E; cbn.
  - apply Num_lt_iff in E. split; [discriminate | intros H].
    exfalso. apply (Qlt_not_le _ _ E H).
  - split; [intros _ | reflexivity]. apply Qnot_lt_le. intros H.
    apply Num_lt_iff in H. rewrite H in E. discriminate.
Qed.

(** The quality of the convert panel survives the trip through its slider,
    the CRF the panel displays for a quality is the CRF the worker encodes
    with, and moving the slider to the right never raises the CRF. *)
Theorem quality_slider_and_crf :
  (forall q, ConvertControls.sliderToQuality
               (ConvertControls.qualityToSlider (Worker.quality_key q)) = q) /\
  (forall q, option_map ConvertControls.crf
               (ConvertControls.lookup (Worker.quality_key q) ConvertControls.QUALITY_LABELS) =
             Some (Worker.crfOf (ConvertControls.handleConvert q))) /\
  (forall v1 v2, (v1 <= v2)%Q ->
     Worker.crfOf (ConvertControls.handleConvert (ConvertControls.sliderToQuality v2)) <=
     Worker.crfOf (ConvertControls.handleConvert (ConvertControls.sliderToQuality v1))).
Proof.
  split; [| split].
  - intros []; reflexivity.
  - intros []; reflexivity.
  - intros v1 v2 H. unfold ConvertControls.sliderToQuality.
    destruct (Num.le v1 25) eqn:A1; destruct (Num.le v2 25) eqn:A2;
      destruct (Num.le v1 75) eqn:B1; destruct (Num.le v2 75) eqn:B2;
      cbn; try lia; exfalso.
    all: repeat match goal with
         | E : Num.le _ _ = true |- _ => apply Num_le_iff in E
         | E : Num.le ?a ?b = false |- _ =>
             assert (b < a)%Q by (apply Qnot_le_lt; intros X; apply Num_le_iff in X;
                                  rewrite X in E; discriminate);
             clear E
         end.
    all: try (apply (Qlt_irrefl v1); eapply Qlt_le_trans; [eassumption |];
              eapply Qle_trans; [exact H | assumption]).
    all: try (apply (Qlt_irrefl 25%Q); eapply Qlt_le_trans; [eassumption |];
              eapply Qle_trans; [exact H | assumption]).
    all: try (apply (Qlt_irrefl 75%Q); eapply Qlt_le_trans; [eassumption |];
              eapply Qle_trans; [exact H | assumption]).
Qed.

Lemma quality_slider_and_crf_witness :
  Worker.crfOf (ConvertControls.handleConvert (ConvertControls.sliderToQuality 100%Q)) <=
  Worker.crfOf (ConvertControls.handleConvert (ConvertControls.sliderToQuality 50%Q)).
Proof.
  destruct quality_slider_and_crf as (_ & _ & H).
  apply H. vm_compute. discriminate.
Defined.

(** ** The worker: merge *)



Lemma progressValues_app (a b : list WorkerResponse) :
  progressValues (a ++ b) = progressValues a ++ progressValues b.
Proof. unfold progressValues. apply flat_map_app. Qed.

Lemma forallb_isReport_app (a b : list WorkerResponse) :
  forallb isReport (a ++ b) = forallb isReport a && forallb isReport b.
Proof. apply forallb_app. Qed.

Lemma deleteEach_exact (engine : Worker.Engine) (files : list string) :
  forall h ms nf,
    Worker.forEachW files (fun file =>
      Worker.tryCatch
        (Worker.andThen (Worker.call engine (Worker.deleteFile file))
                        (fun _ => Worker.pure tt))
        (fun _ => Worker.pure tt))
      {| Worker.history := h; Worker.sent := ms; Worker.normalizedFiles := nf |} =
    (Worker.Ok tt,
     {| Worker.history := h ++ map Worker.deleteFile files;
        Worker.sent := ms; Worker.normalizedFiles := nf |}).
Proof.
  induction files as [| f rest IH]; intros h ms nf.
  - cbn. rewrite app_nil_r. reflexivity.
  - cbn [Worker.forEachW map]. unfold Worker.andThen at 1. unfold Worker.tryCatch at 1.
    unfold Worker.andThen at 1. unfold Worker.call at 1.
    cbn [Worker.history Worker.sent Worker.normalizedFiles].
    destruct (engine h (Worker.deleteFile f)); cbn [Worker.pure];
      rewrite IH, <- app_assoc; reflexivity.
Qed.

(** The cleanup of the normalized clips asks for the deletion of each of
    them, in order, and never fails. *)
Lemma cleanupNormalized_exact (engine : Worker.Engine) (st : Worker.State) :
  Worker.cleanupNormalized engine st =
  (Worker.Ok tt,
   {| Worker.history := Worker.history st ++
                        map Worker.deleteFile (Worker.normalizedFiles st);
      Worker.sent := Worker.sent st;
      Worker.normalizedFiles := Worker.normalizedFiles st |}).
Proof.
  unfold Worker.cleanupNormalized, Worker.andThen at 1, Worker.getNormalized.
  destruct st as [h ms nf]. cbn [Worker.history Worker.sent Worker.normalizedFiles].
  apply deleteEach_exact.
Qed.

(** One turn of the normalization loop. *)
Lemma normalizeClip_shape (engine : Worker.Engine) (total i : nat) (clip : ClipData)
      (st : Worker.State) :
  exists r h ms pushed,
    Worker.normalizeClip engine total i clip st =
      (r, {| Worker.history := Worker.history st ++ h;
             Worker.sent := Worker.sent st ++ ms;
             Worker.normalizedFiles := Worker.normalizedFiles st ++ pushed |}) /\
    progressValues ms = [Worker.normalizeProgress i total] /\
    forallb isReport ms = true /\
    (pushed = [] \/ pushed = [normalizedName i]) /\
    (r = Worker.Ok tt -> pushed = [normalizedName i]) /\
    (forall c, ~ In (Worker.writeFile "concat_list.txt" c) h).
Proof.
  unfold Worker.normalizeClip.
  unfold Worker.andThen at 1. cbn [Worker.sendMessage].
  unfold Worker.andThen at 1. cbn [Worker.sendMessage].
  cbn [Worker.history Worker.sent Worker.normalizedFiles].
  unfold Worker.andThen at 1. unfold Worker.call at 1.
  cbn [Worker.history Worker.sent Worker.normalizedFiles].
  destruct (engine _ (Worker.writeFile _ _)).
  2: { eexists _, [_], [_; _], []. rewrite <- !app_assoc, app_nil_r.
       split; [reflexivity |]. split; [reflexivity |]. split; [reflexivity |].
       split; [left; reflexivity |]. split; [discriminate |].
       intros c [H | []]. discriminate. }
  unfold Worker.andThen at 1. unfold Worker.call at 1.
  cbn [Worker.history Worker.sent Worker.normalizedFiles].
  destruct (engine _ (Worker.exec _)).
  2: { eexists _, [_; _], [_; _], []. rewrite <- !app_assoc, app_nil_r.
       split; [reflexivity |]. split; [reflexivity |]. split; [reflexivity |].
       split; [left; reflexivity |]. split; [discriminate |].
       intros c [H | [H | []]]; discriminate. }
  unfold Worker.andThen at 1. cbn [Worker.pushNormalized].
  cbn [Worker.history Worker.sent Worker.normalizedFiles].
  unfold Worker.andThen at 1. unfold Worker.call at 1.
  cbn [Worker.history Worker.sent Worker.normalizedFiles].
  destruct (engine _ (Worker.deleteFile _)); cbn [Worker.pure];
    eexists _, [_; _; _], [_; _], [_]; rewrite <- !app_assoc;
    (split; [reflexivity |]); (split; [reflexivity |]); (split; [reflexivity |]);
    (split; [right; reflexivity |]); (split; [reflexivity |]);
    intros c [H | [H | [H | []]]]; discriminate.
Qed.

(** The normalization loop, from clip [i] on. *)
Lemma normalizeFrom_shape (engine : Worker.Engine) (total : nat) (cs : list ClipData) :
  forall (i : nat) (st : Worker.State),
  exists r h ms k m,
    Worker.normalizeFrom engine total i cs st =
      (r, {| Worker.history := Worker.history st ++ h;
             Worker.sent := Worker.sent st ++ ms;
             Worker.normalizedFiles :=
               Worker.normalizedFiles st ++ map normalizedName (seq i k) |}) /\
    k <= List.length cs /\ m <= List.length cs /\
    progressValues ms = map (fun j => Worker.normalizeProgress j total) (seq i m) /\
    forallb isReport ms = true /\
    (r = Worker.Ok tt -> k = List.length cs /\ m = List.length cs) /\
    (forall c, ~ In (Worker.writeFile "concat_list.txt" c) h).
Proof.
  induction cs as [| clip rest IH]; intros i st.
  - exists (Worker.Ok tt), [], [], 0, 0. cbn. rewrite !app_nil_r. destruct st.
    repeat split; auto.
  - cbn [Worker.normalizeFrom]. unfold Worker.andThen.
    destruct (normalizeClip_shape engine total i clip st)
      as (r1 & h1 & ms1 & pushed & E1 & P1 & R1 & Hp & Hok & N1).
    rewrite E1. destruct r1 as [[] | msg].
    + specialize (Hok eq_refl). subst pushed.
      destruct (IH (S i) {| Worker.history := Worker.history st ++ h1;
                            Worker.sent := Worker.sent st ++ ms1;
                            Worker.normalizedFiles :=
                              Worker.normalizedFiles st ++ [normalizedName i] |})
        as (r2 & h2 & ms2 & k & m & E2 & Hk & Hm & P2 & R2 & Hok2 & N2).
      cbn [Worker.history Worker.sent Worker.normalizedFiles] in E2.
      exists r2, (h1 ++ h2), (ms1 ++ ms2), (S k), (S m).
      rewrite E2, <- !app_assoc. cbn [seq map app List.length].
      split; [reflexivity |]. split; [lia |]. split; [lia |].
      split; [rewrite progressValues_app, P1, P2; reflexivity |].
      split; [rewrite forallb_isReport_app, R1, R2; reflexivity |].
      split.
      * intros H. destruct (Hok2 H). lia.
      * intros c Hc. apply in_app_or in Hc. destruct Hc as [Hc | Hc];
          [apply (N1 c Hc) | apply (N2 c Hc)].
    + destruct Hp as [-> | ->].
      * exists (Worker.Throw msg), h1, ms1, 0, 1. cbn [seq map List.length].
        rewrite app_nil_r.
        split; [reflexivity |]. split; [lia |]. split; [lia |].
        split; [exact P1 |]. split; [exact R1 |]. split; [discriminate | exact N1].
      * exists (Worker.Throw msg), h1, ms1, 1, 1. cbn [seq map List.length].
        split; [reflexivity |]. split; [lia |]. split; [lia |].
        split; [exact P1 |]. split; [exact R1 |]. split; [discriminate | exact N1].
Qed.

Lemma concat_content (n : nat) :
  Js.join (String "010" "")
          (map (fun f => ("file '" ++ f ++ "'")%string) (map normalizedName (seq 0 n))) =
  concatListOf n.
Proof. unfold concatListOf. rewrite map_map. reflexivity. Qed.

Ltac wstep :=
  unfold Worker.andThen at 1;
  cbn [Worker.sendMessage Worker.getNormalized Worker.pure
       Worker.history Worker.sent Worker.normalizedFiles].

Ltac wcall :=
  unfold Worker.andThen at 1; unfold Worker.call at 1;
  cbn [Worker.history Worker.sent Worker.normalizedFiles];
  match goal with
  | |- context [match ?e ?h ?op with Worker.Ok _ => _ | Worker.Throw _ => _ end] =>
      destruct (e h op)
  end;
  cbn [Worker.pure Worker.history Worker.sent Worker.normalizedFiles].

(** The list file is written once, with the clips in their order. *)
Ltac concat_written N1 :=
  let c := fresh "c" in let Hc := fresh "Hc" in
  intros c Hc;
  repeat (apply in_app_or in Hc; destruct Hc as [Hc | Hc]);
  first [ exfalso; apply (N1 c Hc)
        | cbn [In] in Hc; decompose [or] Hc; try clear Hc;
          try contradiction; try discriminate;
          match goal with
          | H : Worker.writeFile _ _ = Worker.writeFile _ _ |- _ =>
              inversion H; subst;
              split; [reflexivity | rewrite <- concat_content; reflexivity]
          end ].

Ltac leaf k m N1 P1 R1 :=
  unfold Worker.throw;
  match goal with
  | |- exists r h tail ms k' m' tailp,
         (?R, {| Worker.history := ((?H ++ map Worker.deleteFile ?N) ++ [?x]) ++ [?y];
                 Worker.sent := ?MS; Worker.normalizedFiles := _ |}) = _ /\ _ =>
      exists R, H, [x; y], MS, k, m
  | |- exists r h tail ms k' m' tailp,
         (?R, {| Worker.history := (?H ++ map Worker.deleteFile ?N) ++ [?x];
                 Worker.sent := ?MS; Worker.normalizedFiles := _ |}) = _ /\ _ =>
      exists R, H, [x], MS, k, m
  | |- exists r h tail ms k' m' tailp,
         (?R, {| Worker.history := ?H ++ map Worker.deleteFile ?N;
                 Worker.sent := ?MS; Worker.normalizedFiles := _ |}) = _ /\ _ =>
      exists R, H, (@nil Worker.EngineOp), MS, k, m
  end;
  eexists;
  split; [rewrite <- ?app_assoc; cbn [app]; rewrite ?app_nil_r; reflexivity |];
  split; [lia |]; split; [lia |];
  split; [rewrite <- ?app_assoc; cbn [app]; rewrite ?progressValues_app, P1;
         first [reflexivity | symmetry; apply app_nil_r] |];
  split; [eexists; reflexivity |];
  split; [rewrite ?forallb_isReport_app, R1; reflexivity |];
  split; [concat_written N1 |].

(** What a merge leaves behind, whatever the engine does: the names of the
    clips it normalized, a history that ends with the deletion of each of
    them (followed, on success, by that of the list file and the output),
    the progress values it reported, and the list file it wrote. *)
Lemma executeMerge_shape (engine : Worker.Engine) (cs : list ClipData) (s : MergeSettings) :
  2 <= List.length cs ->
  let outputName := match format s with webm => "merged.webm" | mp4 => "merged.mp4" end in
  exists r h tail ms k m tailp,
    Worker.executeMerge (Some engine) cs s Worker.start =
      (r, {| Worker.history :=
               h ++ map Worker.deleteFile (map normalizedName (seq 0 k)) ++ tail;
             Worker.sent := ms;
             Worker.normalizedFiles := map normalizedName (seq 0 k) |}) /\
    k <= List.length cs /\ m <= List.length cs /\
    progressValues ms =
      map (fun j => Worker.normalizeProgress j (List.length cs)) (seq 0 m) ++ tailp /\
    prefixOf tailp [50; 60; 95]%Z /\
    forallb isReport ms = true /\
    (forall c, In (Worker.writeFile "concat_list.txt" c) h ->
               k = List.length cs /\
               c = list_byte_of_string (concatListOf (List.length cs))) /\
    (forall msg, r = Worker.Throw msg -> tail = []) /\
    (forall d, r = Worker.Ok d ->
               k = List.length cs /\ m = List.length cs /\ tailp = [50; 60; 95]%Z /\
               (tail = [Worker.deleteFile "concat_list.txt"] \/
                tail = [Worker.deleteFile "concat_list.txt"; Worker.deleteFile outputName]) /\
               In (Worker.writeFile "concat_list.txt"
                                    (list_byte_of_string (concatListOf (List.length cs)))) h).
Proof.
  intros Hlen outputName. unfold Worker.executeMerge.
  assert (Hlt : Nat.ltb (List.length cs) 2 = false) by (apply Nat.ltb_ge; exact Hlen).
  rewrite Hlt. clear Hlt.
  unfold Worker.tryCatch at 1. unfold Worker.andThen at 1.
  destruct (normalizeFrom_shape engine (List.length cs) cs 0 Worker.start)
    as (r1 & h1 & ms1 & k & m & E1 & Hk & Hm & P1 & R1 & Hok & N1).
  rewrite E1. unfold Worker.start. cbn [Worker.history Worker.sent Worker.normalizedFiles app].
  destruct r1 as [[] | msg].
  2: { unfold Worker.andThen at 1. rewrite cleanupNormalized_exact.
       cbn [Worker.history Worker.sent Worker.normalizedFiles].
       leaf k m N1 P1 R1. split; [reflexivity | discriminate]. }
  destruct (Hok eq_refl) as [-> ->]. clear Hok.
  wstep. wstep. wstep.
  wcall.
  2: { unfold Worker.andThen at 1. rewrite cleanupNormalized_exact.
       cbn [Worker.history Worker.sent Worker.normalizedFiles].
       leaf (List.length cs) (List.length cs) N1 P1 R1.
       split; [reflexivity | discriminate]. }
  wstep. wstep.
  unfold Worker.andThen at 1. unfold Worker.tryCatch at 1.
  wcall.
  - (* the first concatenation succeeds *)
    wstep. wcall.
    2: { unfold Worker.andThen at 1. rewrite cleanupNormalized_exact.
         cbn [Worker.history Worker.sent Worker.normalizedFiles].
         leaf (List.length cs) (List.length cs) N1 P1 R1.
         split; [reflexivity | discriminate]. }
    unfold Worker.andThen at 1. rewrite cleanupNormalized_exact.
    cbn [Worker.history Worker.sent Worker.normalizedFiles].
    unfold Worker.andThen at 1. unfold Worker.tryCatch at 1.
    wcall; [wcall |]; cbn [Worker.pure];
      leaf (List.length cs) (List.length cs) N1 P1 R1;
      (split; [discriminate |]); intros d' _;
      (split; [reflexivity |]); (split; [reflexivity |]); (split; [reflexivity |]);
      (split; [auto |]);
      rewrite <- concat_content;
      repeat (apply in_or_app; first [right; left; reflexivity | left]).
  - (* the first concatenation fails *)
    wstep. wcall.
    2: { unfold Worker.andThen at 1. rewrite cleanupNormalized_exact.
         cbn [Worker.history Worker.sent Worker.normalizedFiles].
         leaf (List.length cs) (List.length cs) N1 P1 R1.
         split; [reflexivity | discriminate]. }
    wstep. wcall.
    2: { unfold Worker.andThen at 1. rewrite cleanupNormalized_exact.
         cbn [Worker.history Worker.sent Worker.normalizedFiles].
         leaf (List.length cs) (List.length cs) N1 P1 R1.
         split; [reflexivity | discriminate]. }
    unfold Worker.andThen at 1. rewrite cleanupNormalized_exact.
    cbn [Worker.history Worker.sent Worker.normalizedFiles].
    unfold Worker.andThen at 1. unfold Worker.tryCatch at 1.
    wcall; [wcall |]; cbn [Worker.pure];
      leaf (List.length cs) (List.length cs) N1 P1 R1;
      (split; [discriminate |]); intros d' _;
      (split; [reflexivity |]); (split; [reflexivity |]); (split; [reflexivity |]);
      (split; [auto |]);
      rewrite <- concat_content;
      repeat (apply in_or_app; first [right; left; reflexivity | left]).
Qed.





(** A merge cleans up after itself, whether it succeeds or fails: the
    normalized clips are clip_001.mp4, clip_002.mp4, ... for the clips it
    got through (all of them when it succeeds), and the last thing it asks
    of the engine is to delete each of them, followed on success by the
    list file and the output, and by nothing on failure. *)
Theorem executeMerge_cleans_up (engine : Worker.Engine) (cs : list ClipData)
        (s : MergeSettings) :
  2 <= List.length cs ->
  let out := Worker.executeMerge (Some engine) cs s Worker.start in
  let outputName := match format s with webm => "merged.webm" | mp4 => "merged.mp4" end in
  exists k before tail,
    k <= List.length cs /\
    Worker.normalizedFiles (snd out) = map normalizedName (seq 0 k) /\
    Worker.history (snd out) =
      before ++ map Worker.deleteFile (Worker.normalizedFiles (snd out)) ++ tail /\
    match fst out with
    | Worker.Ok _ =>
        k = List.length cs /\
        (tail = [Worker.deleteFile "concat_list.txt"] \/
         tail = [Worker.deleteFile "concat_list.txt"; Worker.deleteFile outputName])
    | Worker.Throw _ => tail = []
    end.
Proof.
  intros Hlen out outputName. unfold out.
  destruct (executeMerge_shape engine cs s Hlen)
    as (r & h & tail & ms & k & m & tailp & E & Hk & Hm & _ & _ & _ & _ & Hthrow & Hok).
  rewrite E. cbn [fst snd Worker.history Worker.normalizedFiles].
  exists k, h, tail. split; [exact Hk |]. split; [reflexivity |]. split; [reflexivity |].
  destruct r as [d | msg].
  - destruct (Hok d eq_refl) as (-> & _ & _ & Ht & _). split; [reflexivity | exact Ht].
  - apply (Hthrow msg eq_refl).
Qed.

Lemma executeMerge_cleans_up_witness :
  let out := Worker.executeMerge (Some rejectsFirstConcat) twoClips
                                 {| format := mp4 |} Worker.start in
  exists k before tail,
    k <= 2 /\
    Worker.normalizedFiles (snd out) = map normalizedName (seq 0 k) /\
    Worker.history (snd out) =
      before ++ map Worker.deleteFile (Worker.normalizedFiles (snd out)) ++ tail /\
    match fst out with
    | Worker.Ok _ =>
        k = 2 /\
        (tail = [Worker.deleteFile "concat_list.txt"] \/
         tail = [Worker.deleteFile "concat_list.txt"; Worker.deleteFile "merged.mp4"])
    | Worker.Throw _ => tail = []
    end.
Proof.
  apply (executeMerge_cleans_up rejectsFirstConcat twoClips {| format := mp4 |}).
  cbn. lia.
Defined.

Lemma valueOf_zeros (k : nat) (s : string) :
  valueOf (Js.zeros k ++ s) = valueOf s.
Proof.
  induction k as [| k IH]; [reflexivity |].
  cbn [Js.zeros append]. rewrite <- IH. unfold valueOf.
  cbn [NilEmpty.uint_of_string].
  destruct (NilEmpty.uint_of_string (Js.zeros k ++ s)); reflexivity.
Qed.

Lemma valueOf_string_of_uint (d : Decimal.uint) :
  valueOf (NilZero.string_of_uint d) = Some (Nat.of_uint d).
Proof.
  unfold valueOf, NilZero.string_of_uint.
  destruct d; try (rewrite NilEmpty.usu; reflexivity).
  reflexivity.
Qed.

Lemma valueOf_of_nat (n : nat) : valueOf (Js.of_nat n) = Some n.
Proof.
  unfold Js.of_nat. rewrite valueOf_string_of_uint, DecimalNat.Unsigned.of_to.
  reflexivity.
Qed.

Lemma append_cancel_r (a b s : string) : (a ++ s = b ++ s)%string -> a = b.
Proof.
  assert (L : forall x y : string, String.length (x ++ y) = String.length x + String.length y).
  { intros x y. induction x as [| c x IH]; cbn; [reflexivity | rewrite IH; reflexivity]. }
  revert b. induction a as [| c a IH]; intros b H.
  - destruct b as [| d b]; [reflexivity |].
    assert (E := f_equal String.length H). cbn in E. rewrite L in E. lia.
  - destruct b as [| d b].
    + assert (E := f_equal String.length H). cbn in E. rewrite L in E. lia.
    + cbn in H. inversion H. f_equal. apply IH. assumption.
Qed.

Lemma normalizedName_injective (i j : nat) : normalizedName i = normalizedName j -> i = j.
Proof.
  unfold normalizedName. intros H. cbn [append] in H. inversion H as [E]. clear H.
  apply append_cancel_r in E. apply (f_equal valueOf) in E.
  unfold Js.padStart0 in E. rewrite !valueOf_zeros, !valueOf_of_nat in E.
  inversion E. lia.
Qed.

(** A merge lists its clips once each and in their order: the names of the
    normalized clips are pairwise different, and whenever the list file is
    written, it holds the line [file 'clip_00i.mp4'] for every clip, first
    to last. *)
Theorem executeMerge_lists_clips_in_order (engine : Worker.Engine) (cs : list ClipData)
        (s : MergeSettings) :
  2 <= List.length cs ->
  let out := Worker.executeMerge (Some engine) cs s Worker.start in
  NoDup (map normalizedName (seq 0 (List.length cs))) /\
  (forall content,
     In (Worker.writeFile "concat_list.txt" content) (Worker.history (snd out)) ->
     content = list_byte_of_string (concatListOf (List.length cs))) /\
  (forall d, fst out = Worker.Ok d ->
     In (Worker.writeFile "concat_list.txt"
                          (list_byte_of_string (concatListOf (List.length cs))))
        (Worker.history (snd out))).
Proof.
  intros Hlen out. split; [| split].
  - apply Injective_map_NoDup; [| apply seq_NoDup].
    intros i j. apply normalizedName_injective.
  - unfold out.
    destruct (executeMerge_shape engine cs s Hlen)
      as (r & h & tail & ms & k & m & tailp & E & _ & _ & _ & _ & _ & Hc & Hthrow & Hok).
    rewrite E. cbn [snd Worker.history]. intros content Hin.
    apply in_app_or in Hin. destruct Hin as [Hin | Hin]; [apply (Hc content Hin) |].
    exfalso. apply in_app_or in Hin. destruct Hin as [Hin | Hin].
    + apply in_map_iff in Hin. destruct Hin as (x & Hx & _). discriminate.
    + destruct r as [d | msg].
      * destruct (Hok d eq_refl) as (_ & _ & _ & [-> | ->] & _); cbn in Hin;
          decompose [or] Hin; try discriminate; contradiction.
      * rewrite (Hthrow msg eq_refl) in Hin. destruct Hin.
  - unfold out.
    destruct (executeMerge_shape engine cs s Hlen)
      as (r & h & tail & ms & k & m & tailp & E & _ & _ & _ & _ & _ & _ & _ & Hok).
    rewrite E. cbn [fst snd Worker.history]. intros d Hd.
    destruct (Hok d Hd) as (_ & _ & _ & _ & Hw).
    apply in_or_app. left. exact Hw.
Qed.

Lemma executeMerge_lists_clips_in_order_witness :
  concatListOf 2 = ("file 'clip_001.mp4'" ++ String "010" "file 'clip_002.mp4'")%string /\
  In (Worker.writeFile "concat_list.txt" (list_byte_of_string (concatListOf 2)))
     (Worker.history (snd (Worker.executeMerge (Some rejectsFirstConcat) twoClips
                                               {| format := mp4 |} Worker.start))).
Proof.
  split; [reflexivity |].
  assert (Hlen : 2 <= List.length twoClips) by (cbn; lia).
  destruct (executeMerge_lists_clips_in_order rejectsFirstConcat twoClips
              {| format := mp4 |} Hlen) as (_ & _ & H).
  apply (H []). reflexivity.
Defined.

(** ** The worker: trim and convert *)

Ltac run_out engine E :=
  match goal with
  | |- context [match engine ?h ?op with Worker.Ok _ => _ | Worker.Throw _ => _ end] =>
      destruct (engine h op) eqn:E; cbn [fst snd Worker.history Worker.pure app]
  end.

(** A trim and a conversion ask the engine for five things in a row: write
    the input, run ffmpeg with the arguments of the mode or the quality,
    read the output, delete the input, delete the output.  They stop at the
    first of these the engine refuses and throw the engine's message: after
    a failure nothing more is asked, so nothing is cleaned up.  When all
    five succeed the result is what the engine gave for the output. *)
Theorem trim_and_convert_stop_at_failure (engine : Worker.Engine) (d : bytes)
        (inputFile : option (option bytes)) :
  (forall s,
     let out := WorkerThread.executeTrim (Some engine) (Some d) inputFile s Worker.start in
     stopsAtFailure engine (trimOps d s) out /\
     (forall r, fst out = Worker.Ok r ->
                engine (firstn 2 (trimOps d s)) (Worker.readFile "output.mp4") = Worker.Ok r)) /\
  (forall s,
     let out := Worker.executeConvert (Some engine) (Some d) inputFile s Worker.start in
     stopsAtFailure engine (convertOps d s) out /\
     (forall r, fst out = Worker.Ok r ->
                engine (firstn 2 (convertOps d s)) (Worker.readFile "output.webm") =
                Worker.Ok r)).
Proof.
  split; intros s out; unfold out, stopsAtFailure, trimOps, convertOps,
    WorkerThread.executeTrim, Worker.executeConvert, Worker.writeInputFile,
    Worker.andThen, Worker.call, Worker.pure, Worker.start;
    cbn [Worker.history Worker.sent Worker.normalizedFiles app firstn].
  all: run_out engine E1; [| split; [| discriminate];
                      exists [], (Worker.writeFile "input.mp4" d); eexists;
                      split; [reflexivity |]; split; [reflexivity | exact E1]].
  all: run_out engine E2; [| split; [| discriminate];
                      exists [Worker.writeFile "input.mp4" d]; eexists; eexists;
                      split; [reflexivity |]; split; [reflexivity | exact E2]].
  all: run_out engine E3; [| split; [| discriminate];
                      eexists [_; _]; eexists; eexists;
                      split; [reflexivity |]; split; [reflexivity | exact E3]].
  all: run_out engine E4; [| split; [| discriminate];
                      eexists [_; _; _]; eexists; eexists;
                      split; [reflexivity |]; split; [reflexivity | exact E4]].
  all: run_out engine E5; [| split; [| discriminate];
                      eexists [_; _; _; _]; eexists; eexists;
                      split; [reflexivity |]; split; [reflexivity | exact E5]].
  all: split; [reflexivity |]; intros r Hr; inversion Hr; subst; reflexivity.
Qed.

Lemma trim_and_convert_stop_at_failure_witness :
  let refuse : Worker.Engine :=
    fun h op => match op with
                | Worker.exec _ => Worker.Throw "Conversion failed"
                | _ => Worker.Ok []
                end in
  let out := WorkerThread.executeTrim (Some refuse) (Some [x00]) None sampleTrim
                                      Worker.start in
  out = (Worker.Throw "Conversion failed",
         {| Worker.history :=
              [Worker.writeFile "input.mp4" [x00];
               Worker.exec ["-ss"; "5.00"; "-to"; "15.00"; "-i"; "input.mp4";
                            "-c"; "copy"; "output.mp4"]];
            Worker.sent := []; Worker.normalizedFiles := [] |}) /\
  stopsAtFailure refuse (trimOps [x00] sampleTrim) out.
Proof.
  intros refuse out. split; [reflexivity |].
  destruct (trim_and_convert_stop_at_failure refuse [x00] None) as (H & _).
  destruct (H sampleTrim) as (S & _). exact S.
Defined.

(** ** The worker thread: one reply per message *)

Lemma silent_pure {A} (a : A) : silent (Worker.pure a).
Proof. intros st. reflexivity. Qed.

Lemma silent_throw {A} (msg : string) : silent (@Worker.throw A msg).
Proof. intros st. reflexivity. Qed.

Lemma silent_call (engine : Worker.Engine) (op : Worker.EngineOp) :
  silent (Worker.call engine op).
Proof. intros st. reflexivity. Qed.

Lemma silent_andThen {A B} (m : Worker.W A) (k : A -> Worker.W B) :
  silent m -> (forall a, silent (k a)) -> silent (Worker.andThen m k).
Proof.
  intros Hm Hk st. unfold Worker.andThen. specialize (Hm st).
  destruct (m st) as [[a | msg] st1]; cbn [snd] in *.
  - rewrite (Hk a st1). exact Hm.
  - exact Hm.
Qed.

Lemma silent_writeInputFile (e : option Worker.Engine) (inputData : option bytes)
      (inputFile : option (option bytes)) (inputName : string) :
  silent (Worker.writeInputFile e inputData inputFile inputName).
Proof.
  unfold Worker.writeInputFile. destruct e as [engine |]; [| apply silent_throw].
  apply silent_andThen.
  - destruct inputData; [apply silent_pure |].
    destruct inputFile as [[|] |]; first [apply silent_pure | apply silent_throw].
  - intros a. apply silent_andThen; [apply silent_call | intros; apply silent_pure].
Qed.

Ltac silence :=
  repeat first [ apply silent_pure | apply silent_throw | apply silent_call
               | apply silent_writeInputFile
               | apply silent_andThen; [| intros ?] ].

Lemma silent_executeTrim (e : option Worker.Engine) (inputData : option bytes)
      (inputFile : option (option bytes)) (s : TrimSettings) :
  silent (WorkerThread.executeTrim e inputData inputFile s).
Proof. unfold WorkerThread.executeTrim. destruct e; silence. Qed.

Lemma silent_executeConvert (e : option Worker.Engine) (inputData : option bytes)
      (inputFile : option (option bytes)) (s : ConvertSettings) :
  silent (Worker.executeConvert e inputData inputFile s).
Proof. unfold Worker.executeConvert. destruct e; silence. Qed.

Lemma silent_reportsOnlyW {A} (m : option Worker.Engine -> Worker.W A) :
  (forall e, silent (m e)) -> reportsOnlyW m.
Proof. intros H e. rewrite (H e Worker.start). reflexivity. Qed.

Lemma executeMerge_reportsOnlyW (cs : list ClipData) (s : MergeSettings) :
  reportsOnlyW (fun e => Worker.executeMerge e cs s).
Proof.
  intros [engine |]; [| reflexivity].
  destruct (Nat.ltb (List.length cs) 2) eqn:L.
  - unfold Worker.executeMerge. rewrite L. reflexivity.
  - apply Nat.ltb_ge in L.
    destruct (executeMerge_shape engine cs s L)
      as (r & h & tail & ms & k & m & tailp & E & _ & _ & _ & _ & R & _).
    rewrite E. exact R.
Qed.

Lemma reportsOnly_pure {A} (a : A) : reportsOnly (WorkerThread.pureT a).
Proof. intros st. cbn. repeat split. exists []. rewrite app_nil_r. split; reflexivity. Qed.

Lemma reportsOnly_throw {A} (e : WorkerThread.Thrown) : reportsOnly (@WorkerThread.throwT A e).
Proof. intros st. cbn. repeat split. exists []. rewrite app_nil_r. split; reflexivity. Qed.

Lemma reportsOnly_get : reportsOnly WorkerThread.getT.
Proof. intros st. cbn. repeat split. exists []. rewrite app_nil_r. split; reflexivity. Qed.

Lemma reportsOnly_answered {A} (op : WorkerThread.Op)
      (answer : list WorkerThread.Op -> WorkerThread.Try A) :
  reportsOnly (WorkerThread.answered op answer).
Proof. intros st. cbn. repeat split. exists []. rewrite app_nil_r. split; reflexivity. Qed.

Lemma reportsOnly_send (r : WorkerResponse) :
  isReport r = true -> reportsOnly (WorkerThread.sendMessageT r).
Proof.
  intros H st. cbn. repeat split. exists [r]. split; [reflexivity |].
  cbn. rewrite H. reflexivity.
Qed.

Lemma reportsOnly_bind {A B} (m : WorkerThread.T A) (k : A -> WorkerThread.T B) :
  reportsOnly m -> (forall a, reportsOnly (k a)) -> reportsOnly (WorkerThread.bindT m k).
Proof.
  intros Hm Hk st. unfold WorkerThread.bindT.
  destruct (Hm st) as (F1 & L1 & r1 & O1 & R1).
  destruct (m st) as [[a | e] st1]; cbn [snd] in *.
  - destruct (Hk a st1) as (F2 & L2 & r2 & O2 & R2).
    rewrite F2, L2, O2, F1, L1, O1. repeat split.
    exists (r1 ++ r2). rewrite app_assoc. split; [reflexivity |].
    rewrite forallb_app, R1, R2. reflexivity.
  - repeat split; try assumption. exists r1. split; assumption.
Qed.

Lemma reportsOnly_catch {A} (m : WorkerThread.T A) (h : WorkerThread.Thrown -> WorkerThread.T A) :
  reportsOnly m -> (forall e, reportsOnly (h e)) -> reportsOnly (WorkerThread.catchT m h).
Proof.
  intros Hm Hh st. unfold WorkerThread.catchT.
  destruct (Hm st) as (F1 & L1 & r1 & O1 & R1).
  destruct (m st) as [[a | e] st1]; cbn [snd] in *.
  - repeat split; try assumption. exists r1. split; assumption.
  - destruct (Hh e st1) as (F2 & L2 & r2 & O2 & R2).
    rewrite F2, L2, O2, F1, L1, O1. repeat split.
    exists (r1 ++ r2). rewrite app_assoc. split; [reflexivity |].
    rewrite forallb_app, R1, R2. reflexivity.
Qed.

Lemma reportsOnly_liftW {A} (env : WorkerThread.Env)
      (m : option Worker.Engine -> Worker.W A) :
  reportsOnlyW m -> reportsOnly (WorkerThread.liftW env m).
Proof.
  intros H st. unfold WorkerThread.liftW. cbn [snd WorkerThread.ffmpeg
    WorkerThread.isLoaded WorkerThread.outbox]. repeat split.
  eexists. split; [reflexivity |]. apply H.
Qed.

Lemma reportsOnly_fileCall (env : WorkerThread.Env) (op : Worker.EngineOp) :
  reportsOnly (WorkerThread.fileCall env op).
Proof. apply reportsOnly_answered. Qed.

Lemma reportsOnly_dirCall (env : WorkerThread.Env) (op : WorkerThread.DirOp) :
  reportsOnly (WorkerThread.dirCall env op).
Proof. apply reportsOnly_answered. Qed.

Lemma reportsOnly_readFrames (env : WorkerThread.Env) (files : list WorkerThread.FSNode) :
  forall frames, reportsOnly (WorkerThread.readFrames env files frames).
Proof.
  induction files as [| f rest IH]; intros frames; cbn [WorkerThread.readFrames].
  - apply reportsOnly_pure.
  - destruct (WorkerThread.endsWith _ _); [| apply IH].
    apply reportsOnly_bind; [apply reportsOnly_fileCall | intros d].
    apply reportsOnly_bind; [apply reportsOnly_fileCall | intros _].
    apply IH.
Qed.

Lemma reportsOnly_executeFrames (env : WorkerThread.Env) (inputData : option bytes)
      (inputFile : option (option bytes)) (s : FrameSettings) :
  reportsOnly (WorkerThread.executeFrames env inputData inputFile s).
Proof.
  unfold WorkerThread.executeFrames.
  apply reportsOnly_bind; [apply reportsOnly_get | intros st].
  destruct (negb (WorkerThread.ffmpeg st)); [apply reportsOnly_throw |].
  repeat first
    [ apply reportsOnly_pure
    | apply reportsOnly_fileCall
    | apply reportsOnly_dirCall
    | apply reportsOnly_readFrames
    | apply reportsOnly_liftW; apply silent_reportsOnlyW; intros e;
      apply silent_writeInputFile
    | apply reportsOnly_bind; [| intros ?] ].
Qed.

(** A computation that only reports, followed by the sending of [t], and
    the sending of an error when it throws. *)
Lemma replies_once {A} (m : WorkerThread.T A) (reply : A -> WorkerResponse)
      (failure : WorkerThread.Thrown -> WorkerResponse) (st : WorkerThread.Thread) :
  reportsOnly m ->
  (forall a, isTerminal (reply a) = true) ->
  (forall e, isTerminal (failure e) = true) ->
  let out := WorkerThread.catchT
               (WorkerThread.bindT m (fun a => WorkerThread.sendMessageT (reply a)))
               (fun e => WorkerThread.sendMessageT (failure e)) st in
  fst out = WorkerThread.Done tt /\
  WorkerThread.ffmpeg (snd out) = WorkerThread.ffmpeg st /\
  WorkerThread.isLoaded (snd out) = WorkerThread.isLoaded st /\
  repliedWith st (snd out)
    (fun t => match fst (m st) with
              | WorkerThread.Done a => t = reply a
              | WorkerThread.Raised e => t = failure e
              end).
Proof.
  intros Hm Hr Hf out. unfold out, WorkerThread.catchT, WorkerThread.bindT.
  destruct (Hm st) as (F1 & L1 & r1 & O1 & R1).
  destruct (m st) as [[a | e] st1]; cbn [fst snd WorkerThread.sendMessageT
    WorkerThread.ffmpeg WorkerThread.isLoaded WorkerThread.outbox] in *.
  - repeat split; try assumption. exists r1, (reply a). rewrite O1, app_assoc. auto.
  - repeat split; try assumption. exists r1, (failure e). rewrite O1, app_assoc. auto.
Qed.

Ltac thread_run :=
  repeat first
    [ progress cbn [WorkerThread.bindT WorkerThread.catchT WorkerThread.pureT
                    WorkerThread.throwT WorkerThread.getT WorkerThread.request
                    WorkerThread.setFfmpeg WorkerThread.setIsLoaded
                    WorkerThread.sendMessageT WorkerThread.answered
                    WorkerThread.ffmpeg WorkerThread.isLoaded WorkerThread.ops
                    WorkerThread.outbox fst snd negb andb]
    | match goal with
      | |- context [match ?x with
                    | WorkerThread.Done _ => _
                    | WorkerThread.Raised _ => _
                    end] =>
          lazymatch x with
          | WorkerThread.Done _ => fail
          | WorkerThread.Raised _ => fail
          | _ => let E := fresh "E" in destruct x eqn:E
          end
      | |- context [if ?b then _ else _] =>
          lazymatch b with
          | true => fail
          | false => fail
          | _ => let E := fresh "E" in destruct b eqn:E
          end
      end ].

Ltac replied st :=
  unfold repliedWith; cbn [WorkerThread.outbox WorkerThread.isLoaded WorkerThread.ffmpeg];
  rewrite <- ?app_assoc; cbn [app];
  match goal with
  | |- exists reports t, WorkerThread.outbox st ++ ?L = _ /\ _ =>
      exists (removelast L), (last L WorkerThread.loadedMessage);
      split; [reflexivity |]; split; [reflexivity |]
  end.

(** [loadFFmpeg] never throws; unless the engine is loaded already, it
    ends by sending 'loaded', with [isLoaded] set, or 'error', with
    [isLoaded] as it was. *)
Lemma loadFFmpeg_replies (env : WorkerThread.Env) (st : WorkerThread.Thread) :
  exists st',
    WorkerThread.loadFFmpeg env st = (WorkerThread.Done tt, st') /\
    if WorkerThread.isLoaded st && WorkerThread.ffmpeg st
    then st' = st
    else repliedWith st st'
           (fun t => (t = WorkerThread.loadedMessage /\
                      WorkerThread.isLoaded st' = true /\
                      WorkerThread.ffmpeg st' = true) \/
                     (r_type t = rError /\
                      WorkerThread.isLoaded st' = WorkerThread.isLoaded st)).
Proof.
  unfold WorkerThread.loadFFmpeg.
  unfold WorkerThread.bindT at 1. cbn [WorkerThread.getT].
  destruct (WorkerThread.isLoaded st && WorkerThread.ffmpeg st) eqn:B.
  - exists st. split; reflexivity.
  - unfold WorkerThread.fetchToBlobURL, WorkerThread.checkSharedArrayBuffer.
    unfold WorkerThread.catchT, WorkerThread.bindT.
    thread_run; eexists; (split; [reflexivity |]); replied st;
      first [ left; repeat split; reflexivity | right; split; reflexivity ].
Qed.

Lemma pair_of {A B} (p : A * B) (a : A) : fst p = a -> p = (a, snd p).
Proof. destruct p. cbn. intros ->. reflexivity. Qed.

Lemma replied_weaken (st st' : WorkerThread.Thread) (P Q : WorkerResponse -> Prop) :
  (forall t, P t -> Q t) -> repliedWith st st' P -> repliedWith st st' Q.
Proof. intros H (reports & t & O & R & Pt). exists reports, t. auto. Qed.

Lemma onmessage_replies (env : WorkerThread.Env) (type : WorkerThread.MessageType)
        (payload : option WorkerThread.Command) (st : WorkerThread.Thread) :
  exists st',
    WorkerThread.onmessage env type payload st = (WorkerThread.Done tt, st') /\
    match type with
    | WorkerThread.mtExecute =>
        WorkerThread.ffmpeg st' = WorkerThread.ffmpeg st /\
        WorkerThread.isLoaded st' = WorkerThread.isLoaded st /\
        repliedWith st st' (fun t => isTerminal t = true /\ answers payload t)
    | WorkerThread.mtCancel => st' = st
    | WorkerThread.mtLoad =>
        if WorkerThread.isLoaded st && WorkerThread.ffmpeg st
        then st' = st
        else repliedWith st st'
               (fun t => (t = WorkerThread.loadedMessage /\
                          WorkerThread.isLoaded st' = true /\
                          WorkerThread.ffmpeg st' = true) \/
                         (r_type t = rError /\
                          WorkerThread.isLoaded st' = WorkerThread.isLoaded st))
    end.
Proof.
  destruct type.
  - (* load *)
    destruct (loadFFmpeg_replies env st) as (st' & E & H).
    exists st'. split; [| exact H].
    unfold WorkerThread.onmessage, WorkerThread.catchT. rewrite E. reflexivity.
  - (* execute *)
    assert (Direct : forall msg,
              exists st',
                WorkerThread.catchT (WorkerThread.throwT (WorkerThread.ErrorObject msg))
                  (fun error =>
                     WorkerThread.sendMessageT
                       (WorkerThread.errorResponse
                          match error with
                          | WorkerThread.ErrorObject m => m
                          | _ => "Unknown error occurred"
                          end)) st = (WorkerThread.Done tt, st') /\
                WorkerThread.ffmpeg st' = WorkerThread.ffmpeg st /\
                WorkerThread.isLoaded st' = WorkerThread.isLoaded st /\
                repliedWith st st' (fun t => isTerminal t = true /\ answers payload t)).
    { intros msg. eexists. split; [reflexivity |]. cbn. repeat split.
      exists [], (WorkerThread.errorResponse msg). cbn. repeat split. left. reflexivity. }
    assert (Run : forall (A : Type) (m : WorkerThread.T A) (reply : A -> WorkerResponse) cmd,
              payload = Some cmd ->
              reportsOnly m ->
              (forall a, carriesOutputOf cmd (reply a) = true) ->
              exists st',
                WorkerThread.catchT
                  (WorkerThread.bindT m (fun a => WorkerThread.sendMessageT (reply a)))
                  (fun error =>
                     WorkerThread.sendMessageT
                       (WorkerThread.errorResponse
                          match error with
                          | WorkerThread.ErrorObject m => m
                          | _ => "Unknown error occurred"
                          end)) st = (WorkerThread.Done tt, st') /\
                WorkerThread.ffmpeg st' = WorkerThread.ffmpeg st /\
                WorkerThread.isLoaded st' = WorkerThread.isLoaded st /\
                repliedWith st st' (fun t => isTerminal t = true /\ answers payload t)).
    { intros A m reply cmd Hp Hm Hr.
      assert (Hterm : forall a, isTerminal (reply a) = true).
      { intros a. specialize (Hr a). unfold carriesOutputOf in Hr. unfold isTerminal.
        destruct (r_type (reply a)); try discriminate; reflexivity. }
      destruct (replies_once m reply
                  (fun error => WorkerThread.errorResponse
                                  match error with
                                  | WorkerThread.ErrorObject m => m
                                  | _ => "Unknown error occurred"
                                  end) st Hm Hterm (fun _ => eq_refl))
        as (F & Hf & Hl & Hrep).
      eexists. split; [apply pair_of; exact F |].
      split; [exact Hf |]. split; [exact Hl |].
      revert Hrep. apply replied_weaken. intros t Ht.
      destruct (fst (m st)) as [a | e]; subst t.
      - split; [apply Hterm |]. right. exists cmd. split; [exact Hp | apply Hr].
      - split; [reflexivity |]. left. reflexivity. }
    unfold WorkerThread.onmessage.
    destruct payload as [[inputData inputFile s | inputData inputFile s
                          | inputData inputFile s | [cs |] s] |].
    + eapply Run; [reflexivity | | intros a; reflexivity].
      apply reportsOnly_liftW, silent_reportsOnlyW. intros e. apply silent_executeTrim.
    + eapply Run; [reflexivity | | intros a; reflexivity].
      apply reportsOnly_executeFrames.
    + eapply Run; [reflexivity | | intros a; reflexivity].
      apply reportsOnly_liftW, silent_reportsOnlyW. intros e. apply silent_executeConvert.
    + eapply Run; [reflexivity | | intros a; reflexivity].
      apply reportsOnly_liftW. apply executeMerge_reportsOnlyW.
    + apply Direct.
    + apply Direct.
  - (* cancel *)
    exists st. split; reflexivity.
Qed.

(** Every message the worker thread handles ends without an exception.
    An 'execute' message is answered by log and progress messages followed
    by exactly one last message: 'error', or 'complete' with the output the
    command's listener looks for; [ffmpeg] and [isLoaded] stay as they
    were.  A 'load' message is answered the same way by 'loaded' or
    'error', and by nothing at all when the engine is loaded already.  A
    'cancel' message changes nothing. *)
Theorem onmessage_one_reply (env : WorkerThread.Env) (type : WorkerThread.MessageType)
        (payload : option WorkerThread.Command) (st : WorkerThread.Thread) :
  exists st',
    WorkerThread.onmessage env type payload st = (WorkerThread.Done tt, st') /\
    match type with
    | WorkerThread.mtExecute =>
        WorkerThread.ffmpeg st' = WorkerThread.ffmpeg st /\
        WorkerThread.isLoaded st' = WorkerThread.isLoaded st /\
        repliedWith st st' (fun t => isTerminal t = true /\ answers payload t)
    | WorkerThread.mtCancel => st' = st
    | WorkerThread.mtLoad =>
        if WorkerThread.isLoaded st && WorkerThread.ffmpeg st
        then st' = st
        else repliedWith st st'
               (fun t => (t = WorkerThread.loadedMessage /\
                          WorkerThread.isLoaded st' = true /\
                          WorkerThread.ffmpeg st' = true) \/
                         (r_type t = rError /\
                          WorkerThread.isLoaded st' = WorkerThread.isLoaded st))
    end.
Proof. exact (onmessage_replies env type payload st). Qed.

(** ** The worker thread: what it refuses *)

(** The worker refuses a message without asking anything of the engine,
    with one 'error' message: 'No payload provided' for an 'execute'
    without payload, 'No clips provided for merge' for a merge without
    clips, 'FFmpeg not loaded' for any other command while there is no
    engine, and, with an engine, 'Need at least 2 clips to merge' for a
    merge of fewer than two clips and 'No input data or file provided' for
    a command with neither bytes nor file. *)
Theorem onmessage_refuses (env : WorkerThread.Env) (st : WorkerThread.Thread) :
  let after payload := snd (WorkerThread.onmessage env WorkerThread.mtExecute payload st) in
  refusedWith "No payload provided" st (after None) /\
  (forall s, refusedWith "No clips provided for merge" st
               (after (Some (WorkerThread.mergeCommand None s)))) /\
  (WorkerThread.ffmpeg st = false ->
   forall cmd, hasItsClips cmd = true ->
               refusedWith "FFmpeg not loaded" st (after (Some cmd))) /\
  (WorkerThread.ffmpeg st = true ->
   (forall cs s, List.length cs < 2 ->
                 refusedWith "Need at least 2 clips to merge" st
                   (after (Some (WorkerThread.mergeCommand (Some cs) s)))) /\
   (forall cmd, lacksInput cmd = true ->
                refusedWith "No input data or file provided" st (after (Some cmd)))).
Proof.
  intros after. unfold after, refusedWith.
  split; [cbn; repeat split |]. split; [intros s; cbn; repeat split |]. split.
  - intros F [inputData inputFile s | inputData inputFile s
              | inputData inputFile s | [cs |] s] H; try discriminate H;
      unfold WorkerThread.onmessage, WorkerThread.catchT, WorkerThread.bindT,
        WorkerThread.liftW, WorkerThread.executeFrames;
      cbn beta iota delta [WorkerThread.getT]; rewrite ?F;
      repeat (progress (rewrite ?F; cbn)); rewrite ?app_nil_r; repeat split; auto.
  - intros F. split.
    + intros cs s Hlen.
      unfold WorkerThread.onmessage, WorkerThread.catchT, WorkerThread.bindT,
        WorkerThread.liftW, Worker.executeMerge.
      rewrite F. apply Nat.ltb_lt in Hlen. rewrite Hlen.
      cbn. rewrite ?app_nil_r. repeat split; auto.
    + intros [[d |] [f |] s | [d |] [f |] s | [d |] [f |] s | cs s] H;
        try discriminate H;
        unfold WorkerThread.onmessage, WorkerThread.catchT, WorkerThread.bindT,
          WorkerThread.liftW, WorkerThread.executeFrames;
        cbn beta iota delta [WorkerThread.getT]; rewrite ?F;
        repeat (progress (rewrite ?F; cbn)); rewrite ?app_nil_r; repeat split; auto.
Qed.

Lemma onmessage_refuses_witness :
  refusedWith "FFmpeg not loaded" WorkerThread.initial
    (snd (WorkerThread.onmessage
            {| WorkerThread.hasSharedArrayBuffer := true;
               WorkerThread.fileAnswer := fun _ _ => Worker.Ok [];
               WorkerThread.dirAnswer := fun _ _ => WorkerThread.Done [];
               WorkerThread.loadAnswer := fun _ => WorkerThread.Done tt;
               WorkerThread.fetchAnswer := fun _ _ => WorkerThread.Raised
                                                        (WorkerThread.StringValue "offline");
               WorkerThread.objectURL := fun _ => "blob:0";
               WorkerThread.numberToString := fun _ => "1" |}
            WorkerThread.mtExecute
            (Some (WorkerThread.trimCommand (Some [x00]) None sampleTrim))
            WorkerThread.initial)).
Proof.
  match goal with
  | |- refusedWith _ _ (snd (WorkerThread.onmessage ?env _ _ _)) =>
      destruct (onmessage_refuses env WorkerThread.initial) as (_ & _ & H & _)
  end.
  apply H; reflexivity.
Defined.

(** ** The worker thread: loading the engine *)

(** How a load that has to be done goes.  Without [SharedArrayBuffer] no
    engine is created and nothing is fetched: the thread reports the
    missing capability in one 'error' message.  When the server answers
    the request for the core script with a failure status, the 'error'
    message names the file and the status, the wasm file is not asked for
    and the engine is not loaded, so that a later 'load' starts over.  When
    both files arrive and the engine loads them, they were fetched in the
    order script, wasm, each turned into an object URL, the engine was
    loaded with the two URLs, [isLoaded] is set and the last message is
    'loaded'. *)
Theorem loadFFmpeg_outcomes (env : WorkerThread.Env) (st : WorkerThread.Thread) :
  WorkerThread.isLoaded st && WorkerThread.ffmpeg st = false ->
  let st' := snd (WorkerThread.loadFFmpeg env st) in
  let script := "/ffmpeg/ffmpeg-core.js" in
  let wasm := "/ffmpeg/ffmpeg-core.wasm" in
  let h1 := WorkerThread.ops st ++ [WorkerThread.newFFmpeg] in
  (WorkerThread.hasSharedArrayBuffer env = false ->
   WorkerThread.ffmpeg st' = WorkerThread.ffmpeg st /\
   WorkerThread.isLoaded st' = WorkerThread.isLoaded st /\
   WorkerThread.ops st' = WorkerThread.ops st /\
   WorkerThread.outbox st' =
     WorkerThread.outbox st ++
     [Worker.logMessage ("FFmpeg load error details: " ++ WorkerThread.SAB_MISSING);
      WorkerThread.errorResponse ("Failed to load FFmpeg: " ++ WorkerThread.SAB_MISSING)]) /\
  (WorkerThread.hasSharedArrayBuffer env = true ->
   forall response,
     WorkerThread.fetchAnswer env h1 script = WorkerThread.Done response ->
     WorkerThread.ok response = false ->
     WorkerThread.ffmpeg st' = true /\
     WorkerThread.isLoaded st' = WorkerThread.isLoaded st /\
     WorkerThread.ops st' = h1 ++ [WorkerThread.fetched script] /\
     exists earlier,
       forallb isReport earlier = true /\
       WorkerThread.outbox st' =
         WorkerThread.outbox st ++ earlier ++
         [WorkerThread.errorResponse
            ("Failed to load FFmpeg: Network error fetching /ffmpeg/ffmpeg-core.js: " ++
             "Fetch failed: " ++ Js.of_nat (WorkerThread.status response) ++ " " ++
             WorkerThread.statusText response)]) /\
  (WorkerThread.hasSharedArrayBuffer env = true ->
   forall r1 n1 r2 n2,
     let h2 := h1 ++ [WorkerThread.fetched script] in
     let h3 := h2 ++ [WorkerThread.createdObjectURL n1] in
     let h4 := h3 ++ [WorkerThread.fetched wasm] in
     let h5 := h4 ++ [WorkerThread.createdObjectURL n2] in
     WorkerThread.fetchAnswer env h1 script = WorkerThread.Done r1 ->
     WorkerThread.ok r1 = true -> WorkerThread.blob r1 = WorkerThread.Done n1 ->
     WorkerThread.fetchAnswer env h3 wasm = WorkerThread.Done r2 ->
     WorkerThread.ok r2 = true -> WorkerThread.blob r2 = WorkerThread.Done n2 ->
     WorkerThread.loadAnswer env h5 = WorkerThread.Done tt ->
     WorkerThread.ffmpeg st' = true /\
     WorkerThread.isLoaded st' = true /\
     WorkerThread.ops st' =
       h5 ++ [WorkerThread.loadCore (WorkerThread.objectURL env h2)
                                    (WorkerThread.objectURL env h4)] /\
     exists earlier,
       forallb isReport earlier = true /\
       WorkerThread.outbox st' =
         WorkerThread.outbox st ++ earlier ++ [WorkerThread.loadedMessage]).
Proof.
  intros B st' script wasm h1. unfold st', script, wasm, h1.
  unfold WorkerThread.loadFFmpeg, WorkerThread.fetchToBlobURL,
    WorkerThread.checkSharedArrayBuffer, WorkerThread.CORE_BASE,
    WorkerThread.catchT, WorkerThread.bindT.
  cbn [WorkerThread.getT]. rewrite !B.
  split; [| split].
  - intros Hsab. rewrite Hsab. cbn. repeat split; rewrite <- ?app_assoc; reflexivity.
  - intros Hsab response Hf Hok. rewrite Hsab.
    cbn [WorkerThread.pureT WorkerThread.request WorkerThread.setFfmpeg
         WorkerThread.sendMessageT WorkerThread.answered WorkerThread.ops
         WorkerThread.ffmpeg WorkerThread.isLoaded WorkerThread.outbox append].
    rewrite Hf. rewrite Hok.
    cbn [negb WorkerThread.throwT WorkerThread.sendMessageT WorkerThread.messageOrString
         WorkerThread.loadErrorMessage snd WorkerThread.ops WorkerThread.ffmpeg
         WorkerThread.isLoaded WorkerThread.outbox].
    split; [reflexivity |]. split; [reflexivity |]. split; [reflexivity |].
    eexists ([_; _; _; _]).
    split; [| rewrite <- !app_assoc; reflexivity]. reflexivity.
  - intros Hsab r1 n1 r2 n2 Hf1 Hok1 Hb1 Hf2 Hok2 Hb2 Hl. rewrite Hsab.
    cbn [WorkerThread.pureT WorkerThread.request WorkerThread.setFfmpeg
         WorkerThread.sendMessageT WorkerThread.answered WorkerThread.ops
         WorkerThread.ffmpeg WorkerThread.isLoaded WorkerThread.outbox append].
    rewrite Hf1, Hok1. cbn [negb]. rewrite Hb1.
    cbn [WorkerThread.sendMessageT WorkerThread.answered WorkerThread.ops
         WorkerThread.ffmpeg WorkerThread.isLoaded WorkerThread.outbox].
    rewrite Hf2, Hok2. cbn [negb]. rewrite Hb2.
    cbn [WorkerThread.sendMessageT WorkerThread.answered WorkerThread.ops
         WorkerThread.ffmpeg WorkerThread.isLoaded WorkerThread.outbox].
    rewrite Hl.
    cbn [WorkerThread.sendMessageT WorkerThread.setIsLoaded snd WorkerThread.ops
         WorkerThread.ffmpeg WorkerThread.isLoaded WorkerThread.outbox].
    split; [reflexivity |]. split; [reflexivity |]. split; [reflexivity |].
    eexists ([_; _; _; _; _; _; _; _; _]).
    split; [| rewrite <- !app_assoc; reflexivity]. reflexivity.
Qed.

Lemma loadFFmpeg_outcomes_witness :
  let env :=
    {| WorkerThread.hasSharedArrayBuffer := true;
       WorkerThread.fileAnswer := fun _ _ => Worker.Ok [];
       WorkerThread.dirAnswer := fun _ _ => WorkerThread.Done [];
       WorkerThread.loadAnswer := fun _ => WorkerThread.Done tt;
       WorkerThread.fetchAnswer := fun _ _ =>
         WorkerThread.Done {| WorkerThread.ok := false; WorkerThread.status := 404;
                              WorkerThread.statusText := "Not Found";
                              WorkerThread.blob := WorkerThread.Done 0 |};
       WorkerThread.objectURL := fun _ => "blob:0";
       WorkerThread.numberToString := fun _ => "1" |} in
  exists earlier,
    WorkerThread.outbox (snd (WorkerThread.loadFFmpeg env WorkerThread.initial)) =
    earlier ++
    [WorkerThread.errorResponse
       ("Failed to load FFmpeg: Network error fetching /ffmpeg/ffmpeg-core.js: " ++
        "Fetch failed: 404 Not Found")].
Proof.
  intros env.
  destruct (loadFFmpeg_outcomes env WorkerThread.initial eq_refl) as (_ & H & _).
  destruct (H eq_refl _ eq_refl eq_refl) as (_ & _ & _ & earlier & _ & E).
  exists earlier. exact E.
Defined.

(** ** The worker thread: frame extraction *)

Lemma readFrames_shape (env : WorkerThread.Env) (files : list WorkerThread.FSNode) :
  forall acc st,
    exists r st',
      WorkerThread.readFrames env files acc st = (r, st') /\
      WorkerThread.ffmpeg st' = WorkerThread.ffmpeg st /\
      WorkerThread.isLoaded st' = WorkerThread.isLoaded st /\
      WorkerThread.outbox st' = WorkerThread.outbox st /\
      match r with
      | WorkerThread.Done frames =>
          exists new,
            frames = acc ++ new /\
            map fst new = jpgNames files /\
            framesRead env (WorkerThread.ops st) new /\
            WorkerThread.ops st' = WorkerThread.ops st ++ flat_map frameOps (map fst new)
      | WorkerThread.Raised e =>
          exists h op,
            WorkerThread.ops st' = WorkerThread.ops st ++ h ++ [op] /\
            refusedAt env (WorkerThread.ops st ++ h) op e
      end.
Proof.
  induction files as [| f rest IH]; intros acc st.
  - exists (WorkerThread.Done acc), st. cbn. repeat split.
    exists []. rewrite !app_nil_r. repeat split.
  - cbn [WorkerThread.readFrames]. unfold jpgNames. cbn [map filter].
    destruct (WorkerThread.endsWith (WorkerThread.node_name f) ".jpg") eqn:J.
    + unfold WorkerThread.bindT at 1. unfold WorkerThread.fileCall at 1.
      unfold WorkerThread.answered at 1.
      destruct (WorkerThread.fileAnswer env (WorkerThread.ops st)
                  (Worker.readFile ("frames/" ++ WorkerThread.node_name f))) as [data | msg] eqn:R;
        cbn [WorkerThread.ofResult].
      * unfold WorkerThread.bindT at 1. unfold WorkerThread.fileCall at 1.
        unfold WorkerThread.answered at 1. cbn [WorkerThread.ops WorkerThread.ffmpeg
          WorkerThread.isLoaded WorkerThread.outbox].
        destruct (WorkerThread.fileAnswer env
                    (WorkerThread.ops st ++
                     [WorkerThread.onFile
                        (Worker.readFile ("frames/" ++ WorkerThread.node_name f))])
                    (Worker.deleteFile ("frames/" ++ WorkerThread.node_name f)))
          as [gone | msg] eqn:D; cbn [WorkerThread.ofResult].
        -- match goal with
           | |- context [WorkerThread.readFrames env rest ?a ?s] =>
               destruct (IH a s) as (r & st' & E & F1 & F2 & F3 & F4)
           end.
           exists r, st'. split; [exact E |].
           cbn [WorkerThread.ops WorkerThread.ffmpeg WorkerThread.isLoaded
                WorkerThread.outbox] in F1, F2, F3, F4.
           split; [exact F1 |]. split; [exact F2 |]. split; [exact F3 |].
           destruct r as [frames | e].
           ++ destruct F4 as (new & N1 & N2 & N3 & N4).
              exists ((WorkerThread.node_name f, data) :: new).
              split; [rewrite N1, <- app_assoc; reflexivity |].
              split; [cbn [map fst]; rewrite N2; reflexivity |].
              split.
              ** cbn [framesRead]. split; [exact R |].
                 unfold frameOps. rewrite <- app_assoc in N3. exact N3.
              ** rewrite N4. cbn [map fst flat_map frameOps].
                 rewrite <- !app_assoc. reflexivity.
           ++ destruct F4 as (h & op & H1 & H2).
              exists (frameOps (WorkerThread.node_name f) ++ h), op.
              unfold frameOps. split.
              ** rewrite H1. rewrite <- !app_assoc. reflexivity.
              ** rewrite <- !app_assoc in H2. exact H2.
        -- eexists _, _. split; [reflexivity |].
           cbn [WorkerThread.ops WorkerThread.ffmpeg WorkerThread.isLoaded
                WorkerThread.outbox].
           repeat split.
           exists [WorkerThread.onFile
                     (Worker.readFile ("frames/" ++ WorkerThread.node_name f))],
             (WorkerThread.onFile
                (Worker.deleteFile ("frames/" ++ WorkerThread.node_name f))).
           split; [rewrite <- app_assoc; reflexivity |].
           cbn [refusedAt]. rewrite D. reflexivity.
      * eexists _, _. split; [reflexivity |].
        cbn [WorkerThread.ops WorkerThread.ffmpeg WorkerThread.isLoaded
             WorkerThread.outbox].
        repeat split.
        exists [], (WorkerThread.onFile
                      (Worker.readFile ("frames/" ++ WorkerThread.node_name f))).
        split; [reflexivity |]. cbn [refusedAt]. rewrite app_nil_r, R. reflexivity.
    + destruct (IH acc st) as (r & st' & E & F1 & F2 & F3 & F4).
      exists r, st'. repeat (split; [assumption |]). exact F4.
Qed.

Lemma executeFrames_shape (env : WorkerThread.Env) (d : bytes)
      (inputFile : option (option bytes)) (s : FrameSettings) (st : WorkerThread.Thread) :
  WorkerThread.ffmpeg st = true ->
  exists r st',
    WorkerThread.executeFrames env (Some d) inputFile s st = (r, st') /\
    WorkerThread.ffmpeg st' = WorkerThread.ffmpeg st /\
    WorkerThread.isLoaded st' = WorkerThread.isLoaded st /\
    WorkerThread.outbox st' = WorkerThread.outbox st /\
    match r with
    | WorkerThread.Done frames =>
        exists files,
          WorkerThread.dirAnswer env
            (WorkerThread.ops st ++ removelast (framesSetup env d s))
            (WorkerThread.listDir "frames") = WorkerThread.Done files /\
          map fst frames = jpgNames files /\
          framesRead env (WorkerThread.ops st ++ framesSetup env d s) frames /\
          WorkerThread.ops st' =
            WorkerThread.ops st ++ framesSetup env d s ++
            flat_map frameOps (map fst frames) ++
            [WorkerThread.onDir (WorkerThread.deleteDir "frames");
             WorkerThread.onFile (Worker.deleteFile "input.mp4")]
    | WorkerThread.Raised e =>
        exists h op,
          WorkerThread.ops st' = WorkerThread.ops st ++ h ++ [op] /\
          refusedAt env (WorkerThread.ops st ++ h) op e
    end.
Proof.
  intros F.
  unfold WorkerThread.executeFrames.
  unfold WorkerThread.bindT at 1. cbn [WorkerThread.getT]. rewrite F. cbn [negb].
  unfold WorkerThread.bindT at 1. unfold WorkerThread.liftW. rewrite F.
  unfold Worker.writeInputFile, Worker.andThen, Worker.call, Worker.pure,
    WorkerThread.engineAfter.
  cbn [Worker.history Worker.sent Worker.start map fst snd].
  rewrite !app_nil_r.
  destruct (WorkerThread.fileAnswer env (WorkerThread.ops st)
              (Worker.writeFile "input.mp4" d)) as [w0 | msg] eqn:A1;
    cbn [fst snd WorkerThread.ofResult Worker.history Worker.sent map app].
  2: { eexists _, _. split; [reflexivity |].
       cbn [WorkerThread.ops WorkerThread.ffmpeg WorkerThread.isLoaded WorkerThread.outbox].
       rewrite ?app_nil_r. repeat split.
       exists [], (WorkerThread.onFile (Worker.writeFile "input.mp4" d)).
       split; [reflexivity |]. cbn [refusedAt]. rewrite app_nil_r, A1. reflexivity. }
  rewrite ?app_nil_r.
  unfold WorkerThread.bindT at 1. unfold WorkerThread.dirCall at 1.
  unfold WorkerThread.answered at 1.
  cbn [WorkerThread.ops WorkerThread.ffmpeg WorkerThread.isLoaded WorkerThread.outbox].
  destruct (WorkerThread.dirAnswer env
              (WorkerThread.ops st ++ [WorkerThread.onFile (Worker.writeFile "input.mp4" d)])
              (WorkerThread.createDir "frames")) as [made | e] eqn:A2.
  2: { eexists _, _. split; [reflexivity |].
       cbn [WorkerThread.ops WorkerThread.ffmpeg WorkerThread.isLoaded WorkerThread.outbox].
       repeat split.
       exists [WorkerThread.onFile (Worker.writeFile "input.mp4" d)],
         (WorkerThread.onDir (WorkerThread.createDir "frames")).
       split; [rewrite <- app_assoc; reflexivity |]. cbn [refusedAt]. exact A2. }
  unfold WorkerThread.bindT at 1. unfold WorkerThread.fileCall at 1.
  unfold WorkerThread.answered at 1.
  cbn [WorkerThread.ops WorkerThread.ffmpeg WorkerThread.isLoaded WorkerThread.outbox].
  destruct (WorkerThread.fileAnswer env
              ((WorkerThread.ops st ++ [WorkerThread.onFile (Worker.writeFile "input.mp4" d)]) ++
               [WorkerThread.onDir (WorkerThread.createDir "frames")])
              (Worker.exec (WorkerThread.framesArgs env s "input.mp4"))) as [ran | msg] eqn:A3;
    cbn [WorkerThread.ofResult].
  2: { eexists _, _. split; [reflexivity |].
       cbn [WorkerThread.ops WorkerThread.ffmpeg WorkerThread.isLoaded WorkerThread.outbox].
       repeat split.
       exists [WorkerThread.onFile (Worker.writeFile "input.mp4" d);
               WorkerThread.onDir (WorkerThread.createDir "frames")],
         (WorkerThread.onFile (Worker.exec (WorkerThread.framesArgs env s "input.mp4"))).
       split; [rewrite <- !app_assoc; reflexivity |]. cbn [refusedAt].
       rewrite <- !app_assoc in A3. cbn [app] in A3 |- *. rewrite A3. reflexivity. }
  unfold WorkerThread.bindT at 1. unfold WorkerThread.dirCall at 1.
  unfold WorkerThread.answered at 1.
  cbn [WorkerThread.ops WorkerThread.ffmpeg WorkerThread.isLoaded WorkerThread.outbox].
  destruct (WorkerThread.dirAnswer env
              (((WorkerThread.ops st ++ [WorkerThread.onFile (Worker.writeFile "input.mp4" d)]) ++
                [WorkerThread.onDir (WorkerThread.createDir "frames")]) ++
               [WorkerThread.onFile (Worker.exec (WorkerThread.framesArgs env s "input.mp4"))])
              (WorkerThread.listDir "frames")) as [files | e] eqn:A4.
  2: { eexists _, _. split; [reflexivity |].
       cbn [WorkerThread.ops WorkerThread.ffmpeg WorkerThread.isLoaded WorkerThread.outbox].
       repeat split.
       exists [WorkerThread.onFile (Worker.writeFile "input.mp4" d);
               WorkerThread.onDir (WorkerThread.createDir "frames");
               WorkerThread.onFile (Worker.exec (WorkerThread.framesArgs env s "input.mp4"))],
         (WorkerThread.onDir (WorkerThread.listDir "frames")).
       split; [rewrite <- !app_assoc; reflexivity |]. cbn [refusedAt].
       rewrite <- !app_assoc in A4. exact A4. }
  unfold WorkerThread.bindT at 1.
  match goal with
  | |- context [WorkerThread.readFrames env files [] ?s0] =>
      destruct (readFrames_shape env files [] s0) as (r & st1 & E & F1 & F2 & F3 & F4);
      rewrite E
  end.
  cbn [WorkerThread.ops WorkerThread.ffmpeg WorkerThread.isLoaded WorkerThread.outbox]
    in F1, F2, F3, F4.
  rewrite <- !app_assoc in A4. cbn [app] in A4.
  destruct r as [frames | e].
  2: { eexists _, _. split; [reflexivity |].
       split; [exact F1 |]. split; [exact F2 |]. split; [exact F3 |].
       destruct F4 as (h & op & H1 & H2).
       repeat rewrite <- app_assoc in H1. repeat rewrite <- app_assoc in H2.
       cbn [app] in H1, H2.
       exists (framesSetup env d s ++ h), op. unfold framesSetup. cbn [app].
       split; [exact H1 | exact H2]. }
  destruct F4 as (new & N1 & N2 & N3 & N4). cbn [app] in N1. subst new.
  repeat rewrite <- app_assoc in N3. repeat rewrite <- app_assoc in N4.
  cbn [app] in N3, N4.
  unfold WorkerThread.bindT at 1. unfold WorkerThread.dirCall at 1.
  unfold WorkerThread.answered at 1.
  destruct (WorkerThread.dirAnswer env (WorkerThread.ops st1)
              (WorkerThread.deleteDir "frames")) as [gone | e] eqn:A5.
  2: { eexists _, _. split; [reflexivity |].
       cbn [WorkerThread.ops WorkerThread.ffmpeg WorkerThread.isLoaded WorkerThread.outbox].
       split; [exact F1 |]. split; [exact F2 |]. split; [exact F3 |].
       exists (framesSetup env d s ++ flat_map frameOps (map fst frames)),
         (WorkerThread.onDir (WorkerThread.deleteDir "frames")).
       rewrite N4 in A5 |- *. unfold framesSetup. cbn [app].
       split; [rewrite <- !app_assoc; reflexivity |]. cbn [refusedAt]. exact A5. }
  unfold WorkerThread.bindT at 1. unfold WorkerThread.fileCall at 1.
  unfold WorkerThread.answered at 1.
  cbn [WorkerThread.ops WorkerThread.ffmpeg WorkerThread.isLoaded WorkerThread.outbox].
  destruct (WorkerThread.fileAnswer env
              (WorkerThread.ops st1 ++ [WorkerThread.onDir (WorkerThread.deleteDir "frames")])
              (Worker.deleteFile "input.mp4")) as [gone' | msg] eqn:A6;
    cbn [WorkerThread.ofResult].
  2: { eexists _, _. split; [reflexivity |].
       cbn [WorkerThread.ops WorkerThread.ffmpeg WorkerThread.isLoaded WorkerThread.outbox].
       split; [exact F1 |]. split; [exact F2 |]. split; [exact F3 |].
       exists (framesSetup env d s ++ flat_map frameOps (map fst frames) ++
               [WorkerThread.onDir (WorkerThread.deleteDir "frames")]),
         (WorkerThread.onFile (Worker.deleteFile "input.mp4")).
       rewrite N4 in A6 |- *. unfold framesSetup. cbn [app].
       split; [rewrite <- !app_assoc; reflexivity |]. cbn [refusedAt].
       rewrite <- !app_assoc in A6. cbn [app] in A6. rewrite A6. reflexivity. }
  eexists _, _. split; [reflexivity |].
  cbn [WorkerThread.ops WorkerThread.ffmpeg WorkerThread.isLoaded WorkerThread.outbox].
  split; [exact F1 |]. split; [exact F2 |]. split; [exact F3 |].
  exists files. unfold framesSetup. cbn [removelast app].
  split; [exact A4 |]. split; [exact N2 |]. split; [exact N3 |].
  rewrite N4. rewrite <- !app_assoc. reflexivity.
Qed.

(** A frame extraction with input data on a thread that has an engine
    sends no message itself.  When it returns, its frames are the entries
    of the listing of the frames directory whose names end in .jpg, in the
    order of the listing, each with the bytes the engine gave when
    frames/<name> was read; the thread wrote the input, created the
    directory, ran the engine and listed the directory, then read and
    deleted each frame in turn, then deleted the directory and the input.
    When it fails, the error is the one the environment raised at the last
    request made: nothing is requested after a failure, so nothing is
    cleaned up. *)
Theorem executeFrames_collects (env : WorkerThread.Env) (d : bytes)
        (inputFile : option (option bytes)) (s : FrameSettings) (st : WorkerThread.Thread) :
  WorkerThread.ffmpeg st = true ->
  let out := WorkerThread.executeFrames env (Some d) inputFile s st in
  WorkerThread.outbox (snd out) = WorkerThread.outbox st /\
  match fst out with
  | WorkerThread.Done frames =>
      exists files,
        WorkerThread.dirAnswer env
          (WorkerThread.ops st ++ removelast (framesSetup env d s))
          (WorkerThread.listDir "frames") = WorkerThread.Done files /\
        map fst frames = jpgNames files /\
        framesRead env (WorkerThread.ops st ++ framesSetup env d s) frames /\
        WorkerThread.ops (snd out) =
          WorkerThread.ops st ++ framesSetup env d s ++
          flat_map frameOps (map fst frames) ++
          [WorkerThread.onDir (WorkerThread.deleteDir "frames");
           WorkerThread.onFile (Worker.deleteFile "input.mp4")]
  | WorkerThread.Raised e =>
      exists h op,
        WorkerThread.ops (snd out) = WorkerThread.ops st ++ h ++ [op] /\
        refusedAt env (WorkerThread.ops st ++ h) op e
  end.
Proof.
  intros F out.
  destruct (executeFrames_shape env d inputFile s st F) as (r & st' & E & _ & _ & F3 & F4).
  unfold out. rewrite E. cbn [fst snd]. split; [exact F3 | exact F4].
Qed.

Lemma executeFrames_collects_witness :
  let env :=
    {| WorkerThread.hasSharedArrayBuffer := true;
       WorkerThread.fileAnswer := fun _ op =>
         match op with
         | Worker.readFile _ => Worker.Ok [x01]
         | _ => Worker.Ok []
         end;
       WorkerThread.dirAnswer := fun _ op =>
         match op with
         | WorkerThread.listDir _ =>
             WorkerThread.Done
               [{| WorkerThread.node_name := "."; WorkerThread.isDir := true |};
                {| WorkerThread.node_name := "out_001.jpg"; WorkerThread.isDir := false |};
                {| WorkerThread.node_name := "out_002.jpg"; WorkerThread.isDir := false |}]
         | _ => WorkerThread.Done []
         end;
       WorkerThread.loadAnswer := fun _ => WorkerThread.Done tt;
       WorkerThread.fetchAnswer := fun _ _ => WorkerThread.Raised (WorkerThread.OtherValue "");
       WorkerThread.objectURL := fun _ => "blob:0";
       WorkerThread.numberToString := fun _ => "1" |} in
  let st := {| WorkerThread.ffmpeg := true; WorkerThread.isLoaded := true;
               WorkerThread.ops := []; WorkerThread.outbox := [] |} in
  let out := WorkerThread.executeFrames env (Some [x02]) None {| fps := 1%Q |} st in
  WorkerThread.outbox (snd out) = [] /\
  fst out = WorkerThread.Done [("out_001.jpg", [x01]); ("out_002.jpg", [x01])].
Proof.
  intros env st out.
  destruct (executeFrames_collects env [x02] None {| fps := 1%Q |} st eq_refl) as (H & _).
  split; [exact H | reflexivity].
Defined.

(** ** A command, from the client to the worker and back *)

Lemma listeners_pass_reports (event : WorkerResponse) (ls : list Listener) :
  isReport event = true ->
  forall w,
    snd (forEach ls (fun l => c' <- this ;;
                     if registered l c' then runListener l event else skip) w) = w.
Proof.
  intros R. induction ls as [| l rest IH]; intros w; [reflexivity |].
  cbn [forEach]. rewrite !bind_eq. cbn [this fst snd].
  assert (E : snd ((if registered l (client w) then runListener l event else skip) w) = w).
  { destruct (registered l (client w)); [| reflexivity].
    unfold isReport in R.
    destruct l as [p | k p]; cbn [runListener]; unfold runHandleLoad, runHandleResult;
      destruct (r_type event); try discriminate; reflexivity. }
  rewrite E. apply IH.
Qed.

Lemma report_keeps_worker (from : nat) (event : WorkerResponse) (w : World) :
  isReport event = true ->
  worker (client (step (Message from event) w)) = worker (client w).
Proof.
  intros R. unfold step. rewrite bind_eq.
  destruct (calm_microtasks (snd (task (Message from event) w))) as (M1 & _).
  rewrite M1. cbn [task]. unfold dispatchMessage. rewrite bind_eq. cbn [this fst snd].
  destruct (worker (client w)) as [wk |] eqn:W; [| cbn; exact W].
  destruct (Nat.eqb (worker_id wk) from); [| cbn; exact W].
  rewrite bind_eq. rewrite (listeners_pass_reports event _ R).
  destruct (handleMessage_frame event w) as (F1 & _). rewrite F1. exact W.
Qed.

Lemma reports_keep_worker (from : nat) (reports : list WorkerResponse) :
  forallb isReport reports = true ->
  forall w, worker (client (run (deliver from reports) w)) = worker (client w).
Proof.
  induction reports as [| r rest IH]; intros R w; [reflexivity |].
  cbn [forallb] in R. apply andb_prop in R. destruct R as [R1 R2].
  unfold deliver. cbn [map run fold_left].
  change (fold_left (fun w0 ev => step ev w0) (map (Message from) rest)
            (step (Message from r) w))
    with (run (deliver from rest) (step (Message from r) w)).
  rewrite (IH R2). apply report_keeps_worker. exact R1.
Qed.

Lemma withReports_nil (arrived : list WorkerResponse) :
  withReports [] arrived -> forallb isReport arrived = true.
Proof.
  intros H. remember [] as own eqn:E. induction H as [| r own arrived H IH | e own arrived He H IH].
  - reflexivity.
  - discriminate.
  - cbn. rewrite He. apply IH. exact E.
Qed.

Lemma withReports_split (own arrived : list WorkerResponse) :
  withReports own arrived ->
  forall reports t,
    own = reports ++ [t] ->
    forallb isReport reports = true ->
    exists before after,
      arrived = before ++ t :: after /\
      forallb isReport before = true /\
      forallb isReport after = true.
Proof.
  intros H. induction H as [| r own arrived H IH | e own arrived He H IH];
    intros reports t E R.
  - destruct reports; discriminate.
  - destruct reports as [| r' rest].
    + cbn in E. inversion E; subst. exists [], arrived. split; [reflexivity |].
      split; [reflexivity | apply withReports_nil; exact H].
    + cbn in E. inversion E; subst. cbn in R. apply andb_prop in R. destruct R as [R1 R2].
      destruct (IH rest t eq_refl R2) as (before & after & -> & B & A).
      exists (r' :: before), after. cbn. rewrite R1, B. repeat split. exact A.
  - destruct (IH reports t E R) as (before & after & -> & B & A).
    exists (e :: before), after. cbn. rewrite He, B. repeat split. exact A.
Qed.

Lemma first_outcome_In (p : PromiseId) (o : Outcome) (l : list (PromiseId * Outcome)) :
  first_outcome p l = Some o -> In (p, o) l.
Proof.
  induction l as [| [q o'] rest IH]; cbn; [discriminate |].
  destruct (Nat.eqb q p) eqn:E.
  - intros H. inversion H; subst. apply Nat.eqb_eq in E. subst q. left. reflexivity.
  - intros H. right. apply IH. exact H.
Qed.

Lemma report_keeps_settled (from : nat) (event : WorkerResponse) (w : World) :
  isReport event = true ->
  exists added, settled (step (Message from event) w) = settled w ++ added.
Proof.
  intros R. unfold step. rewrite bind_eq.
  destruct (calm_microtasks (snd (task (Message from event) w)))
    as (_ & _ & _ & _ & _ & _ & added & M7).
  exists added. rewrite M7. f_equal.
  cbn [task]. unfold dispatchMessage. rewrite bind_eq. cbn [this fst snd].
  destruct (worker (client w)) as [wk |]; [| reflexivity].
  destruct (Nat.eqb (worker_id wk) from); [| reflexivity].
  rewrite bind_eq. rewrite (listeners_pass_reports event _ R).
  destruct (handleMessage_frame event w) as (_ & F2 & _). exact F2.
Qed.

Lemma reports_keep_settled (from : nat) (reports : list WorkerResponse)
      (p : PromiseId) (o : Outcome) :
  forallb isReport reports = true ->
  forall w, In (p, o) (settled w) -> In (p, o) (settled (run (deliver from reports) w)).
Proof.
  induction reports as [| r rest IH]; intros R w Hin; [exact Hin |].
  cbn [forallb] in R. apply andb_prop in R. destruct R as [R1 R2].
  unfold deliver. cbn [map run fold_left].
  change (fold_left (fun w0 ev => step ev w0) (map (Message from) rest)
            (step (Message from r) w))
    with (run (deliver from rest) (step (Message from r) w)).
  apply (IH R2). destruct (report_keeps_settled from r w R1) as (added & E).
  rewrite E. apply in_or_app. left. exact Hin.
Qed.

Lemma replies_settle (k : ResultHandler) (p : PromiseId) (wk : Worker) (w : World)
      (cmd : WorkerThread.Command) (env : WorkerThread.Env) (st : WorkerThread.Thread)
      (replies arrived : list WorkerResponse) :
  Good [] [] w ->
  worker (client w) = Some wk ->
  In (handleResult k p) (listeners wk) ->
  (forall t, carriesOutputOf cmd t = true -> terminalFor k t = true) ->
  WorkerThread.outbox (snd (WorkerThread.onmessage env WorkerThread.mtExecute (Some cmd) st)) =
    WorkerThread.outbox st ++ replies ->
  withReports replies arrived ->
  exists reports t before after o,
    replies = reports ++ [t] /\
    arrived = before ++ t :: after /\
    forallb isReport (reports ++ before ++ after) = true /\
    fired p (run (deliver (worker_id wk) before) w) = 0 /\
    fired p (run (deliver (worker_id wk) arrived) w) = 1 /\
    registered (handleResult k p)
      (client (run (deliver (worker_id wk) arrived) w)) = false /\
    commandOutcome k t o /\
    promiseState p (run (deliver (worker_id wk) arrived) w) = Some o.
Proof.
  intros HG Hw Hin Hout Hbox Harr.
  destruct (onmessage_replies env WorkerThread.mtExecute (Some cmd) st)
    as (st' & E & _ & _ & reports & t & O & R & T & A).
  rewrite E in Hbox. cbn [snd] in Hbox. rewrite O in Hbox.
  apply app_inv_head in Hbox. subst replies.
  destruct (withReports_split _ _ Harr reports t eq_refl R) as (before & after & -> & B & Af).
  assert (Ht : terminalFor k t = true).
  { destruct A as [A | (cmd' & Hc & A)].
    - unfold terminalFor. rewrite A. reflexivity.
    - inversion Hc; subst cmd'. apply Hout. exact A. }
  pose proof (Good_run [] (deliver (worker_id wk) before) w HG) as HG1.
  pose proof (reports_keep_worker (worker_id wk) before B w) as W1. rewrite Hw in W1.
  assert (Hreg : registered (handleResult k p)
                   (client (run (deliver (worker_id wk) before) w)) = true).
  { apply registered_In. unfold liveListeners. rewrite W1. exact Hin. }
  pose proof (Good_registered_pending [] [] _ _ HG1 Hreg) as Hpend.
  cbn [listener_promise] in Hpend.
  destruct (message_settles_command k p t wk _ HG1 W1 Hin Ht) as (S1 & S2 & o & S3 & S4).
  exists reports, t, before, after, o.
  assert (Erun : run (deliver (worker_id wk) (before ++ t :: after)) w =
                 run (deliver (worker_id wk) after)
                     (step (Message (worker_id wk) t)
                           (run (deliver (worker_id wk) before) w))).
  { unfold deliver. rewrite map_app, run_app. reflexivity. }
  rewrite Erun.
  pose proof (Good_step [] (Message (worker_id wk) t) _ HG1) as HG2.
  pose proof (Good_run [] (deliver (worker_id wk) after) _ HG2) as HG3.
  assert (Hset : In (p, o)
                    (settled (run (deliver (worker_id wk) after)
                                  (step (Message (worker_id wk) t)
                                        (run (deliver (worker_id wk) before) w))))).
  { apply reports_keep_settled; [exact Af |]. apply first_outcome_In. exact S4. }
  split; [reflexivity |]. split; [reflexivity |]. split.
  { rewrite !forallb_app, R, B, Af. reflexivity. }
  split; [exact Hpend |]. split.
  { pose proof (Good_fired [] [] p _ HG3). pose proof (fired_In p o _ Hset). lia. }
  split.
  { unfold registered in S1 |- *. rewrite (reports_keep_worker _ _ Af). exact S1. }
  split; [exact S3 |]. apply (Good_promiseState [] [] p o _ HG3 Hset).
Qed.

(** A command goes from the client to the worker and back.  The message
    the client posts for a request is one the worker takes as an 'execute'
    with the command of that request.  Whatever the engine does, and
    whatever the state of the thread, the messages the worker posts while
    it handles it end with one 'complete' or 'error' message.  When they
    arrive in order at a client that has the command's listener on its
    worker, with any log and progress messages in between and after, the
    command's promise is pending until that message arrives and is settled
    by it, exactly once: rejected with the text of the worker's 'error' or
    resolved with a result; the listener is then off the worker. *)
Theorem worker_replies_settle_command (sab : bool) (evs : list Event) (req : Request)
        (buffers : list bytes) (p : PromiseId) (wk : Worker) :
  let w := run evs (newWorld sab) in
  worker (client w) = Some wk ->
  In (handleResult (handlerOf req) p) (listeners wk) ->
  exists cmd,
    WorkerThread.received (MsgExecute (commandOf req buffers)) =
      Some (WorkerThread.mtExecute, Some cmd) /\
    forall env st replies arrived,
      WorkerThread.outbox
        (snd (WorkerThread.onmessage env WorkerThread.mtExecute (Some cmd) st)) =
        WorkerThread.outbox st ++ replies ->
      withReports replies arrived ->
      exists reports t before after o,
        replies = reports ++ [t] /\
        arrived = before ++ t :: after /\
        forallb isReport (reports ++ before ++ after) = true /\
        fired p (run (deliver (worker_id wk) before) w) = 0 /\
        fired p (run (deliver (worker_id wk) arrived) w) = 1 /\
        registered (handleResult (handlerOf req) p)
          (client (run (deliver (worker_id wk) arrived) w)) = false /\
        commandOutcome (handlerOf req) t o /\
        promiseState p (run (deliver (worker_id wk) arrived) w) = Some o.
Proof.
  intros w Hw Hin.
  assert (HG : Good [] [] w) by apply Good_reachable.
  assert (Data : forall k, (k = ForTrim \/ k = ForConvert \/ exists s, k = ForMerge s) ->
            forall t, match r_type t with
                      | rComplete =>
                          match payload_get p_data t with Some _ => true | None => false end
                      | _ => false
                      end = true -> terminalFor k t = true).
  { intros k Hk t H. unfold terminalFor. destruct (r_type t); try discriminate.
    destruct Hk as [-> | [-> | (s & ->)]]; exact H. }
  destruct req as [file s | file s | file s | cs s]; cbn [commandOf WorkerThread.received
    cmd_type settings inputData clips handlerOf] in *; eexists; (split; [reflexivity |]);
    intros env st replies arrived Hbox Harr;
    (eapply replies_settle; [exact HG | exact Hw | exact Hin | | exact Hbox | exact Harr]);
    intros t H.
  - apply Data; [left; reflexivity | exact H].
  - unfold terminalFor. unfold carriesOutputOf in H.
    destruct (r_type t); try discriminate. exact H.
  - apply Data; [right; left; reflexivity | exact H].
  - apply Data; [right; right; exists s; reflexivity | exact H].
Qed.

Lemma worker_replies_settle_command_witness :
  fired 1 (run (deliver 0 [Worker.logMessage "frame=  120"; WorkerThread.completeData [x01]])
               (run dispatchedTrim (newWorld true))) = 1.
Proof.
  destruct (worker_replies_settle_command true dispatchedTrim
              (ReqTrim "sample.mp4" sampleTrim) [[x00]] 1
              {| worker_id := 0; listeners := [handleResult ForTrim 1] |}
              eq_refl (or_introl eq_refl)) as (cmd & Hr & H).
  cbn in Hr. inversion Hr as [Hc]. clear Hr. subst cmd.
  destruct (H {| WorkerThread.hasSharedArrayBuffer := true;
                 WorkerThread.fileAnswer := fun _ _ => Worker.Ok [x01];
                 WorkerThread.dirAnswer := fun _ _ => WorkerThread.Done [];
                 WorkerThread.loadAnswer := fun _ => WorkerThread.Done tt;
                 WorkerThread.fetchAnswer := fun _ _ =>
                   WorkerThread.Raised (WorkerThread.OtherValue "");
                 WorkerThread.objectURL := fun _ => "blob:0";
                 WorkerThread.numberToString := fun _ => "1" |}
              {| WorkerThread.ffmpeg := true; WorkerThread.isLoaded := true;
                 WorkerThread.ops := []; WorkerThread.outbox := [] |}
              [WorkerThread.completeData [x01]]
              [Worker.logMessage "frame=  120"; WorkerThread.completeData [x01]]
              eq_refl
              (wr_engine (Worker.logMessage "frame=  120") _ _ eq_refl
                         (wr_own _ _ _ wr_done)))
    as (reports & t & before & after & o & _ & _ & _ & _ & F & _).
  exact F.
Defined.

(** ** The timeout is the client's, not the command's *)

Lemma still_ret {A} (a : A) : still (ret a).
Proof. intros w. split; reflexivity. Qed.

Lemma still_bind {A B} (m : M A) (k : A -> M B) :
  still m -> (forall a, still (k a)) -> still (bind m k).
Proof.
  intros Hm Hk w. rewrite bind_eq.
  destruct (Hm w) as (H1 & H2). destruct (Hk (fst (m w)) (snd (m w))) as (K1 & K2).
  split; congruence.
Qed.

Lemma still_forEach {A} (l : list A) (f : A -> M unit) :
  (forall a, still (f a)) -> still (forEach l f).
Proof.
  intros Hf. induction l as [| a rest IH]; cbn [forEach]; [apply still_ret |].
  apply still_bind; [apply Hf |]. intros _. exact IH.
Qed.

Lemma still_mapM {A B} (f : A -> M B) (l : list A) :
  (forall a, still (f a)) -> still (mapM f l).
Proof.
  intros Hf. induction l as [| a rest IH]; cbn [mapM]; [apply still_ret |].
  apply still_bind; [apply Hf |]. intros b.
  apply still_bind; [apply IH |]. intros bs. apply still_ret.
Qed.

Lemma tidy_still {A} (m : M A) : still m -> tidy m.
Proof.
  intros H w Hw. destruct (H w) as (H1 & H2). unfold oneTimer in *.
  rewrite H1, H2. exact Hw.
Qed.

Lemma tidy_bind {A B} (m : M A) (k : A -> M B) :
  tidy m -> (forall a, tidy (k a)) -> tidy (bind m k).
Proof. intros Hm Hk w Hw. rewrite bind_eq. apply Hk. apply Hm. exact Hw. Qed.

Lemma tidy_forEach {A} (l : list A) (f : A -> M unit) :
  (forall a, tidy (f a)) -> tidy (forEach l f).
Proof.
  intros Hf. induction l as [| a rest IH]; cbn [forEach]; [intros w Hw; exact Hw |].
  apply tidy_bind; [apply Hf |]. intros _. exact IH.
Qed.

(** Stepping through an action that touches no timer. *)
Ltac still_step :=
  match goal with
  | |- still (ret _) => apply still_ret
  | |- still skip => apply still_ret
  | |- still (bind _ _) => apply still_bind; [| intro]
  | |- still (forEach _ _) => apply still_forEach; intro
  | |- still (mapM _ _) => apply still_mapM; intro
  | |- still (match ?x with _ => _ end) => destruct x
  | |- still (if ?x then _ else _) => destruct x
  | |- still _ => solve [intro; cbn; split; reflexivity]
  end.

Ltac stills := repeat still_step.

Lemma still_removeEventListener (l : Listener) : still (removeEventListener l).
Proof. unfold removeEventListener. stills. Qed.

Lemma still_addEventListener (l : Listener) : still (addEventListener l).
Proof. unfold addEventListener. stills. Qed.

Lemma still_postMessage (m : WorkerMessage) : still (postMessage m).
Proof. unfold postMessage. stills. Qed.

Lemma still_invoke_opt (cb : option Cb) (s : ProcessingState) : still (invoke_opt cb s).
Proof. unfold invoke_opt. stills. Qed.

Lemma still_load (cb : option Cb) : still (load cb).
Proof.
  unfold load. stills; try apply still_invoke_opt; try apply still_addEventListener;
    try apply still_postMessage.
Qed.

Lemma still_materialize (k : ResultHandler) (event : WorkerResponse) :
  still (materialize k event).
Proof.
  unfold materialize, fileResult, framesResult, frameOf, crypto_randomUUID,
    URL_createObjectURL. stills.
Qed.

Lemma still_runListener (l : Listener) (event : WorkerResponse) :
  still (runListener l event).
Proof.
  destruct l as [p | k p]; cbn [runListener]; unfold runHandleLoad, runHandleResult;
    stills; try apply still_removeEventListener; try apply still_materialize.
Qed.

Lemma still_submit (p : PromiseId) (req : Request) (buffers : list bytes) :
  still (submit p req buffers).
Proof.
  unfold submit. stills; try apply still_addEventListener; try apply still_postMessage.
Qed.

Lemma still_fileRead (p : PromiseId) (result : option (list bytes)) :
  still (fileRead p result).
Proof.
  intros w. unfold fileRead. destruct (find (awaitsRead p) (suspended w)) as [c |];
    [| split; reflexivity].
  destruct result as [buffers |].
  - destruct (Nat.eqb _ _); [| split; reflexivity].
    apply (still_bind (unsuspend p) (fun _ => submit p (call_request c) buffers)).
    + intros w0. split; reflexivity.
    + intros _. apply still_submit.
  - apply (still_bind (unsuspend p) (fun _ => reject p "Failed to read file")).
    + intros w0. split; reflexivity.
    + intros _ w0. split; reflexivity.
Qed.

Lemma clearTimeout_disarms (w : World) :
  oneTimer w ->
  timers (snd (clearTimeout w)) = [] /\
  timeoutId (client (snd (clearTimeout w))) = None \/
  timers w = [] /\ snd (clearTimeout w) = w.
Proof.
  intros Hw. unfold clearTimeout. rewrite bind_eq. cbn [this fst snd].
  unfold oneTimer in Hw.
  destruct (timeoutId (client w)) as [t |] eqn:T.
  - left. rewrite bind_eq. cbn. split; [| reflexivity].
    destruct (timers w) as [| x [| y rest]]; [reflexivity | | contradiction].
    inversion Hw; subst. cbn. rewrite Nat.eqb_refl. reflexivity.
  - right. split; [| reflexivity].
    destruct (timers w) as [| x [| y rest]]; [reflexivity | discriminate | contradiction].
Qed.

Lemma clearTimeout_empties (w : World) :
  oneTimer w -> timers (snd (clearTimeout w)) = [].
Proof.
  intros Hw. destruct (clearTimeout_disarms w Hw) as [[H _] | [H E]]; [exact H |].
  rewrite E. exact H.
Qed.

Lemma tidy_clearTimeout : tidy clearTimeout.
Proof.
  intros w Hw. unfold oneTimer. rewrite (clearTimeout_empties w Hw). exact I.
Qed.

Lemma startTimeout_arms (cb : Cb) (w : World) :
  oneTimer w ->
  timers (snd (startTimeout cb w)) =
    [{| timer_id := fresh w; deadline := (now w + TIMEOUT_MS)%N; timer_callback := cb |}] /\
  timeoutId (client (snd (startTimeout cb w))) = Some (fresh w).
Proof.
  intros Hw. unfold startTimeout. rewrite bind_eq.
  pose proof (clearTimeout_empties w Hw) as E.
  assert (F : fresh (snd (clearTimeout w)) = fresh w /\ now (snd (clearTimeout w)) = now w).
  { unfold clearTimeout. rewrite bind_eq. cbn [this fst snd].
    destruct (timeoutId (client w)); [rewrite bind_eq |]; cbn; split; reflexivity. }
  destruct F as (F1 & F2).
  rewrite bind_eq. unfold window_setTimeout. rewrite bind_eq.
  cbn [newId assign fst snd timers client now fresh timeoutId set_timers set_fresh
       set_client set_timeoutId].
  rewrite E, F1, F2. split; reflexivity.
Qed.

Lemma tidy_startTimeout (cb : Cb) : tidy (startTimeout cb).
Proof.
  intros w Hw. destruct (startTimeout_arms cb w Hw) as (H1 & H2).
  unfold oneTimer. rewrite H1, H2. reflexivity.
Qed.

(** Stepping through an action that may clear or arm the timeout. *)
Ltac tidy_step :=
  match goal with
  | |- tidy clearTimeout => apply tidy_clearTimeout
  | |- tidy (startTimeout _) => apply tidy_startTimeout
  | |- tidy (bind _ _) => apply tidy_bind; [| intro]
  | |- tidy (forEach _ _) => apply tidy_forEach; intro
  | |- tidy (match ?x with _ => _ end) => destruct x
  | |- tidy (if ?x then _ else _) => destruct x
  | |- tidy _ =>
      apply tidy_still;
      first [ apply still_load | apply still_runListener | apply still_submit
            | apply still_fileRead | apply still_invoke_opt | solve [stills] ]
  end.

Ltac tidies := repeat tidy_step.

Lemma tidy_terminate : tidy terminate.
Proof. unfold terminate. tidies. Qed.

Lemma tidy_onTimeout (cb : Cb) : tidy (onTimeout cb).
Proof.
  unfold onTimeout. tidies; apply tidy_terminate.
Qed.

Lemma tidy_handleMessage (event : WorkerResponse) : tidy (handleMessage event).
Proof. unfold handleMessage. tidies. Qed.

Lemma tidy_handleError (msg : string) : tidy (handleError msg).
Proof. unfold handleError. tidies. Qed.

Lemma tidy_prepare (p : PromiseId) (req : Request) (cb : Cb) : tidy (prepare p req cb).
Proof. unfold prepare. tidies. Qed.

Lemma tidy_start (p : PromiseId) (req : Request) (cb : Cb) : tidy (start p req cb).
Proof. unfold start. tidies; apply tidy_prepare. Qed.

Lemma tidy_wake (c : Call) : tidy (wake c).
Proof.
  unfold wake. destruct (call_stage c); [| apply tidy_still; stills].
  intros w. destruct (promiseState lp w) as [[v | msg] |].
  - apply tidy_prepare.
  - apply tidy_still. stills.
  - apply tidy_still. stills.
Qed.

Lemma tidy_microtasks : tidy microtasks.
Proof. unfold microtasks. tidies. apply tidy_wake. Qed.

Lemma tidy_elapse (ms : N) : tidy (elapse ms).
Proof.
  unfold elapse. apply tidy_bind; [apply tidy_still; stills |]. intros _ w Hw.
  unfold oneTimer in Hw.
  destruct (timers w) as [| t [| t' rest]] eqn:T; [| | contradiction].
  { cbn. unfold oneTimer. rewrite T. exact I. }
  cbn [forEach]. rewrite bind_eq. cbn [skip ret snd].
  destruct ((deadline t <=? now w)%N && armed t w).
  - rewrite bind_eq. apply tidy_onTimeout.
    unfold oneTimer, window_clearTimeout. cbn. rewrite T. cbn.
    rewrite Nat.eqb_refl. exact I.
  - cbn. unfold oneTimer. rewrite T. exact Hw.
Qed.

Lemma tidy_dispatchMessage (from : nat) (event : WorkerResponse) :
  tidy (dispatchMessage from event).
Proof. unfold dispatchMessage. tidies. apply tidy_handleMessage. Qed.

Lemma tidy_dispatchError (from : nat) (msg : string) : tidy (dispatchError from msg).
Proof. unfold dispatchError. tidies. apply tidy_handleError. Qed.

Lemma tidy_task (ev : Event) : tidy (task ev).
Proof.
  destruct ev; cbn [task]; unfold trim, extractFrames, convert, merge; tidies;
    try apply tidy_start; try apply tidy_terminate; try apply tidy_dispatchMessage;
    try apply tidy_dispatchError; try apply tidy_elapse.
Qed.

Lemma oneTimer_step (ev : Event) (w : World) : oneTimer w -> oneTimer (step ev w).
Proof.
  intros Hw. unfold step.
  apply (tidy_bind (task ev) (fun _ => microtasks)); [apply tidy_task | | exact Hw].
  intros _. apply tidy_microtasks.
Qed.

Lemma oneTimer_reachable (sab : bool) (evs : list Event) :
  oneTimer (run evs (newWorld sab)).
Proof.
  assert (G : forall w, oneTimer w -> oneTimer (run evs w)).
  { induction evs as [| ev rest IH]; intros w Hw; [exact Hw |].
    cbn [run fold_left]. apply IH. apply oneTimer_step. exact Hw. }
  apply G. exact I.
Qed.

Lemma still_listeners (event : WorkerResponse) (ls : list Listener) :
  still (forEach ls (fun l => c' <- this ;;
                     if registered l c' then runListener l event else skip)).
Proof.
  apply still_forEach. intros l. apply still_bind; [intro; split; reflexivity |].
  intros c'. destruct (registered l c'); [apply still_runListener | apply still_ret].
Qed.

Lemma prepare_timers (p : PromiseId) (req : Request) (cb : Cb) (w : World) :
  oneTimer w ->
  timers (snd (prepare p req cb w)) =
    [{| timer_id := fresh w; deadline := (now w + TIMEOUT_MS)%N; timer_callback := cb |}].
Proof.
  intros Hw. unfold prepare. rewrite !bind_eq.
  cbn [suspend snd timers set_suspended].
  match goal with
  | |- timers (snd (startTimeout cb ?w0)) = _ =>
      assert (H0 : oneTimer w0) by exact Hw;
      destruct (startTimeout_arms cb w0 H0) as (H1 & _); rewrite H1
  end.
  reflexivity.
Qed.

(** The timeout belongs to the client, not to a command.  In every run at
    most one timer is armed, and it is the one the client holds in
    [timeoutId].  A command that starts processing replaces whatever timer
    was armed by its own, of [TIMEOUT_MS]; and a 'complete' or 'error'
    message of the live worker disarms the timer, whichever command had
    armed it. *)
Theorem one_timeout_per_client (sab : bool) (evs : list Event) :
  let w := run evs (newWorld sab) in
  List.length (timers w) <= 1 /\
  (forall t, In t (timers w) -> timeoutId (client w) = Some (timer_id t)) /\
  (forall p req cb,
     timers (snd (prepare p req cb w)) =
       [{| timer_id := fresh w; deadline := (now w + TIMEOUT_MS)%N;
           timer_callback := cb |}]) /\
  (forall wk event,
     worker (client w) = Some wk ->
     isTerminal event = true ->
     timers (snd (dispatchMessage (worker_id wk) event w)) = []).
Proof.
  intros w. pose proof (oneTimer_reachable sab evs) as Hw. fold w in Hw.
  split; [| split; [| split]].
  - unfold oneTimer in Hw. destruct (timers w) as [| t [| t' rest]]; cbn; lia || contradiction.
  - intros t Hin. unfold oneTimer in Hw.
    destruct (timers w) as [| t0 [| t' rest]]; [destruct Hin | | contradiction].
    destruct Hin as [<- | []]. exact Hw.
  - intros p req cb. apply prepare_timers. exact Hw.
  - intros wk event Hwk Ht. unfold dispatchMessage. rewrite bind_eq. cbn [this fst snd].
    rewrite Hwk, Nat.eqb_refl. rewrite bind_eq.
    destruct (still_listeners event (listeners wk) (snd (handleMessage event w))) as (E & _).
    rewrite E. unfold handleMessage. unfold isTerminal in Ht.
    destruct (r_type event); try discriminate; rewrite bind_eq;
      match goal with
      | |- timers (snd (?m ?w0)) = [] =>
          assert (S : still m)
            by (apply still_bind; [intro; split; reflexivity |];
                intros c; apply still_invoke_opt);
          destruct (S w0) as (S1 & _); rewrite S1
      end; apply clearTimeout_empties; exact Hw.
Qed.

Lemma one_timeout_per_client_witness :
  timers (run dispatchedTrim (newWorld true)) =
    [{| timer_id := 3; deadline := TIMEOUT_MS; timer_callback := 7 |}] /\
  timers (snd (dispatchMessage 0 (completeEvent [x01]) (run dispatchedTrim (newWorld true)))) =
    [].
Proof.
  destruct (one_timeout_per_client true dispatchedTrim) as (_ & _ & _ & H).
  split; [reflexivity |].
  exact (H {| worker_id := 0; listeners := [handleResult ForTrim 1] |}
           (completeEvent [x01]) eq_refl eq_refl).
Defined.

(** ** An error of the worker itself *)

(** An error event of the live worker ([worker.onerror]) settles nothing.
    The client disarms the timeout and tells the current callback
    'Worker error: ...'; no promise is resolved or rejected and no listener
    is removed, so the promise of a command in flight stays pending with
    its listener on the worker, and no timer is left to end the wait. *)
Theorem worker_error_settles_nothing (sab : bool) (evs : list Event) (wk : Worker)
        (msg : string) :
  let w := run evs (newWorld sab) in
  let w' := snd (dispatchError (worker_id wk) msg w) in
  worker (client w) = Some wk ->
  worker (client w') = Some wk /\
  settled w' = settled w /\
  timers w' = [] /\
  notified w' =
    notified w ++
    match currentCallback (client w) with
    | Some cb => [(cb, {| status := error; progress := 0;
                          message := "Worker error: " ++ msg;
                          state_logs := logs (client w) |})]
    | None => []
    end /\
  (forall l, In l (listeners wk) ->
     registered l (client (step (Crash (worker_id wk) msg) w)) = true /\
     fired (listener_promise l) (step (Crash (worker_id wk) msg) w) = 0).
Proof.
  intros w w' Hwk.
  pose proof (oneTimer_reachable sab evs) as Hw. fold w in Hw.
  assert (E : w' = snd (handleError msg w)).
  { unfold w', dispatchError. rewrite bind_eq. cbn [this fst snd].
    rewrite Hwk, Nat.eqb_refl. reflexivity. }
  assert (F : worker (client w') = Some wk /\ settled w' = settled w /\
              notified w' =
                notified w ++
                match currentCallback (client w) with
                | Some cb => [(cb, {| status := error; progress := 0;
                                      message := "Worker error: " ++ msg;
                                      state_logs := logs (client w) |})]
                | None => []
                end).
  { rewrite E. unfold handleError, clearTimeout. rewrite !bind_eq. cbn [this fst snd].
    destruct (timeoutId (client w)); rewrite ?bind_eq; cbn;
      destruct (currentCallback (client w)); cbn; rewrite ?app_nil_r;
      repeat split; exact Hwk. }
  destruct F as (F1 & F2 & F3).
  split; [exact F1 |]. split; [exact F2 |]. split.
  { rewrite E. unfold handleError. rewrite bind_eq.
    match goal with
    | |- timers (snd (?m ?w0)) = [] =>
        assert (S : still m)
          by (apply still_bind; [intro; split; reflexivity |];
              intros c; apply still_invoke_opt);
        destruct (S w0) as (S1 & _); rewrite S1
    end. apply clearTimeout_empties. exact Hw. }
  split; [exact F3 |].
  intros l Hin.
  assert (Es : step (Crash (worker_id wk) msg) w = snd (microtasks w')).
  { unfold step. rewrite bind_eq. reflexivity. }
  assert (Hreg : registered l (client (step (Crash (worker_id wk) msg) w)) = true).
  { rewrite Es. destruct (calm_microtasks w') as (M1 & _).
    unfold registered. rewrite M1, F1.
    apply existsb_exists. exists l. split; [exact Hin | apply Listener_eqb_refl]. }
  split; [exact Hreg |].
  apply (Good_registered_pending [] [] l _
           (Good_step [] _ _ (Good_reachable sab evs)) Hreg).
Qed.

Lemma worker_error_settles_nothing_witness :
  timers (snd (dispatchError 0 "out of memory" (run dispatchedTrim (newWorld true)))) = [] /\
  fired 1 (step (Crash 0 "out of memory") (run dispatchedTrim (newWorld true))) = 0.
Proof.
  destruct (worker_error_settles_nothing true dispatchedTrim
              {| worker_id := 0; listeners := [handleResult ForTrim 1] |}
              "out of memory" eq_refl) as (_ & _ & H3 & _ & H5).
  split; [exact H3 |].
  exact (proj2 (H5 (handleResult ForTrim 1) (or_introl eq_refl))).
Defined.
